(** * A shallow embedding of myopl ([src/basic.py]): lexer, parser and
    tree-walking interpreter of a small BASIC-like scripting language.

    Modelling conventions used throughout:
    - source positions ([Position], [pos_start]/[pos_end]) are reduced to
      the character index (lexer) or the token index (parser) at which an
      error is reported; spans of tokens and nodes are not kept;
    - a Python float is an exact rational ([Q]); a conversion from text
      that overflows the double range gives [PInf], one that underflows
      gives [0]; other rounding is abstracted away;
    - the Context a Number, String or List value carries is only used for
      error attribution in the source and is not kept; Function and
      BuiltInFunction values keep theirs (it decides their scoping). *)

From Stdlib Require Import ZArith QArith Qround Ascii String List Bool Lia.
From stdpp Require Import base gmap strings.
Import ListNotations.

Set Warnings "-register-all".
Open Scope Z_scope.

(** ** Python numbers *)

Inductive pynum :=
| PInt (z : Z)        (* Python int *)
| PFloat (q : Q)      (* finite Python float, held as an exact rational: the
                         rounding of float literals and float arithmetic to
                         doubles is not modelled *)
| PInf.               (* float('inf') *)

(** ** Errors ([Error] and its subclasses) *)

Inductive error :=
| IllegalCharError (pos : nat) (ch : ascii)
| ExpectedCharError (pos : nat) (details : string)
| LexSyntaxError (pos : nat) (key : string)
    (* InvalidSyntaxError raised by the lexer; [key] is the c.ERRORS key *)
| InvalidSyntaxError (tok_index : Z) (key : string)
    (* InvalidSyntaxError raised by the parser, at the current token *)
| RTError (key : string) (ctx : option positive)
| RTErrorWrapped (key : string) (filename : string) (inner : error)
      (ctx : option positive).
    (* an RTError whose details embed [inner.as_string()] *)

(** ** Tokens *)

Inductive tok_type :=
| TT_INT | TT_FLOAT | TT_STRING | TT_IDENTIFIER | TT_KEYWORD
| TT_PLUS | TT_MINUS | TT_MULTIPLY | TT_DIVIDE | TT_MODULUS | TT_POWER
| TT_ASSIGN | TT_LPAREN | TT_RPAREN | TT_LSQUARE | TT_RSQUARE
| TT_EQUAL_TO | TT_NOT_EQUAL_TO | TT_LESS_THAN | TT_GREATER_THAN
| TT_LESS_THAN_EQUAL_TO | TT_GREATER_THAN_EQUAL_TO
| TT_COMMA | TT_ARROW | TT_NEWLINE | TT_EOF.

Definition tok_type_eqb (a b : tok_type) : bool :=
  match a, b with
  | TT_INT, TT_INT | TT_FLOAT, TT_FLOAT | TT_STRING, TT_STRING
  | TT_IDENTIFIER, TT_IDENTIFIER | TT_KEYWORD, TT_KEYWORD
  | TT_PLUS, TT_PLUS | TT_MINUS, TT_MINUS | TT_MULTIPLY, TT_MULTIPLY
  | TT_DIVIDE, TT_DIVIDE | TT_MODULUS, TT_MODULUS | TT_POWER, TT_POWER
  | TT_ASSIGN, TT_ASSIGN | TT_LPAREN, TT_LPAREN | TT_RPAREN, TT_RPAREN
  | TT_LSQUARE, TT_LSQUARE | TT_RSQUARE, TT_RSQUARE
  | TT_EQUAL_TO, TT_EQUAL_TO | TT_NOT_EQUAL_TO, TT_NOT_EQUAL_TO
  | TT_LESS_THAN, TT_LESS_THAN | TT_GREATER_THAN, TT_GREATER_THAN
  | TT_LESS_THAN_EQUAL_TO, TT_LESS_THAN_EQUAL_TO
  | TT_GREATER_THAN_EQUAL_TO, TT_GREATER_THAN_EQUAL_TO
  | TT_COMMA, TT_COMMA | TT_ARROW, TT_ARROW | TT_NEWLINE, TT_NEWLINE
  | TT_EOF, TT_EOF => true
  | _, _ => false
  end.

Inductive tok_value :=
| TVNone
| TVNum (n : pynum)
| TVStr (s : string).

Record token := mk_token { ttype : tok_type; tvalue : tok_value }.

Definition tok (t : tok_type) : token := mk_token t TVNone.

Definition KEYWORDS : list string :=
  ["VAR"; "AND"; "OR"; "NOT"; "IF"; "ELIF"; "ELSE"; "FOR"; "TO"; "STEP";
   "WHILE"; "FUN"; "THEN"; "END"; "RETURN"; "CONTINUE"; "BREAK"; "IMPORT"]%string.

(** [Token.matches] *)
Definition matches (t : token) (ty : tok_type) (v : string) : bool :=
  tok_type_eqb (ttype t) ty &&
  match tvalue t with TVStr s => String.eqb s v | _ => false end.

(** ** Character classes of the constants module *)

(** Modelled from the spec: the constants module (not in src/) supplies
    the character classes; the spec names digits, letters, the number
    syntax (digits, one dot, an [eE] exponent) and [\xHH] hex escapes. *)
Definition in_range (lo hi : ascii) (c : ascii) : bool :=
  (Nat.leb (nat_of_ascii lo) (nat_of_ascii c) &&
   Nat.leb (nat_of_ascii c) (nat_of_ascii hi))%bool.

Definition is_DIGIT (c : ascii) : bool := in_range "0" "9" c.
Definition is_LETTER (c : ascii) : bool :=
  (in_range "a" "z" c || in_range "A" "Z" c)%bool.
Definition is_NUMBER_CHAR (c : ascii) : bool :=
  (is_DIGIT c || Ascii.eqb c "." || Ascii.eqb c "e" || Ascii.eqb c "E")%bool.
Definition is_HEX_CHAR (c : ascii) : bool :=
  (is_DIGIT c || in_range "a" "f" c || in_range "A" "F" c)%bool.

(** Modelled from the spec: [c.ESCAPE_CHARACTERS] (the spec only says that
    [\] escapes a character); [\n] and [\t] are mapped, any other escaped
    character stands for itself, as [dict.get(ch, ch)] does. *)
Definition ESCAPE_CHARACTERS (c : ascii) : ascii :=
  if Ascii.eqb c "n" then "010"%char
  else if Ascii.eqb c "t" then "009"%char
  else c.

Definition hex_digit_value (c : ascii) : nat :=
  let n := nat_of_ascii c in
  if is_DIGIT c then n - 48
  else if in_range "a" "f" c then n - 87
  else n - 55.

(** ** Lexer *)

Module Lexer.

Inductive lexres (A : Type) :=
| LOk (a : A)
| LErr (e : error)
| LCrash (msg : string).   (* an uncaught host exception *)
Arguments LOk {A} a.
Arguments LErr {A} e.
Arguments LCrash {A} msg.

(** The cursor: the characters from [self.pos.theindex] on, and that index. *)
Definition cursor : Type := (list ascii * nat)%type.

Fixpoint digits_value (acc : Z) (l : list ascii) : Z :=
  match l with
  | [] => acc
  | c :: l' =>
      if is_DIGIT c then digits_value (acc * 10 + Z.of_nat (nat_of_ascii c - 48)) l'
      else digits_value acc l'
  end.

(** The digits after the dot, if any. *)
Fixpoint after_dot (l : list ascii) : list ascii :=
  match l with
  | [] => []
  | c :: l' => if Ascii.eqb c "." then l' else after_dot l'
  end.

(** Decimal value of [digits] or [digits.digits] (the text of [num_str]). *)
Definition decimal_value (num_str : list ascii) : Q :=
  digits_value 0 num_str # Z.to_pos (10 ^ Z.of_nat (length (after_dot num_str))).

Definition OVERFLOW_BOUND : Q := (2 ^ 1024 - 2 ^ 970) # 1.
Definition UNDERFLOW_BOUND : Q := 1 # Z.to_pos (2 ^ 1075).

(** [float(text)] for a non-negative decimal value: rounding to nearest
    gives infinity from [OVERFLOW_BOUND] on and zero up to [UNDERFLOW_BOUND];
    in between the model keeps the exact decimal value. *)
Definition to_double (q : Q) : pynum :=
  if Qle_bool OVERFLOW_BOUND q then PInf
  else if Qle_bool q UNDERFLOW_BOUND then PFloat 0
  else PFloat q.

(** [math.log10(x) >= 308] and [math.log10(x) <= -308] on a positive x,
    decided on the exact value: the rounding of [float(x)] and of
    [math.log10] near the bounds is not modelled. *)
Definition log10_ge_308 (q : Q) : bool := Qle_bool ((10 ^ 308) # 1) q.
Definition log10_le_m308 (q : Q) : bool := Qle_bool q (1 # Z.to_pos (10 ^ 308)).

(** CPython refuses [int(s)] for strings of more than 4300 digits. *)
Definition INT_MAX_STR_DIGITS : nat := 4300.

(** [Lexer.make_exponent_number], after the [e] has been consumed. *)
Definition exponent_sign (cs : cursor) : list ascii * cursor :=
  match cs with
  | (c :: cs', i) =>
      if (Ascii.eqb c "+" || Ascii.eqb c "-")%bool then ([c], (cs', S i))
      else ([], cs)
  | ([], i) => ([], cs)
  end.

Fixpoint digit_run (cs : list ascii) (i : nat) : list ascii * cursor :=
  match cs with
  | c :: cs' =>
      if is_DIGIT c then let '(ds, cur) := digit_run cs' (S i) in (c :: ds, cur)
      else ([], (cs, i))
  | [] => ([], ([], i))
  end.

Definition make_exponent_number (cs : cursor) (num_str : list ascii)
    (pos_start : nat) : lexres (token * cursor) :=
  let '(sign_str, cs1) := exponent_sign cs in
  let '(exponent_str, cs2) := digit_run (fst cs1) (snd cs1) in
  match exponent_str with
  | [] => LErr (LexSyntaxError pos_start "exponent_error")   (* ValueError *)
  | _ :: _ =>
      let e := digits_value 0 exponent_str in
      let e := if (match sign_str with [c] => Ascii.eqb c "-" | _ => false end)
               then - e else e in
      let m := decimal_value num_str in
      let v := if 0 <=? e then Qmult m ((10 ^ e) # 1)
               else Qmult m (1 # Z.to_pos (10 ^ (- e))) in
      match to_double v with
      | PInf => LErr (LexSyntaxError pos_start "exponent_overflow")
      | PFloat q =>
          if Qeq_bool q 0 then
            (* [thenumber != 0] is false: [thelog10] is never bound and
               [elif thelog10 <= -308] raises UnboundLocalError *)
            LCrash "UnboundLocalError: thelog10"
          else if log10_ge_308 q then LErr (LexSyntaxError pos_start "exponent_overflow")
          else if log10_le_m308 q then LErr (LexSyntaxError pos_start "exponent_underflow")
          else LOk (mk_token TT_FLOAT (TVNum (PFloat q)), cs2)
      | PInt _ => LCrash "unreachable"
      end
  end.

(** The conversion at the end of [Lexer.make_number]. *)
Definition convert_number (num_str : list ascii) (dot_count : nat)
    (pos_start : nat) (cs : cursor) : lexres (token * cursor) :=
  if Nat.eqb dot_count 0 then
    if Nat.ltb INT_MAX_STR_DIGITS (length num_str) then
      LErr (LexSyntaxError pos_start "number_conversion_error")
    else
      let z := digits_value 0 num_str in
      if z =? 0 then LOk (mk_token TT_INT (TVNum (PInt z)), cs)
      (* [math.isinf] on an int beyond the double range raises OverflowError *)
      else if Qle_bool OVERFLOW_BOUND (z # 1) then
        LErr (LexSyntaxError pos_start "number_overflow")
      (* [(False or math.log10(z)) >= 308] *)
      else if log10_ge_308 (z # 1) then
        LErr (LexSyntaxError pos_start "number_overflow")
      else LOk (mk_token TT_INT (TVNum (PInt z)), cs)
  else
    match to_double (decimal_value num_str) with
    | PInf =>
        (* [(math.isinf(x) or ...) >= 308] is [True >= 308], i.e. False *)
        LOk (mk_token TT_FLOAT (TVNum PInf), cs)
    | PFloat q =>
        if Qeq_bool q 0 then LOk (mk_token TT_FLOAT (TVNum (PFloat q)), cs)
        else if log10_ge_308 q then LErr (LexSyntaxError pos_start "number_overflow")
        else LOk (mk_token TT_FLOAT (TVNum (PFloat q)), cs)
    | PInt _ => LCrash "unreachable"
    end.

(** [Lexer.make_number]: the [while] loop over [c.NUMBER_CHARS]. *)
Fixpoint number_loop (cs : list ascii) (i : nat) (num_str : list ascii)
    (dot_count : nat) (pos_start : nat) : lexres (token * cursor) :=
  match cs with
  | c :: cs' =>
      if is_NUMBER_CHAR c then
        if Ascii.eqb c "." then
          if Nat.eqb dot_count 1 then convert_number num_str dot_count pos_start (cs, i)
          else number_loop cs' (S i) (num_str ++ [c]) (S dot_count) pos_start
        else if (Ascii.eqb c "e" || Ascii.eqb c "E")%bool then
          make_exponent_number (cs', S i) num_str pos_start
        else number_loop cs' (S i) (num_str ++ [c]) dot_count pos_start
      else convert_number num_str dot_count pos_start (cs, i)
  | [] => convert_number num_str dot_count pos_start ([], i)
  end.

Definition make_number (cs : cursor) : lexres (token * cursor) :=
  number_loop (fst cs) (snd cs) [] 0 (snd cs).

(** [Lexer.make_identifier] *)
Fixpoint ident_run (cs : list ascii) (i : nat) : list ascii * cursor :=
  match cs with
  | c :: cs' =>
      if (is_LETTER c || is_DIGIT c || Ascii.eqb c "_")%bool then
        let '(ds, cur) := ident_run cs' (S i) in (c :: ds, cur)
      else ([], (cs, i))
  | [] => ([], ([], i))
  end.

Definition make_identifier (cs : cursor) : token * cursor :=
  let '(id_chars, cs') := ident_run (fst cs) (snd cs) in
  let id_str := string_of_list_ascii id_chars in
  let tok_type := if existsb (String.eqb id_str) KEYWORDS then TT_KEYWORD
                  else TT_IDENTIFIER in
  (mk_token tok_type (TVStr id_str), cs').

(** [Lexer.make_string], after the opening quote; [esc] is
    [escape_character_flag]; the escape [\xHH] is [handle_hex_value]. *)
Fixpoint string_loop (cs : list ascii) (i : nat) (acc : list ascii)
    (esc : bool) (pos_start : nat) : lexres (token * cursor) :=
  match cs with
  | [] => LErr (LexSyntaxError pos_start "unterminated_string")
  | c :: cs' =>
      if (negb esc && Ascii.eqb c "034"%char)%bool then
        (* advance past the closing quote *)
        LOk (mk_token TT_STRING (TVStr (string_of_list_ascii acc)), (cs', S i))
      else if (esc && Ascii.eqb c "x")%bool then
        match cs' with
        | [] => LErr (LexSyntaxError pos_start "unterminated_string")
        | h1 :: cs2 =>
            if negb (is_HEX_CHAR h1) then LErr (LexSyntaxError pos_start "illegal_hex_char")
            else match cs2 with
                 | [] => LErr (LexSyntaxError pos_start "unterminated_string")
                 | h2 :: cs3 =>
                     if negb (is_HEX_CHAR h2) then
                       LErr (LexSyntaxError pos_start "illegal_hex_char")
                     else
                       string_loop cs3 (S (S (S i)))
                         (acc ++ [ascii_of_nat (hex_digit_value h1 * 16 + hex_digit_value h2)])
                         false pos_start
                 end
        end
      else if esc then string_loop cs' (S i) (acc ++ [ESCAPE_CHARACTERS c]) false pos_start
      else if Ascii.eqb c "\" then string_loop cs' (S i) acc true pos_start
      else string_loop cs' (S i) (acc ++ [c]) false pos_start
  end.

Definition make_string (cs : cursor) : lexres (token * cursor) :=
  string_loop (tl (fst cs)) (S (snd cs)) [] false (snd cs).

(** [Lexer.skip_comment]: the [while True] loop; the result is the cursor
    after the final [self.advance()]. *)
Fixpoint comment_loop (multi : bool) (cs : list ascii) (i : nat) : lexres cursor :=
  match cs with
  | [] =>
      if multi then LErr (LexSyntaxError i "unterminated_ML_comment")
      else LOk ([], S i)
  | c :: cs' =>
      if (Ascii.eqb c "*" && multi)%bool then
        match cs' with
        | c2 :: cs2 => if Ascii.eqb c2 "#" then LOk (cs2, S (S i))
                       else comment_loop multi cs' (S i)
        | [] => comment_loop multi cs' (S i)
        end
      else if (negb multi && Ascii.eqb c "010")%bool then LOk (cs', S i)
      else comment_loop multi cs' (S i)
  end.

Definition skip_comment (cs : cursor) : lexres cursor :=
  let cs' := tl (fst cs) in
  let multi := match cs' with c :: _ => Ascii.eqb c "*" | [] => false end in
  comment_loop multi cs' (S (snd cs)).

(** The two-character operators: [->], [!=], [==], [<=], [>=]. *)
Definition two_char (second : ascii) (one two : tok_type) (cs : cursor)
    : token * cursor :=
  match fst cs with
  | _ :: c :: cs' => if Ascii.eqb c second then (tok two, (cs', S (S (snd cs))))
                     else (tok one, (c :: cs', S (snd cs)))
  | _ => (tok one, ([], S (snd cs)))
  end.

Definition make_not_equals (cs : cursor) : lexres (token * cursor) :=
  match fst cs with
  | _ :: c :: cs' =>
      if Ascii.eqb c "=" then LOk (tok TT_NOT_EQUAL_TO, (cs', S (S (snd cs))))
      else LErr (ExpectedCharError (snd cs) "'=' (after '!')")
  | _ => LErr (ExpectedCharError (snd cs) "'=' (after '!')")
  end.

Definition single_char_token (c : ascii) : option tok_type :=
  if Ascii.eqb c "+" then Some TT_PLUS
  else if Ascii.eqb c "*" then Some TT_MULTIPLY
  else if Ascii.eqb c "/" then Some TT_DIVIDE
  else if Ascii.eqb c "%" then Some TT_MODULUS
  else if Ascii.eqb c "^" then Some TT_POWER
  else if Ascii.eqb c "(" then Some TT_LPAREN
  else if Ascii.eqb c ")" then Some TT_RPAREN
  else if Ascii.eqb c "[" then Some TT_LSQUARE
  else if Ascii.eqb c "]" then Some TT_RSQUARE
  else if Ascii.eqb c "," then Some TT_COMMA
  else None.

(** [Lexer.make_tokens]; every round consumes at least one character, so
    [length text + 1] rounds suffice. *)
Fixpoint make_tokens_loop (fuel : nat) (cs : cursor) (tokens : list token)
    : lexres (list token) :=
  match fuel with
  | O => LCrash "lexer fuel"
  | S fuel' =>
  match fst cs with
  | [] => LOk (tokens ++ [tok TT_EOF])
  | c :: rest =>
      if (Ascii.eqb c " " || Ascii.eqb c "009")%bool then
        make_tokens_loop fuel' (rest, S (snd cs)) tokens
      else if Ascii.eqb c "#" then
        match skip_comment cs with
        | LOk cs' => make_tokens_loop fuel' cs' tokens
        | LErr e => LErr e
        | LCrash m => LCrash m
        end
      else if (Ascii.eqb c ";" || Ascii.eqb c "010")%bool then
        make_tokens_loop fuel' (rest, S (snd cs)) (tokens ++ [tok TT_NEWLINE])
      else if is_DIGIT c then
        match make_number cs with
        | LOk (t, cs') => make_tokens_loop fuel' cs' (tokens ++ [t])
        | LErr e => LErr e
        | LCrash m => LCrash m
        end
      else if is_LETTER c then
        let '(t, cs') := make_identifier cs in make_tokens_loop fuel' cs' (tokens ++ [t])
      else if Ascii.eqb c "034"%char then
        match make_string cs with
        | LOk (t, cs') => make_tokens_loop fuel' cs' (tokens ++ [t])
        | LErr e => LErr e
        | LCrash m => LCrash m
        end
      else if Ascii.eqb c "-" then
        let '(t, cs') := two_char ">" TT_MINUS TT_ARROW cs in
        make_tokens_loop fuel' cs' (tokens ++ [t])
      else if Ascii.eqb c "!" then
        match make_not_equals cs with
        | LOk (t, cs') => make_tokens_loop fuel' cs' (tokens ++ [t])
        | LErr e => LErr e
        | LCrash m => LCrash m
        end
      else if Ascii.eqb c "=" then
        let '(t, cs') := two_char "=" TT_ASSIGN TT_EQUAL_TO cs in
        make_tokens_loop fuel' cs' (tokens ++ [t])
      else if Ascii.eqb c "<" then
        let '(t, cs') := two_char "=" TT_LESS_THAN TT_LESS_THAN_EQUAL_TO cs in
        make_tokens_loop fuel' cs' (tokens ++ [t])
      else if Ascii.eqb c ">" then
        let '(t, cs') := two_char "=" TT_GREATER_THAN TT_GREATER_THAN_EQUAL_TO cs in
        make_tokens_loop fuel' cs' (tokens ++ [t])
      else match single_char_token c with
           | Some ty => make_tokens_loop fuel' (rest, S (snd cs)) (tokens ++ [tok ty])
           | None => LErr (IllegalCharError (snd cs) c)
           end
  end
  end.

Definition make_tokens (text : string) : lexres (list token) :=
  let cs := list_ascii_of_string text in
  make_tokens_loop (S (length cs)) (cs, 0%nat) [].

End Lexer.
(** ** AST nodes (spans dropped) *)

Inductive node :=
| NumberNode (n : pynum)
| StringNode (s : string)
| ListNode (element_nodes : list node)
| VarAccessNode (var_name : string)
| VarAssignNode (var_name : string) (value_node : node)
| BinOpNode (left_node : node) (operator_token : token) (right_node : node)
| UnaryOpNode (operator_token : token) (n : node)
| IfNode (cases : list (node * node * bool)) (else_case : option (node * bool))
| ForNode (var_name : string) (start_value_node end_value_node : node)
    (step_value_node : option node) (body_node : node) (should_return_none : bool)
| WhileNode (condition_node body_node : node) (should_return_none : bool)
| FuncDefNode (var_name : option string) (arg_names : list string)
    (body_node : node) (should_auto_return : bool)
| CallNode (node_to_call : node) (arg_nodes : list node)
| ReturnNode (node_to_return : option node)
| ContinueNode
| BreakNode
| ImportNode (string_node : node).

(** ** ParseResult *)

Record ParseResult (A : Type) := mk_pr {
  pr_error : option error;
  pr_node : option A;
  last_registered_advance_count : nat;
  advance_count : nat;
  to_reverse_count : nat
}.
Arguments mk_pr {A}.
Arguments pr_error {A}.
Arguments pr_node {A}.
Arguments last_registered_advance_count {A}.
Arguments advance_count {A}.
Arguments to_reverse_count {A}.

Definition new_pr {A} : ParseResult A := mk_pr None None 0 0 0.

Definition register_advancement {A} (r : ParseResult A) : ParseResult A :=
  mk_pr (pr_error r) (pr_node r) 1 (S (advance_count r)) (to_reverse_count r).

(** [register] returns the updated result and [result.node]. *)
Definition register {A B} (r : ParseResult A) (child : ParseResult B)
    : ParseResult A * option B :=
  (mk_pr (match pr_error child with Some e => Some e | None => pr_error r end)
         (pr_node r) (advance_count child) (advance_count r + advance_count child)
         (to_reverse_count r),
   pr_node child).

Definition try_register {A B} (r : ParseResult A) (child : ParseResult B)
    : ParseResult A * option B :=
  match pr_error child with
  | Some _ => (mk_pr (pr_error r) (pr_node r) (last_registered_advance_count r)
                     (advance_count r) (advance_count child), None)
  | None => register r child
  end.

Definition success {A B} (r : ParseResult A) (n : B) : ParseResult B :=
  mk_pr (pr_error r) (Some n) (last_registered_advance_count r)
        (advance_count r) (to_reverse_count r).

(** An error is recorded unless an earlier one is kept because the last
    registered sub-parse advanced ([failure]). *)
Definition failure {A} (r : ParseResult A) (e : error) : ParseResult A :=
  match pr_error r with
  | Some _ =>
      if Nat.eqb (last_registered_advance_count r) 0
      then mk_pr (Some e) (pr_node r) 0 (advance_count r) (to_reverse_count r)
      else r
  | None => mk_pr (Some e) (pr_node r) (last_registered_advance_count r)
              (advance_count r) (to_reverse_count r)
  end.

(** The same Python object returned where the caller expects another
    payload; it only travels with an error, whose node nobody reads. *)
Definition retype {A B} (r : ParseResult A) : ParseResult B :=
  mk_pr (pr_error r) None (last_registered_advance_count r)
        (advance_count r) (to_reverse_count r).

(** ** Parser *)

Module Parser.

Record pstate := mk_ps { tokens : list token; token_index : Z; current_token : token }.

Definition update_current_tok (tokens : list token) (i : Z) (cur : token) : token :=
  if (0 <=? i) && (i <? Z.of_nat (length tokens)) then
    nth (Z.to_nat i) tokens cur
  else cur.

Definition advance (ps : pstate) : pstate :=
  let i := token_index ps + 1 in
  mk_ps (tokens ps) i (update_current_tok (tokens ps) i (current_token ps)).

Definition reverse (ps : pstate) (amount : nat) : pstate :=
  let i := token_index ps - Z.of_nat amount in
  mk_ps (tokens ps) i (update_current_tok (tokens ps) i (current_token ps)).

Definition init (toks : list token) : pstate :=
  mk_ps toks 0 (nth 0 toks (tok TT_EOF)).

Definition cur_type (ps : pstate) : tok_type := ttype (current_token ps).
Definition is_type (ps : pstate) (t : tok_type) : bool := tok_type_eqb (cur_type ps) t.
Definition is_kw (ps : pstate) (kw : string) : bool := matches (current_token ps) TT_KEYWORD kw.

(** [InvalidSyntaxError(current_token.pos_start, ...)] *)
Definition syntax_error (ps : pstate) (key : string) : error :=
  InvalidSyntaxError (token_index ps) key.

Inductive pout (A : Type) :=
| PDone (a : A) (ps : pstate)
| PCrash (msg : string)       (* an uncaught host exception *)
| PNoFuel.
Arguments PDone {A} a ps.
Arguments PCrash {A} msg.
Arguments PNoFuel {A}.

Definition pbind {A B} (m : pout A) (k : A -> pstate -> pout B) : pout B :=
  match m with
  | PDone a ps => k a ps
  | PCrash msg => PCrash msg
  | PNoFuel => PNoFuel
  end.

Notation "'let!' x '@' p ':=' m 'in' k" := (pbind m (fun x p => k))
  (at level 200, x name, p name, m at level 100, k at level 200).

(** [while current_token is NEWLINE: register_advancement; advance],
    also counting the newlines. *)
Fixpoint skip_newlines {A} (n : nat) (r : ParseResult A) (ps : pstate) (count : nat)
    : ParseResult A * pstate * nat :=
  match n with
  | O => (r, ps, count)
  | S n' =>
      if is_type ps TT_NEWLINE then
        skip_newlines n' (register_advancement r) (advance ps) (S count)
      else (r, ps, count)
  end.

Definition skip_nl {A} (r : ParseResult A) (ps : pstate) : ParseResult A * pstate * nat :=
  skip_newlines (S (length (tokens ps))) r ps 0.

Definition tok_name (t : token) : string :=
  match tvalue t with TVStr s => s | _ => EmptyString end.

Definition tok_num (t : token) : option pynum :=
  match tvalue t with TVNum n => Some n | _ => None end.

Definition parse_continue (in_a_loop : bool) (result : ParseResult node) (ps : pstate)
    : pout (ParseResult node) :=
  let result := register_advancement result in
  let ps := advance ps in
  if negb in_a_loop then PDone (failure result (syntax_error ps "bad_continue")) ps
  else PDone (success result ContinueNode) ps.

Definition parse_break (in_a_loop : bool) (result : ParseResult node) (ps : pstate)
    : pout (ParseResult node) :=
  let result := register_advancement result in
  let ps := advance ps in
  if negb in_a_loop then PDone (failure result (syntax_error ps "bad_break")) ps
  else PDone (success result BreakNode) ps.

(** The sub-parsers handed to [bin_op] as [func_a]/[func_b]. *)
Inductive subparser := SP_comp_expr | SP_arith_expr | SP_term | SP_factor | SP_call.

Definition and_or_ops (t : token) : bool :=
  (matches t TT_KEYWORD "AND" || matches t TT_KEYWORD "OR")%bool.
Definition comparison_ops (t : token) : bool :=
  existsb (tok_type_eqb (ttype t))
    [TT_EQUAL_TO; TT_NOT_EQUAL_TO; TT_LESS_THAN; TT_GREATER_THAN;
     TT_LESS_THAN_EQUAL_TO; TT_GREATER_THAN_EQUAL_TO].
Definition plus_minus_ops (t : token) : bool :=
  existsb (tok_type_eqb (ttype t)) [TT_PLUS; TT_MINUS].
Definition mul_div_ops (t : token) : bool :=
  existsb (tok_type_eqb (ttype t)) [TT_MULTIPLY; TT_DIVIDE; TT_MODULUS].
Definition power_ops (t : token) : bool := tok_type_eqb (ttype t) TT_POWER.

Definition if_cases : Type := (list (node * node * bool) * option (node * bool))%type.

(** The three shapes of the tuple [parse_params_and_arrow] returns. *)
Inductive params_out :=
| PA_Error (error : ParseResult node)            (* (None, None, [], error) *)
| PA_Arrow (parsed_arrow : ParseResult node)      (* (parsed_arrow, result, _, None) *)
| PA_NotArrow (result : ParseResult node) (params : list string).
                                                  (* (None, result, params, None) *)

(** [duplicate_function_name]: [Some error] when the function name is
    among the parameter names. *)
Definition duplicate_function_name (function_name : string) (names_list : list string)
    (result : ParseResult node) (ps : pstate) : option (ParseResult node) :=
  if existsb (String.eqb function_name) names_list then
    Some (failure result (syntax_error ps "duplicate_parameter_function_name"))
  else None.

Definition with_node {A B} (o : option A) (k : A -> pout B) : pout B :=
  match o with Some a => k a | None => PCrash "unreachable: None node" end.

Inductive multiline_else_out :=
| MLE_Bare (result : ParseResult (option (node * bool)))
    (* [return result]: a bare ParseResult where a pair is expected *)
| MLE_Error (error : ParseResult (option (node * bool)))        (* (None, error) *)
| MLE_Ok (else_case : node * bool) (result : ParseResult (option (node * bool))).

Inductive multiline_then_out :=
| MLT_Error (error : ParseResult if_cases)                      (* (None, None, result) *)
| MLT_Ok (cases : list (node * node * bool)) (else_case : option (node * bool))
    (result : ParseResult if_cases).

Definition expected_keyword (kw : string) : string :=
  String.append "Expected '" (String.append kw "'").

Fixpoint statements (fuel : nat) (in_a_function in_a_loop : bool) (ps : pstate)
    {struct fuel} : pout (ParseResult node) :=
  match fuel with O => PNoFuel | S f =>
  let '(result, ps, _) := skip_nl (@new_pr node) ps in
  let! st @ ps := statement f in_a_function in_a_loop ps in
  let '(result, ostatement) := register result st in
  match pr_error result with
  | Some _ => PDone result ps
  | None =>
      with_node ostatement (fun statement0 =>
      let! out @ ps := parse_any_additional_statements f in_a_function in_a_loop
                         [statement0] result ps in
      let '(stmts, result) := out in
      PDone (success result (ListNode stmts)) ps)
  end
  end

with statement (fuel : nat) (in_a_function in_a_loop : bool) (ps : pstate)
    {struct fuel} : pout (ParseResult node) :=
  match fuel with O => PNoFuel | S f =>
  let result := @new_pr node in
  if is_kw ps "RETURN" then parse_return f in_a_function in_a_loop result ps
  else if is_kw ps "CONTINUE" then parse_continue in_a_loop result ps
  else if is_kw ps "BREAK" then parse_break in_a_loop result ps
  else if is_kw ps "IMPORT" then parse_import f in_a_function in_a_loop result ps
  else
    let! e @ ps := expr f in_a_function in_a_loop ps in
    let '(result, oexpression) := register result e in
    match pr_error result with
    | Some _ => PDone (failure result (syntax_error ps "statement_syntax_error")) ps
    | None => with_node oexpression (fun x => PDone (success result x) ps)
    end
  end

with parse_any_additional_statements (fuel : nat) (in_a_function in_a_loop : bool)
    (statements : list node) (result : ParseResult node) (ps : pstate)
    {struct fuel} : pout (list node * ParseResult node) :=
  match fuel with O => PNoFuel | S f =>
  let fix loop (n : nat) (more_statements : bool) (statements : list node)
      (result : ParseResult node) (ps : pstate) : pout (list node * ParseResult node) :=
    match n with
    | O => PNoFuel
    | S n' =>
        let '(result, ps, newline_count) := skip_nl result ps in
        let more_statements := if Nat.eqb newline_count 0 then false else more_statements in
        if negb more_statements then PDone (statements, result) ps
        else
          let! st @ ps := statement f in_a_function in_a_loop ps in
          let '(result, ostatement) := try_register result st in
          match ostatement with
          | None => loop n' false statements result (reverse ps (to_reverse_count result))
          | Some statement0 => loop n' more_statements (statements ++ [statement0]) result ps
          end
    end in
  loop (S (S (length (tokens ps)))) true statements result ps
  end

with parse_return (fuel : nat) (in_a_function in_a_loop : bool)
    (result : ParseResult node) (ps : pstate) {struct fuel} : pout (ParseResult node) :=
  match fuel with O => PNoFuel | S f =>
  let result := register_advancement result in
  let ps := advance ps in
  if negb in_a_function then PDone (failure result (syntax_error ps "bad_return")) ps
  else
    let! e @ ps := expr f in_a_function in_a_loop ps in
    let '(result, oexpression) := try_register result e in
    let ps := match oexpression with
              | None => reverse ps (to_reverse_count result)
              | Some _ => ps
              end in
    PDone (success result (ReturnNode oexpression)) ps
  end

with parse_import (fuel : nat) (in_a_function in_a_loop : bool)
    (result : ParseResult node) (ps : pstate) {struct fuel} : pout (ParseResult node) :=
  match fuel with O => PNoFuel | S f =>
  let result := register_advancement result in
  let ps := advance ps in
  if negb (is_type ps TT_STRING) then
    PDone (failure result (syntax_error ps "string_expected")) ps
  else
    let! a @ ps := atom f in_a_function in_a_loop ps in
    let '(result, ostring) := register result a in
    with_node ostring (fun s => PDone (success result (ImportNode s)) ps)
  end

with expr (fuel : nat) (in_a_function in_a_loop : bool) (ps : pstate)
    {struct fuel} : pout (ParseResult node) :=
  match fuel with O => PNoFuel | S f =>
  let result := @new_pr node in
  if is_kw ps "VAR" then parse_variable_assignment f in_a_function in_a_loop result ps
  else
    let! b @ ps := bin_op f in_a_function in_a_loop SP_comp_expr and_or_ops SP_comp_expr ps in
    let '(result, onode) := register result b in
    match pr_error result with
    | Some _ => PDone (failure result (syntax_error ps "expr_syntax_error")) ps
    | None => with_node onode (fun n => PDone (success result n) ps)
    end
  end

with parse_variable_assignment (fuel : nat) (in_a_function in_a_loop : bool)
    (result : ParseResult node) (ps : pstate) {struct fuel} : pout (ParseResult node) :=
  match fuel with O => PNoFuel | S f =>
  let result := register_advancement result in
  let ps := advance ps in
  if negb (is_type ps TT_IDENTIFIER) then
    PDone (failure result (syntax_error ps "identifier_expected")) ps
  else
    let var_name := tok_name (current_token ps) in
    let result := register_advancement result in
    let ps := advance ps in
    if negb (is_type ps TT_ASSIGN) then
      PDone (failure result (syntax_error ps "equal_expected")) ps
    else
      let result := register_advancement result in
      let ps := advance ps in
      let! e @ ps := expr f in_a_function in_a_loop ps in
      let '(result, oexpression) := register result e in
      match pr_error result with
      | Some _ => PDone result ps
      | None => with_node oexpression (fun x =>
                  PDone (success result (VarAssignNode var_name x)) ps)
      end
  end

with comp_expr (fuel : nat) (in_a_function in_a_loop : bool) (ps : pstate)
    {struct fuel} : pout (ParseResult node) :=
  match fuel with O => PNoFuel | S f =>
  let result := @new_pr node in
  if is_kw ps "NOT" then
    let operator_token := current_token ps in
    let result := register_advancement result in
    let ps := advance ps in
    let! c @ ps := comp_expr f in_a_function in_a_loop ps in
    let '(result, onode) := register result c in
    match pr_error result with
    | Some _ => PDone result ps
    | None => with_node onode (fun n => PDone (success result (UnaryOpNode operator_token n)) ps)
    end
  else
    let! b @ ps := bin_op f in_a_function in_a_loop SP_arith_expr comparison_ops SP_arith_expr ps in
    let '(result, onode) := register result b in
    match pr_error result with
    | Some _ => PDone (failure result (syntax_error ps "comp_syntax_error")) ps
    | None => with_node onode (fun n => PDone (success result n) ps)
    end
  end

with arith_expr (fuel : nat) (in_a_function in_a_loop : bool) (ps : pstate)
    {struct fuel} : pout (ParseResult node) :=
  match fuel with O => PNoFuel | S f =>
    bin_op f in_a_function in_a_loop SP_term plus_minus_ops SP_term ps
  end

with term (fuel : nat) (in_a_function in_a_loop : bool) (ps : pstate)
    {struct fuel} : pout (ParseResult node) :=
  match fuel with O => PNoFuel | S f =>
    bin_op f in_a_function in_a_loop SP_factor mul_div_ops SP_factor ps
  end

with factor (fuel : nat) (in_a_function in_a_loop : bool) (ps : pstate)
    {struct fuel} : pout (ParseResult node) :=
  match fuel with O => PNoFuel | S f =>
  let result := @new_pr node in
  let token := current_token ps in
  if plus_minus_ops token then
    let result := register_advancement result in
    let ps := advance ps in
    let! x @ ps := factor f in_a_function in_a_loop ps in
    let '(result, ofactor) := register result x in
    match pr_error result with
    | Some _ => PDone result ps
    | None => with_node ofactor (fun n => PDone (success result (UnaryOpNode token n)) ps)
    end
  else power f in_a_function in_a_loop ps
  end

with power (fuel : nat) (in_a_function in_a_loop : bool) (ps : pstate)
    {struct fuel} : pout (ParseResult node) :=
  match fuel with O => PNoFuel | S f =>
    bin_op f in_a_function in_a_loop SP_call power_ops SP_factor ps
  end

with call (fuel : nat) (in_a_function in_a_loop : bool) (ps : pstate)
    {struct fuel} : pout (ParseResult node) :=
  match fuel with O => PNoFuel | S f =>
  let result := @new_pr node in
  let! a @ ps := atom f in_a_function in_a_loop ps in
  let '(result, oatom) := register result a in
  match pr_error result with
  | Some _ => PDone result ps
  | None =>
    with_node oatom (fun atom0 =>
    if negb (is_type ps TT_LPAREN) then PDone (success result atom0) ps
    else
      let result := register_advancement result in
      let ps := advance ps in
      if is_type ps TT_RPAREN then
        let result := register_advancement result in
        let ps := advance ps in
        PDone (success result (CallNode atom0 [])) ps
      else
        let! a1 @ ps := expr f in_a_function in_a_loop ps in
        let '(result, the_arg) := register result a1 in
        match pr_error result with
        | Some _ => PDone (failure result (syntax_error ps "arg1_syntax_error")) ps
        | None =>
          let fix more_args (n : nat) (arg_nodes : list node) (result : ParseResult node)
              (ps : pstate) : pout (ParseResult node) :=
            match n with
            | O => PNoFuel
            | S n' =>
              if is_type ps TT_COMMA then
                let result := register_advancement result in
                let ps := advance ps in
                let! a2 @ ps := expr f in_a_function in_a_loop ps in
                let '(result, the_arg) := register result a2 in
                match pr_error result with
                | Some _ => PDone result ps
                | None => with_node the_arg (fun arg => more_args n' (arg_nodes ++ [arg]) result ps)
                end
              else if negb (is_type ps TT_RPAREN) then
                PDone (failure result (syntax_error ps "comma_rparen_expected")) ps
              else
                let result := register_advancement result in
                let ps := advance ps in
                PDone (success result (CallNode atom0 arg_nodes)) ps
            end in
          with_node the_arg (fun arg => more_args (S (length (tokens ps))) [arg] result ps)
        end)
  end
  end

with atom (fuel : nat) (in_a_function in_a_loop : bool) (ps : pstate)
    {struct fuel} : pout (ParseResult node) :=
  match fuel with O => PNoFuel | S f =>
  let result := @new_pr node in
  let token := current_token ps in
  if (is_type ps TT_INT || is_type ps TT_FLOAT)%bool then
    let result := register_advancement result in
    let ps := advance ps in
    with_node (tok_num token) (fun n => PDone (success result (NumberNode n)) ps)
  else if is_type ps TT_STRING then
    let result := register_advancement result in
    let ps := advance ps in
    PDone (success result (StringNode (tok_name token))) ps
  else if is_type ps TT_IDENTIFIER then
    let result := register_advancement result in
    let ps := advance ps in
    PDone (success result (VarAccessNode (tok_name token))) ps
  else if is_type ps TT_LPAREN then
    let result := register_advancement result in
    let ps := advance ps in
    let! e @ ps := expr f in_a_function in_a_loop ps in
    let '(result, oexpr) := register result e in
    match pr_error result with
    | Some _ => PDone result ps
    | None =>
      with_node oexpr (fun e =>
      if is_type ps TT_RPAREN then
        let result := register_advancement result in
        let ps := advance ps in
        PDone (success result e) ps
      else PDone (failure result (syntax_error ps "rparen_expected")) ps)
    end
  else
    let sub := if is_type ps TT_LSQUARE then Some (list_expr f in_a_function in_a_loop ps)
      else if matches token TT_KEYWORD "IF" then Some (if_expr f in_a_function in_a_loop ps)
      else if matches token TT_KEYWORD "FOR" then Some (for_expr f in_a_function true ps)
      else if matches token TT_KEYWORD "WHILE" then Some (while_expr f in_a_function true ps)
      else if matches token TT_KEYWORD "FUN" then Some (func_def f true in_a_loop ps)
      else None in
    match sub with
    | None => PDone (failure result (syntax_error ps "atom_syntax_error")) ps
    | Some m =>
      let! x @ ps := m in
      let '(result, onode) := register result x in
      match pr_error result with
      | Some _ => PDone result ps
      | None => with_node onode (fun n => PDone (success result n) ps)
      end
    end
  end

with list_expr (fuel : nat) (in_a_function in_a_loop : bool) (ps : pstate)
    {struct fuel} : pout (ParseResult node) :=
  match fuel with O => PNoFuel | S f =>
  let result := @new_pr node in
  if negb (is_type ps TT_LSQUARE) then
    PDone (failure result (syntax_error ps "lbracket_expected")) ps
  else
    let result := register_advancement result in
    let ps := advance ps in
    if is_type ps TT_RSQUARE then
      let result := register_advancement result in
      let ps := advance ps in
      PDone (success result (ListNode [])) ps
    else
      let! e @ ps := expr f in_a_function in_a_loop ps in
      let '(result, expression) := register result e in
      match pr_error result with
      | Some _ => PDone (failure result (syntax_error ps "list_element_expected")) ps
      | None =>
        let fix more_elements (n : nat) (element_nodes : list node)
            (result : ParseResult node) (ps : pstate) : pout (ParseResult node) :=
          match n with
          | O => PNoFuel
          | S n' =>
            if is_type ps TT_COMMA then
              let result := register_advancement result in
              let ps := advance ps in
              let! e2 @ ps := expr f in_a_function in_a_loop ps in
              let '(result, expression) := register result e2 in
              match pr_error result with
              | Some _ => PDone result ps
              | None => with_node expression (fun x =>
                          more_elements n' (element_nodes ++ [x]) result ps)
              end
            else if negb (is_type ps TT_RSQUARE) then
              PDone (failure result (syntax_error ps "comma_rbracket_expected")) ps
            else
              let result := register_advancement result in
              let ps := advance ps in
              PDone (success result (ListNode element_nodes)) ps
          end in
        with_node expression (fun x => more_elements (S (length (tokens ps))) [x] result ps)
      end
  end

with if_expr (fuel : nat) (in_a_function in_a_loop : bool) (ps : pstate)
    {struct fuel} : pout (ParseResult node) :=
  match fuel with O => PNoFuel | S f =>
  let result := @new_pr node in
  let! c @ ps := if_expr_cases f "IF" in_a_function in_a_loop ps in
  let '(result, all_cases) := register result c in
  match pr_error result with
  | Some _ => PDone result ps
  | None => with_node all_cases (fun '(cases, else_case) =>
              PDone (success result (IfNode cases else_case)) ps)
  end
  end

with if_expr_b (fuel : nat) (in_a_function in_a_loop : bool) (ps : pstate)
    {struct fuel} : pout (ParseResult if_cases) :=
  match fuel with O => PNoFuel | S f =>
    if_expr_cases f "ELIF" in_a_function in_a_loop ps
  end

with if_expr_c (fuel : nat) (in_a_function in_a_loop : bool) (ps : pstate)
    {struct fuel} : pout (ParseResult (option (node * bool))) :=
  match fuel with O => PNoFuel | S f =>
  let result := @new_pr (option (node * bool)) in
  if is_kw ps "ELSE" then
    let result := register_advancement result in
    let ps := advance ps in
    if is_type ps TT_NEWLINE then
      let! mle @ ps := parse_multiline_else f in_a_function in_a_loop result ps in
      match mle with
      | MLE_Bare _ => PCrash "TypeError: cannot unpack non-iterable ParseResult object"
      | MLE_Error error => PDone error ps
      | MLE_Ok else_case result => PDone (success result (Some else_case)) ps
      end
    else
      let! st @ ps := statement f in_a_function in_a_loop ps in
      let '(result, oexpr) := register result st in
      match pr_error result with
      | Some _ => PDone result ps
      | None => with_node oexpr (fun e => PDone (success result (Some (e, false))) ps)
      end
  else PDone (success result None) ps
  end

with parse_multiline_else (fuel : nat) (in_a_function in_a_loop : bool)
    (result : ParseResult (option (node * bool))) (ps : pstate) {struct fuel}
    : pout multiline_else_out :=
  match fuel with O => PNoFuel | S f =>
  let result := register_advancement result in
  let ps := advance ps in
  let! st @ ps := statements f in_a_function in_a_loop ps in
  let '(result, ostatements) := register result st in
  match pr_error result with
  | Some _ => PDone (MLE_Bare result) ps
  | None =>
    with_node ostatements (fun stmts =>
    if is_kw ps "END" then
      let result := register_advancement result in
      let ps := advance ps in
      PDone (MLE_Ok (stmts, true) result) ps
    else PDone (MLE_Error (failure result (syntax_error ps "end_expected"))) ps)
  end
  end

with if_expr_b_or_c (fuel : nat) (in_a_function in_a_loop : bool) (ps : pstate)
    {struct fuel} : pout (ParseResult if_cases) :=
  match fuel with O => PNoFuel | S f =>
  let result := @new_pr if_cases in
  if is_kw ps "ELIF" then
    let! b @ ps := if_expr_b f in_a_function in_a_loop ps in
    let '(result, all_cases) := register result b in
    match pr_error result with
    | Some _ => PDone result ps
    | None => with_node all_cases (fun '(cases, else_case) =>
                PDone (success result (cases, else_case)) ps)
    end
  else
    let! c @ ps := if_expr_c f in_a_function in_a_loop ps in
    let '(result, oelse) := register result c in
    match pr_error result with
    | Some _ => PDone result ps
    | None => with_node oelse (fun else_case => PDone (success result ([], else_case)) ps)
    end
  end

with if_expr_cases (fuel : nat) (case_keyword : string) (in_a_function in_a_loop : bool)
    (ps : pstate) {struct fuel} : pout (ParseResult if_cases) :=
  match fuel with O => PNoFuel | S f =>
  let result := @new_pr if_cases in
  if negb (is_kw ps case_keyword) then
    PDone (failure result (syntax_error ps (expected_keyword case_keyword))) ps
  else
    let result := register_advancement result in
    let ps := advance ps in
    let! c @ ps := expr f in_a_function in_a_loop ps in
    let '(result, ocondition) := register result c in
    match pr_error result with
    | Some _ => PDone result ps
    | None =>
      with_node ocondition (fun condition =>
      if negb (is_kw ps "THEN") then
        PDone (failure result (syntax_error ps "then_expected")) ps
      else
        let result := register_advancement result in
        let ps := advance ps in
        if is_type ps TT_NEWLINE then
          let! mlt @ ps := parse_multiline_then f in_a_function in_a_loop condition result ps in
          match mlt with
          | MLT_Error error => PDone error ps
          | MLT_Ok cases else_case result => PDone (success result (cases, else_case)) ps
          end
        else
          let! st @ ps := statement f in_a_function in_a_loop ps in
          let '(result, oexpr) := register result st in
          match pr_error result with
          | Some _ => PDone result ps
          | None =>
            with_node oexpr (fun e =>
            let cases := [(condition, e, false)] in
            let! bc @ ps := if_expr_b_or_c f in_a_function in_a_loop ps in
            let '(result, all_cases) := register result bc in
            match pr_error result with
            | Some _ => PDone result ps
            | None => with_node all_cases (fun '(new_cases, else_case) =>
                        PDone (success result (cases ++ new_cases, else_case)) ps)
            end)
          end)
    end
  end

with parse_multiline_then (fuel : nat) (in_a_function in_a_loop : bool) (condition : node)
    (result : ParseResult if_cases) (ps : pstate) {struct fuel} : pout multiline_then_out :=
  match fuel with O => PNoFuel | S f =>
  let result := register_advancement result in
  let ps := advance ps in
  let! st @ ps := statements f in_a_function in_a_loop ps in
  let '(result, ostatements) := register result st in
  match pr_error result with
  | Some _ => PDone (MLT_Error result) ps
  | None =>
    with_node ostatements (fun stmts =>
    let cases := [(condition, stmts, true)] in
    if is_kw ps "END" then
      let result := register_advancement result in
      let ps := advance ps in
      PDone (MLT_Ok cases None result) ps
    else
      let! bc @ ps := if_expr_b_or_c f in_a_function in_a_loop ps in
      let '(result, all_cases) := register result bc in
      match pr_error result with
      | Some _ => PDone (MLT_Error result) ps
      | None => with_node all_cases (fun '(new_cases, else_case) =>
                  PDone (MLT_Ok (cases ++ new_cases) else_case result) ps)
      end)
  end
  end

with for_expr (fuel : nat) (in_a_function in_a_loop : bool) (ps : pstate)
    {struct fuel} : pout (ParseResult node) :=
  match fuel with O => PNoFuel | S f =>
  let result := @new_pr node in
  if negb (is_kw ps "FOR") then PDone (failure result (syntax_error ps "for_expected")) ps
  else
  let result := register_advancement result in
  let ps := advance ps in
  if negb (is_type ps TT_IDENTIFIER) then
    PDone (failure result (syntax_error ps "identifier_expected")) ps
  else
  let var_name := tok_name (current_token ps) in
  let result := register_advancement result in
  let ps := advance ps in
  if negb (is_type ps TT_ASSIGN) then
    PDone (failure result (syntax_error ps "equal_expected")) ps
  else
  let result := register_advancement result in
  let ps := advance ps in
  let! s @ ps := expr f in_a_function in_a_loop ps in
  let '(result, ostart) := register result s in
  match pr_error result with
  | Some _ => PDone result ps
  | None =>
    with_node ostart (fun start_value =>
    if negb (is_kw ps "TO") then PDone (failure result (syntax_error ps "to_expected")) ps
    else
    let result := register_advancement result in
    let ps := advance ps in
    let! e @ ps := expr f in_a_function in_a_loop ps in
    let '(result, oend) := register result e in
    match pr_error result with
    | Some _ => PDone result ps
    | None =>
      with_node oend (fun end_value =>
      if is_kw ps "STEP" then
        let result := register_advancement result in
        let ps := advance ps in
        let! st @ ps := expr f in_a_function in_a_loop ps in
        let '(result, ostep) := register result st in
        match pr_error result with
        | Some _ => PDone result ps
        | None => with_node ostep (fun step_value =>
                    for_expr_then f in_a_function in_a_loop var_name start_value end_value
                      (Some step_value) result ps)
        end
      else for_expr_then f in_a_function in_a_loop var_name start_value end_value
             None result ps)
    end)
  end
  end

(** The part of [for_expr] from [THEN] on. *)
with for_expr_then (fuel : nat) (in_a_function in_a_loop : bool) (var_name : string)
    (start_value end_value : node) (step_value : option node)
    (result : ParseResult node) (ps : pstate) {struct fuel} : pout (ParseResult node) :=
  match fuel with O => PNoFuel | S f =>
  if negb (is_kw ps "THEN") then PDone (failure result (syntax_error ps "then_expected")) ps
  else
  let result := register_advancement result in
  let ps := advance ps in
  if negb (is_type ps TT_NEWLINE) then
    let! b @ ps := statement f in_a_function in_a_loop ps in
    let '(result, obody) := register result b in
    match pr_error result with
    | Some _ => PDone result ps
    | None => with_node obody (fun body =>
        PDone (success result (ForNode var_name start_value end_value step_value body false)) ps)
    end
  else
    let result := register_advancement result in
    let ps := advance ps in
    let! b @ ps := statements f in_a_function in_a_loop ps in
    let '(result, obody) := register result b in
    match pr_error result with
    | Some _ => PDone result ps
    | None =>
      with_node obody (fun body =>
      if negb (is_kw ps "END") then PDone (failure result (syntax_error ps "end_expected")) ps
      else
        let result := register_advancement result in
        let ps := advance ps in
        PDone (success result (ForNode var_name start_value end_value step_value body true)) ps)
    end
  end

with while_expr (fuel : nat) (in_a_function in_a_loop : bool) (ps : pstate)
    {struct fuel} : pout (ParseResult node) :=
  match fuel with O => PNoFuel | S f =>
  let result := @new_pr node in
  if negb (is_kw ps "WHILE") then PDone (failure result (syntax_error ps "while_expected")) ps
  else
  let result := register_advancement result in
  let ps := advance ps in
  let! c @ ps := expr f in_a_function in_a_loop ps in
  let '(result, ocondition) := register result c in
  match pr_error result with
  | Some _ => PDone result ps
  | None =>
    with_node ocondition (fun condition =>
    if negb (is_kw ps "THEN") then PDone (failure result (syntax_error ps "then_expected")) ps
    else
    let result := register_advancement result in
    let ps := advance ps in
    if negb (is_type ps TT_NEWLINE) then
      let! b @ ps := statement f in_a_function in_a_loop ps in
      let '(result, obody) := register result b in
      match pr_error result with
      | Some _ => PDone result ps
      | None => with_node obody (fun body =>
                  PDone (success result (WhileNode condition body false)) ps)
      end
    else
      let result := register_advancement result in
      let ps := advance ps in
      let! b @ ps := statements f in_a_function in_a_loop ps in
      let '(result, obody) := register result b in
      match pr_error result with
      | Some _ => PDone result ps
      | None =>
        with_node obody (fun body =>
        if negb (is_kw ps "END") then PDone (failure result (syntax_error ps "end_expected")) ps
        else
          let result := register_advancement result in
          let ps := advance ps in
          PDone (success result (WhileNode condition body true)) ps)
      end)
  end
  end

with func_def (fuel : nat) (in_a_function in_a_loop : bool) (ps : pstate)
    {struct fuel} : pout (ParseResult node) :=
  match fuel with O => PNoFuel | S f =>
  let result := @new_pr node in
  if negb (is_kw ps "FUN") then PDone (failure result (syntax_error ps "fun_expected")) ps
  else
  let result := register_advancement result in
  let ps := advance ps in
  if is_type ps TT_IDENTIFIER then
    let var_name_token := Some (tok_name (current_token ps)) in
    let result := register_advancement result in
    let ps := advance ps in
    if negb (is_type ps TT_LPAREN) then
      PDone (failure result (syntax_error ps "lparen_expected")) ps
    else func_def_params f var_name_token result ps
  else if negb (is_type ps TT_LPAREN) then
    PDone (failure result (syntax_error ps "identifier_lparen_expected")) ps
  else func_def_params f None result ps
  end

(** The part of [func_def] from the opening parenthesis on. *)
with func_def_params (fuel : nat) (var_name_token : option string)
    (result : ParseResult node) (ps : pstate) {struct fuel} : pout (ParseResult node) :=
  match fuel with O => PNoFuel | S f =>
  let result := register_advancement result in
  let ps := advance ps in
  if negb (is_type ps TT_IDENTIFIER) && negb (is_type ps TT_RPAREN) then
    PDone (failure result (syntax_error ps "identifier_rparen_expected")) ps
  else
  let! pa @ ps := parse_params_and_arrow f result var_name_token [] ps in
  match pa with
  | PA_Error error => PDone error ps
  | PA_Arrow parsed_arrow => PDone parsed_arrow ps
  | PA_NotArrow result param_name_tokens =>
    if negb (is_type ps TT_NEWLINE) then
      PDone (failure result (syntax_error ps "arrow_NL_expected")) ps
    else
      let result := register_advancement result in
      let ps := advance ps in
      let! b @ ps := statements f true false ps in
      let '(result, obody) := register result b in
      match pr_error result with
      | Some _ => PDone result ps
      | None =>
        with_node obody (fun body =>
        if negb (is_kw ps "END") then PDone (failure result (syntax_error ps "end_expected")) ps
        else
          let result := register_advancement result in
          let ps := advance ps in
          PDone (success result (FuncDefNode var_name_token param_name_tokens body false)) ps)
      end
  end
  end

with parse_params_and_arrow (fuel : nat) (result : ParseResult node)
    (var_name_token : option string) (param_name_tokens : list string) (ps : pstate) {struct fuel}
    : pout params_out :=
  match fuel with O => PNoFuel | S f =>
  if is_type ps TT_RPAREN then checkfor_parse_arrow f result var_name_token param_name_tokens ps
  else
  match var_name_token with
  | None => PCrash "AttributeError: 'NoneType' object has no attribute 'value'"
  | Some function_name =>
    let param_name_tokens := param_name_tokens ++ [tok_name (current_token ps)] in
    let names_list := [tok_name (current_token ps)] in
    match duplicate_function_name function_name names_list result ps with
    | Some error => PDone (PA_Error error) ps
    | None =>
      let result := register_advancement result in
      let ps := advance ps in
      let fix more_params (n : nat) (param_name_tokens names_list : list string)
          (result : ParseResult node) (ps : pstate) : pout params_out :=
        match n with
        | O => PNoFuel
        | S n' =>
          if is_type ps TT_COMMA then
            let result := register_advancement result in
            let ps := advance ps in
            if negb (is_type ps TT_IDENTIFIER) then
              PDone (PA_Error (failure result (syntax_error ps "identifier_expected"))) ps
            else
            let v := tok_name (current_token ps) in
            if existsb (String.eqb v) names_list then
              PDone (PA_Error (failure result (syntax_error ps "duplicate_parameter"))) ps
            else
            let param_name_tokens := param_name_tokens ++ [v] in
            let names_list := names_list ++ [v] in
            match duplicate_function_name function_name names_list result ps with
            | Some error => PDone (PA_Error error) ps
            | None =>
              let result := register_advancement result in
              let ps := advance ps in
              more_params n' param_name_tokens names_list result ps
            end
          else if negb (is_type ps TT_RPAREN) then
            PDone (PA_Error (failure result (syntax_error ps "comma_rparen_expected"))) ps
          else checkfor_parse_arrow f result var_name_token param_name_tokens ps
        end in
      more_params (S (length (tokens ps))) param_name_tokens names_list result ps
    end
  end
  end

with checkfor_parse_arrow (fuel : nat) (result : ParseResult node)
    (var_name_token : option string) (param_name_tokens : list string) (ps : pstate) {struct fuel}
    : pout params_out :=
  match fuel with O => PNoFuel | S f =>
  let result := register_advancement result in
  let ps := advance ps in
  if negb (is_type ps TT_ARROW) then PDone (PA_NotArrow result param_name_tokens) ps
  else
    let result := register_advancement result in
    let ps := advance ps in
    let! b @ ps := expr f true false ps in
    let '(result, obody) := register result b in
    match pr_error result with
    | Some _ => PDone (PA_Error result) ps
    | None => with_node obody (fun body =>
        PDone (PA_Arrow (success result (FuncDefNode var_name_token param_name_tokens body true))) ps)
    end
  end

with bin_op (fuel : nat) (in_a_function in_a_loop : bool) (func_a : subparser)
    (ops : token -> bool) (func_b : subparser) (ps : pstate) {struct fuel} : pout (ParseResult node) :=
  match fuel with O => PNoFuel | S f =>
  let result := @new_pr node in
  let! l @ ps := sub f func_a in_a_function in_a_loop ps in
  let '(result, oleft) := register result l in
  match pr_error result with
  | Some _ => PDone result ps
  | None =>
    let fix loop (n : nat) (left : node) (result : ParseResult node) (ps : pstate)
        : pout (ParseResult node) :=
      match n with
      | O => PNoFuel
      | S n' =>
        if ops (current_token ps) then
          let operator_token := current_token ps in
          let result := register_advancement result in
          let ps := advance ps in
          let! r @ ps := sub f func_b in_a_function in_a_loop ps in
          let '(result, oright) := register result r in
          match pr_error result with
          | Some _ => PDone result ps
          | None => with_node oright (fun right =>
                      loop n' (BinOpNode left operator_token right) result ps)
          end
        else PDone (success result left) ps
      end in
    with_node oleft (fun left => loop (S (length (tokens ps))) left result ps)
  end
  end

(** Calling a sub-parser handed to [bin_op]. *)
with sub (fuel : nat) (sp : subparser) (in_a_function in_a_loop : bool) (ps : pstate)
    {struct fuel} : pout (ParseResult node) :=
  match fuel with O => PNoFuel | S f =>
  match sp with
  | SP_comp_expr => comp_expr f in_a_function in_a_loop ps
  | SP_arith_expr => arith_expr f in_a_function in_a_loop ps
  | SP_term => term f in_a_function in_a_loop ps
  | SP_factor => factor f in_a_function in_a_loop ps
  | SP_call => call f in_a_function in_a_loop ps
  end
  end.

(** [Parser.parse]: parse the statements, then insist on [EOF]. *)
Definition parse (fuel : nat) (toks : list token) : pout (ParseResult node) :=
  let ps := init toks in
  let! result @ ps := statements fuel false false ps in
  match pr_error result with
  | None =>
      if negb (is_type ps TT_EOF) then
        PDone (failure result (syntax_error ps "tokens_out_of_place")) ps
      else PDone result ps
  | Some _ => PDone result ps
  end.

(** The fuel [run] hands to [parse]: 64 nested parser calls per token.
    Running out of it gives [PNoFuel], an outcome the source never has. *)
Definition parse_fuel (toks : list token) : nat := 64 * S (length toks).

End Parser.

(** ** The interpreter: values, contexts, symbol tables *)

Module Interpreter.

(** A value of the interpreted language.  A [List] is a wrapper around a
    Python list object; the wrapper's position and context are dropped, and
    the list object itself lives in the heap [lists] of the state, so that
    [VList l] is a reference to the backing element sequence [l]. *)
Inductive value :=
| VNumber (n : pynum)
| VString (s : string)
| VList (elements : positive)
| VFunction (name : option string) (body_node : node) (arg_names : list string)
    (should_auto_return : bool) (context : option positive)
| VBuiltIn (name : string) (context : option positive).

Record SymbolTable := mk_symtab { symbols : gmap string value; parent : option positive }.

Record Context := mk_ctx {
  display_name : string;
  ctx_parent : option positive;
  symbol_table : option positive }.

(** The Python heap as far as the interpreter touches it: list objects,
    symbol tables and contexts (all addressed by the allocation counter
    [next]), the files [open] can read, and what [print] wrote. *)
Record state := mk_st {
  lists : gmap positive (list value);
  tables : gmap positive SymbolTable;
  contexts : gmap positive Context;
  next : positive;
  files : gmap string string;
  out : list value }.

Definition alloc_list (st : state) (elements : list value) : positive * state :=
  (next st, mk_st (<[next st := elements]> (lists st)) (tables st) (contexts st)
                  (Pos.succ (next st)) (files st) (out st)).

Definition set_list (st : state) (l : positive) (elements : list value) : state :=
  mk_st (<[l := elements]> (lists st)) (tables st) (contexts st) (next st) (files st) (out st).

Definition alloc_table (st : state) (t : SymbolTable) : positive * state :=
  (next st, mk_st (lists st) (<[next st := t]> (tables st)) (contexts st)
                  (Pos.succ (next st)) (files st) (out st)).

Definition alloc_context (st : state) (c : Context) : positive * state :=
  (next st, mk_st (lists st) (tables st) (<[next st := c]> (contexts st))
                  (Pos.succ (next st)) (files st) (out st)).

Definition write_out (st : state) (v : value) : state :=
  mk_st (lists st) (tables st) (contexts st) (next st) (files st) (out st ++ [v]).

(** [SymbolTable.get]: look the name up, then in the parent table.  A
    table's parent is always allocated before it, so the chain is at most
    [Pos.to_nat t] long. *)
Fixpoint table_get (n : nat) (tabs : gmap positive SymbolTable) (t : positive)
    (name : string) : option value :=
  match n with
  | O => None
  | S n' =>
      match tabs !! t with
      | None => None
      | Some tab =>
          match symbols tab !! name with
          | Some v => Some v
          | None => match parent tab with
                    | Some p => table_get n' tabs p name
                    | None => None
                    end
          end
      end
  end.

Definition get (st : state) (t : positive) (name : string) : option value :=
  table_get (Pos.to_nat t) (tables st) t name.

(** [SymbolTable.set]. *)
Definition set (st : state) (t : positive) (name : string) (v : value) : state :=
  match tables st !! t with
  | None => st
  | Some tab =>
      mk_st (lists st)
        (<[t := mk_symtab (<[name := v]> (symbols tab)) (parent tab)]> (tables st))
        (contexts st) (next st) (files st) (out st)
  end.

(** The symbol table of a context ([context.symbol_table]). *)
Definition ctx_table (st : state) (c : positive) : option positive :=
  match contexts st !! c with
  | Some cx => symbol_table cx
  | None => None
  end.

(** [Value.set_context] and its override [BaseFunction.set_context]: a
    function whose context is already set keeps it. *)
Definition set_context (v : value) (c : positive) : value :=
  match v with
  | VFunction name body args auto None => VFunction name body args auto (Some c)
  | VBuiltIn name None => VBuiltIn name (Some c)
  | _ => v
  end.

(** The context a value carries, where it is kept. *)
Definition value_context (v : value) : option positive :=
  match v with
  | VFunction _ _ _ _ c | VBuiltIn _ c => c
  | _ => None
  end.

(** [Value.is_true] and its overrides in [Number] and [String]. *)
Definition is_true (v : value) : bool :=
  match v with
  | VNumber (PInt z) => negb (z =? 0)
  | VNumber (PFloat q) => negb (Qeq_bool q 0)
  | VNumber PInf => true
  | VString s => negb (String.length s =? 0)%nat
  | _ => false
  end.

Definition none : value := VNumber (PInt 0).   (* Number.none *)
Definition false_ : value := VNumber (PInt 0).  (* Number.false *)
Definition true_ : value := VNumber (PInt 1).   (* Number.true *)
(** [math.pi] as the double it is: 884279719003555 / 2^48. *)
Definition math_PI : value := VNumber (PFloat (884279719003555 # 281474976710656)).

(** The module-level [global_symbol_table] is table 1. *)
Definition global_table : positive := 1.

Definition global_symbols : gmap string value :=
  list_to_map
    [("NONE", none); ("FALSE", false_); ("TRUE", true_); ("MATH_PI", math_PI);
     ("PRINT", VBuiltIn "print" None); ("PRINT_RET", VBuiltIn "print_ret" None);
     ("INPUT", VBuiltIn "input" None); ("INPUT_INT", VBuiltIn "input_int" None);
     ("CLEAR", VBuiltIn "clear" None); ("CLS", VBuiltIn "clear" None);
     ("IS_NUM", VBuiltIn "is_number" None); ("IS_STR", VBuiltIn "is_string" None);
     ("IS_LIST", VBuiltIn "is_list" None); ("IS_FUN", VBuiltIn "is_function" None);
     ("APPEND", VBuiltIn "append" None); ("POP", VBuiltIn "pop" None);
     ("EXTEND", VBuiltIn "extend" None); ("LEN", VBuiltIn "len" None);
     ("RUN", VBuiltIn "run" None)].

(** The process state when the module has been loaded. *)
Definition initial_state (files : gmap string string) : state :=
  mk_st ∅ {[ global_table := mk_symtab global_symbols None ]} ∅ 2 files [].

(** ** [RTResult] and the outcome of an evaluation step *)

(** The five shapes an [RTResult] takes after [success], [failure],
    [success_return], [success_continue] and [success_break]. *)
Inductive RTResult :=
| ROk (v : value)
| RErr (e : error)
| RRet (v : value)
| RCont
| RBrk.

(** [RTResult.should_return]. *)
Definition should_return (r : RTResult) : bool :=
  match r with ROk _ => false | _ => true end.

(** The value and error fields of an [RTResult]. *)
Definition rt_value (r : RTResult) : option value :=
  match r with ROk v => Some v | _ => None end.
Definition rt_error (r : RTResult) : option error :=
  match r with RErr e => Some e | _ => None end.

Inductive outcome (A : Type) :=
| Done (a : A) (st : state)
| Crash (msg : string)             (* an uncaught Python exception *)
| Unmodelled (what : string)       (* terminal I/O, float rounding, str() *)
| NoFuel.
Arguments Done {A} a st.
Arguments Crash {A} msg.
Arguments Unmodelled {A} what.
Arguments NoFuel {A}.

Definition obind {A B} (m : outcome A) (k : A -> state -> outcome B) : outcome B :=
  match m with
  | Done a st => k a st
  | Crash msg => Crash msg
  | Unmodelled w => Unmodelled w
  | NoFuel => NoFuel
  end.

Notation "'let~' x '@' st ':=' m 'in' k" := (obind m (fun x st => k))
  (at level 200, x name, st name, m at level 100, k at level 200).

(** ** Number arithmetic *)

Definition to_Q (n : pynum) : Q :=
  match n with PInt z => inject_Z z | PFloat q => q | PInf => 0%Q end.

(** [int(x)] of a Python number: truncation toward zero. *)
Definition py_int (n : pynum) : option Z :=
  match n with
  | PInt z => Some z
  | PFloat q => Some (Z.quot (Qnum q) (Zpos (Qden q)))
  | PInf => None
  end.

Definition is_zero (n : pynum) : bool :=
  match n with PInt z => z =? 0 | PFloat q => Qeq_bool q 0 | PInf => false end.

(** The result of one of [Number]'s operator methods. *)
Inductive calc :=
| CalcOk (n : pynum)
| CalcErr (key : string)
| CalcCrash (msg : string)
| CalcUnmodelled (what : string).

(** [+], [-], [*]: int with int stays int, otherwise float. *)
Definition arith (zop : Z -> Z -> Z) (qop : Q -> Q -> Q) (a b : pynum) : calc :=
  match a, b with
  | PInt x, PInt y => CalcOk (PInt (zop x y))
  | PInf, _ | _, PInf => CalcUnmodelled "arithmetic on float('inf')"
  | _, _ => CalcOk (PFloat (qop (to_Q a) (to_Q b)))
  end.

Definition num_divided_by (a b : pynum) : calc :=
  if is_zero b then CalcErr "division_by_zero"
  else match a, b with
       | PInf, _ | _, PInf => CalcUnmodelled "arithmetic on float('inf')"
       | _, _ => CalcOk (PFloat (to_Q a / to_Q b))
       end.

Definition num_modulused_by (a b : pynum) : calc :=
  if is_zero b then CalcErr "modulus_by_zero"
  else match a, b with
       | PInt x, PInt y => CalcOk (PInt (Z.modulo x y))
       | PInf, _ | _, PInf => CalcUnmodelled "arithmetic on float('inf')"
       | _, _ =>
           let q := to_Q a in let r := to_Q b in
           CalcOk (PFloat (q - inject_Z (Qfloor (q / r)) * r))
       end.

Definition num_powered_by (a b : pynum) : calc :=
  match a, b with
  | PInt x, PInt y =>
      if 0 <=? y then CalcOk (PInt (x ^ y))
      else if x =? 0 then CalcCrash "ZeroDivisionError: 0.0 cannot be raised to a negative power"
      else CalcOk (PFloat (/ inject_Z (x ^ (- y))))
  | _, _ => CalcUnmodelled "float power"
  end.

Definition comparison (cmp : Q -> Q -> bool) (a b : pynum) : calc :=
  match a, b with
  | PInf, _ | _, PInf => CalcUnmodelled "comparison with float('inf')"
  | _, _ => CalcOk (PInt (if cmp (to_Q a) (to_Q b) then 1 else 0))
  end.

Definition int_of (n : pynum) : calc :=
  match py_int n with
  | Some z => CalcOk (PInt z)
  | None => CalcCrash "OverflowError: cannot convert float infinity to integer"
  end.

(** [int(a and b)] and [int(a or b)]. *)
Definition num_anded_by (a b : pynum) : calc := if is_zero a then int_of a else int_of b.
Definition num_ored_by (a b : pynum) : calc := if is_zero a then int_of b else int_of a.

Definition num_notted (a : pynum) : pynum := PInt (if is_zero a then 1 else 0).

(** ** Operator methods on values *)

Inductive method :=
| added_to | subtracted_by | multiplied_by | divided_by | modulused_by | powered_by
| get_comparison_eq | get_comparison_ne | get_comparison_lt | get_comparison_gt
| get_comparison_lte | get_comparison_gte | anded_by | ored_by.

Definition number_method (m : method) (a b : pynum) : calc :=
  match m with
  | added_to => arith Z.add Qplus a b
  | subtracted_by => arith Z.sub Qminus a b
  | multiplied_by => arith Z.mul Qmult a b
  | divided_by => num_divided_by a b
  | modulused_by => num_modulused_by a b
  | powered_by => num_powered_by a b
  | get_comparison_eq => comparison Qeq_bool a b
  | get_comparison_ne => comparison (fun x y => negb (Qeq_bool x y)) a b
  | get_comparison_lt => comparison (fun x y => negb (Qle_bool y x)) a b
  | get_comparison_gt => comparison (fun x y => negb (Qle_bool x y)) a b
  | get_comparison_lte => comparison Qle_bool a b
  | get_comparison_gte => comparison (fun x y => Qle_bool y x) a b
  | anded_by => num_anded_by a b
  | ored_by => num_ored_by a b
  end.

Inductive op_out := OpOk (v : value) | OpErr (e : error).

(** [Value.illegal_operation]. *)
Definition illegal_operation (self : value) : op_out :=
  OpErr (RTError "Illegal operation" (value_context self)).

(** Python's index normalisation for [list.pop(i)] and [list[i]]. *)
Definition py_index (len : nat) (i : Z) : option nat :=
  let j := if i <? 0 then i + Z.of_nat len else i in
  if (0 <=? j) && (j <? Z.of_nat len) then Some (Z.to_nat j) else None.

Definition remove_nth {A} (n : nat) (l : list A) : list A := firstn n l ++ skipn (S n) l.

(** [List.subtracted_by]: [pop] on the shared backing list. *)
Definition list_subtracted_by (l : positive) (self : value) (i : pynum) (st : state)
    : outcome op_out :=
  match lists st !! l with
  | None => Crash "unreachable: dangling list"
  | Some elements =>
      match i with
      | PInt z =>
          match py_index (length elements) z with
          | Some k => Done (OpOk self) (set_list st l (remove_nth k elements))
          | None => Done (OpErr (RTError "list_index_error" None)) st
          end
      | _ => Crash "TypeError: 'float' object cannot be interpreted as an integer"
      end
  end.

(** [List.divided_by]: [self.elements[i]]. *)
Definition list_divided_by (l : positive) (i : pynum) (st : state) : outcome op_out :=
  match lists st !! l with
  | None => Crash "unreachable: dangling list"
  | Some elements =>
      match i with
      | PInt z =>
          match py_index (length elements) z with
          | Some k => match nth_error elements k with
                      | Some v => Done (OpOk v) st
                      | None => Crash "unreachable: index"
                      end
          | None => Done (OpErr (RTError "fetch_index_error" None)) st
          end
      | _ => Crash "TypeError: list indices must be integers or slices, not float"
      end
  end.

(** Dispatch of [left.<method>(right)]: [Number], [String] and [List]
    override some methods of [Value]; every method [Value] does not see
    overridden reports an illegal operation.  [String] defines
    [multplied_by], which overrides nothing. *)
Definition call_method (m : method) (self other : value) (st : state) : outcome op_out :=
  match self with
  | VNumber a =>
      match other with
      | VNumber b =>
          match number_method m a b with
          | CalcOk n => Done (OpOk (VNumber n)) st
          | CalcErr key => Done (OpErr (RTError key None)) st
          | CalcCrash msg => Crash msg
          | CalcUnmodelled w => Unmodelled w
          end
      | _ => Done (illegal_operation self) st
      end
  | VString s =>
      match m, other with
      | added_to, VString s' => Done (OpOk (VString (String.append s s'))) st
      | _, _ => Done (illegal_operation self) st
      end
  | VList l =>
      match m, other with
      | added_to, _ =>
          match lists st !! l with
          | Some elements => Done (OpOk self) (set_list st l (elements ++ [other]))
          | None => Crash "unreachable: dangling list"
          end
      | subtracted_by, VNumber i => list_subtracted_by l self i st
      | multiplied_by, VList l' =>
          match lists st !! l, lists st !! l' with
          | Some elements, Some elements' =>
              Done (OpOk self) (set_list st l (elements ++ elements'))
          | _, _ => Crash "unreachable: dangling list"
          end
      | divided_by, VNumber i => list_divided_by l i st
      | _, _ => Done (illegal_operation self) st
      end
  | _ => Done (illegal_operation self) st
  end.

(** [visit_BinOpNode]'s choice of method by operator token. *)
Definition method_of (op : token) : option method :=
  match ttype op with
  | TT_PLUS => Some added_to
  | TT_MINUS => Some subtracted_by
  | TT_MULTIPLY => Some multiplied_by
  | TT_DIVIDE => Some divided_by
  | TT_MODULUS => Some modulused_by
  | TT_POWER => Some powered_by
  | TT_EQUAL_TO => Some get_comparison_eq
  | TT_NOT_EQUAL_TO => Some get_comparison_ne
  | TT_LESS_THAN => Some get_comparison_lt
  | TT_GREATER_THAN => Some get_comparison_gt
  | TT_LESS_THAN_EQUAL_TO => Some get_comparison_lte
  | TT_GREATER_THAN_EQUAL_TO => Some get_comparison_gte
  | _ => if matches op TT_KEYWORD "AND" then Some anded_by
         else if matches op TT_KEYWORD "OR" then Some ored_by
         else None
  end.

(** [visit_UnaryOpNode]: [-x] is [x.multiplied_by(Number(-1))], [NOT x]
    is [x.notted()], any other operator leaves [x] as it is. *)
Definition unary_op (op : token) (v : value) (st : state) : outcome op_out :=
  if tok_type_eqb (ttype op) TT_MINUS then call_method multiplied_by v (VNumber (PInt (-1))) st
  else if matches op TT_KEYWORD "NOT" then
    match v with
    | VNumber a => Done (OpOk (VNumber (num_notted a))) st
    | _ => Done (illegal_operation v) st
    end
  else Done (OpOk v) st.

(** ** Functions *)

(** [BaseFunction.generate_new_context]: a context named after the
    function whose parent is the function's context, with a fresh symbol
    table whose parent is that context's table. *)
Definition generate_new_context (name : string) (context : option positive) (st : state)
    : outcome positive :=
  match context with
  | None => Crash "AttributeError: 'NoneType' object has no attribute 'symbol_table'"
  | Some pc =>
      let '(new_context, st) := alloc_context st (mk_ctx name (Some pc) None) in
      let '(t, st) := alloc_table st (mk_symtab ∅ (ctx_table st pc)) in
      Done new_context
        (mk_st (lists st) (tables st)
           (<[new_context := mk_ctx name (Some pc) (Some t)]> (contexts st))
           (next st) (files st) (out st))
  end.

(** [BaseFunction.check_params]. *)
Definition check_params (self : value) (param_names : list string) (args : list value)
    : option error :=
  if (length param_names <? length args)%nat then Some (RTError "too_many_args" (value_context self))
  else if (length args <? length param_names)%nat then Some (RTError "too_few_args" (value_context self))
  else None.

(** [BaseFunction.populate_params]: each argument is stamped with the
    execution context ([set_context]) and bound in its table. *)
Fixpoint populate_params (param_names : list string) (args : list value)
    (execution_context : positive) (st : state) : state :=
  match param_names, args with
  | p :: ps, a :: as_ =>
      let st := match ctx_table st execution_context with
                | Some t => set st t p (set_context a execution_context)
                | None => st
                end in
      populate_params ps as_ execution_context st
  | _, _ => st
  end.

(** [BaseFunction.check_and_populate_params]. *)
Definition check_and_populate_params (self : value) (param_names : list string)
    (args : list value) (execution_context : positive) (st : state) : RTResult * state :=
  match check_params self param_names args with
  | Some e => (RErr e, st)
  | None => (ROk none, populate_params param_names args execution_context st)
  end.

(** The [arg_names] attribute of each [BuiltInFunction.execute_<name>]. *)
Definition builtin_arg_names (name : string) : option (list string) :=
  match name with
  | "print" | "print_ret" => Some ["value"]
  | "input" | "input_int" | "clear" => Some []
  | "is_number" | "is_string" | "is_list" | "is_function" => Some ["value"]
  | "append" => Some ["list"; "value"]
  | "pop" => Some ["list"; "index"]
  | "extend" => Some ["listA"; "listB"]
  | "len" => Some ["list"]
  | "run" => Some ["filename"]
  | _ => None
  end%string.

Definition bool_value (b : bool) : value := if b then true_ else false_.

(** The [execute_<name>] methods other than [execute_run], run in the
    execution context [ec]. *)
Definition execute_builtin (name : string) (ec : positive) (st : state) : outcome RTResult :=
  let lookup (x : string) := match ctx_table st ec with Some t => get st t x | None => None end in
  let fail (key : string) := Done (RErr (RTError key (Some ec))) st in
  match name with
  | "print" =>
      match lookup "value" with
      | Some v => Done (ROk none) (write_out st v)
      | None => Crash "unreachable: parameter not bound"
      end
  | "print_ret" => Unmodelled "str() of a value"
  | "input" | "input_int" => Unmodelled "input()"
  | "clear" => Unmodelled "os.system"
  | "is_number" =>
      Done (ROk (bool_value (match lookup "value" with Some (VNumber _) => true | _ => false end))) st
  | "is_string" =>
      Done (ROk (bool_value (match lookup "value" with Some (VString _) => true | _ => false end))) st
  | "is_list" =>
      Done (ROk (bool_value (match lookup "value" with Some (VList _) => true | _ => false end))) st
  | "is_function" =>
      Done (ROk (bool_value (match lookup "value" with
                             | Some (VFunction _ _ _ _ _) | Some (VBuiltIn _ _) => true
                             | _ => false end))) st
  | "append" =>
      match lookup "list", lookup "value" with
      | Some (VList l), Some v =>
          match lists st !! l with
          | Some elements => Done (ROk none) (set_list st l (elements ++ [v]))
          | None => Crash "unreachable: dangling list"
          end
      | Some (VList _), None => Crash "unreachable: parameter not bound"
      | _, _ => fail "arg1_list_expected"
      end
  | "pop" =>
      match lookup "list", lookup "index" with
      | Some (VList l), Some (VNumber i) =>
          match lists st !! l with
          | None => Crash "unreachable: dangling list"
          | Some elements =>
              match i with
              | PInt z =>
                  match py_index (length elements) z with
                  | Some k =>
                      match nth_error elements k with
                      | Some element => Done (ROk element) (set_list st l (remove_nth k elements))
                      | None => Crash "unreachable: index"
                      end
                  | None => fail "list_index_error"
                  end
              | _ => Crash "TypeError: 'float' object cannot be interpreted as an integer"
              end
          end
      | Some (VList _), _ => fail "arg2_number_expected"
      | _, _ => fail "arg1_list_expected"
      end
  | "extend" =>
      match lookup "listA", lookup "listB" with
      | Some (VList a), Some (VList b) =>
          match lists st !! a, lists st !! b with
          | Some ea, Some eb => Done (ROk none) (set_list st a (ea ++ eb))
          | _, _ => Crash "unreachable: dangling list"
          end
      | Some (VList _), _ => fail "arg2_list_expected"
      | _, _ => fail "arg1_list_expected"
      end
  | "len" =>
      match lookup "list" with
      | Some (VList l) =>
          match lists st !! l with
          | Some elements => Done (ROk (VNumber (PInt (Z.of_nat (length elements))))) st
          | None => Crash "unreachable: dangling list"
          end
      | _ => fail "arg_list_expected"
      end
  | _ => Crash "Exception: No execute method defined"
  end%string.

(** ** The evaluator *)

(** What [run] hands back: the lexer's or parser's error, or the
    interpreter's [RTResult]. *)
Inductive run_out :=
| RunError (e : error)
| RunResult (r : RTResult).

(** [filepath.split("/")[-1]]. *)
Fixpoint last_component_aux (cs acc : list ascii) : list ascii :=
  match cs with
  | [] => acc
  | c :: cs' => if Ascii.eqb c "/" then last_component_aux cs' [] else last_component_aux cs' (acc ++ [c])
  end.
Definition last_component (path : string) : string :=
  string_of_list_ascii (last_component_aux (list_ascii_of_string path) []).

Definition not_defined (var_name : string) : string :=
  String.append "'" (String.append var_name "' is not defined").

(** [start_value.value] and the like in [visit_ForNode]: only a [Number]
    has a numeric [value]. *)
Definition for_value (v : value) (st : state) : outcome pynum :=
  match v with
  | VNumber PInf => Unmodelled "FOR over float('inf')"
  | VNumber n => Done n st
  | VString _ => Unmodelled "FOR over strings"
  | _ => Crash "AttributeError: object has no attribute 'value'"
  end.

Definition num_add (a b : pynum) : pynum :=
  match a, b with
  | PInt x, PInt y => PInt (x + y)
  | _, _ => PFloat (to_Q a + to_Q b)
  end.

Definition num_lt (a b : pynum) : bool := negb (Qle_bool (to_Q b) (to_Q a)).

(** The condition of [visit_ForNode]'s loop. *)
Definition for_condition (i end_ step : pynum) : bool :=
  if Qle_bool 0 (to_Q step) then num_lt i end_ else num_lt end_ i.

(** The value of a finished FOR or WHILE: [Number.none] for the
    statement form, a new List of the collected values otherwise. *)
Definition loop_value (should_return_none : bool) (elements : list value) (st : state)
    : outcome RTResult :=
  if should_return_none then Done (ROk none) st
  else let '(l, st) := alloc_list st elements in Done (ROk (VList l)) st.

(** The [while] loop of [visit_ForNode]; [eval_body] is
    [self.visit(node.body_node, context)], [k] bounds the rounds. *)
Fixpoint for_loop (eval_body : state -> outcome RTResult) (context : positive)
    (var_name : string) (end_ step : pynum) (should_return_none : bool)
    (k : nat) (i : pynum) (elements : list value) (st : state) : outcome RTResult :=
  match k with
  | O => NoFuel
  | S k' =>
    if negb (for_condition i end_ step) then
      loop_value should_return_none elements st
    else
      match ctx_table st context with
      | None => Crash "AttributeError: 'NoneType' object has no attribute 'set'"
      | Some t =>
        let st := set st t var_name (VNumber i) in
        let i := num_add i step in
        let~ r @ st := eval_body st in
        match r with
        | ROk v => for_loop eval_body context var_name end_ step should_return_none
                     k' i (elements ++ [v]) st
        | RCont => for_loop eval_body context var_name end_ step should_return_none
                     k' i elements st
        | RBrk => loop_value should_return_none elements st
        | _ => Done r st
        end
      end
  end.

(** The [while True] loop of [visit_WhileNode]. *)
Fixpoint while_loop (eval_condition eval_body : state -> outcome RTResult)
    (should_return_none : bool) (k : nat) (elements : list value) (st : state)
    : outcome RTResult :=
  match k with
  | O => NoFuel
  | S k' =>
    let~ cr @ st := eval_condition st in
    match cr with
    | ROk condition =>
      if negb (is_true condition) then loop_value should_return_none elements st
      else
        let~ r @ st := eval_body st in
        match r with
        | ROk v => while_loop eval_condition eval_body should_return_none k' (elements ++ [v]) st
        | RCont => while_loop eval_condition eval_body should_return_none k' elements st
        | RBrk => loop_value should_return_none elements st
        | _ => Done r st
        end
    | _ => Done cr st
    end
  end.

Fixpoint visit (fuel : nat) (n : node) (context : positive) (st : state) {struct fuel}
    : outcome RTResult :=
  match fuel with O => NoFuel | S f =>
  match n with
  | NumberNode x => Done (ROk (VNumber x)) st
  | StringNode s => Done (ROk (VString s)) st
  | ListNode element_nodes =>
      let fix elements_loop (ns : list node) (elements : list value) (st : state)
          : outcome RTResult :=
        match ns with
        | [] => let '(l, st) := alloc_list st elements in Done (ROk (VList l)) st
        | element_node :: ns' =>
            let~ r @ st := visit f element_node context st in
            match r with
            | ROk v => elements_loop ns' (elements ++ [v]) st
            | _ => Done r st
            end
        end in
      elements_loop element_nodes [] st
  | VarAccessNode var_name =>
      match ctx_table st context with
      | None => Crash "AttributeError: 'NoneType' object has no attribute 'get'"
      | Some t =>
          match get st t var_name with
          | None => Done (RErr (RTError (not_defined var_name) (Some context))) st
          | Some v => Done (ROk (set_context v context)) st
          end
      end
  | VarAssignNode var_name value_node =>
      let~ r @ st := visit f value_node context st in
      match r with
      | ROk v =>
          match ctx_table st context with
          | None => Crash "AttributeError: 'NoneType' object has no attribute 'set'"
          | Some t => Done (ROk v) (set st t var_name v)
          end
      | _ => Done r st
      end
  | BinOpNode left_node operator_token right_node =>
      let~ lr @ st := visit f left_node context st in
      match lr with
      | ROk left_value =>
          let~ rr @ st := visit f right_node context st in
          match rr with
          | ROk right_value =>
              match method_of operator_token with
              | None => Crash "UnboundLocalError: calc_result"
              | Some m =>
                  let~ o @ st := call_method m left_value right_value st in
                  match o with
                  | OpOk v => Done (ROk v) st
                  | OpErr e => Done (RErr e) st
                  end
              end
          | _ => Done rr st
          end
      | _ => Done lr st
      end
  | UnaryOpNode operator_token x =>
      let~ r @ st := visit f x context st in
      match r with
      | ROk number =>
          let~ o @ st := unary_op operator_token number st in
          match o with
          | OpOk v => Done (ROk v) st
          | OpErr e => Done (RErr e) st
          end
      | _ => Done r st
      end
  | IfNode cases else_case =>
      let fix cases_loop (cs : list (node * node * bool)) (st : state) : outcome RTResult :=
        match cs with
        | [] =>
            match else_case with
            | Some (expr, should_return_none) =>
                let~ r @ st := visit f expr context st in
                match r with
                | ROk v => Done (ROk (if should_return_none then none else v)) st
                | _ => Done r st
                end
            | None => Done (ROk none) st
            end
        | (condition, expr, should_return_none) :: cs' =>
            let~ cr @ st := visit f condition context st in
            match cr with
            | ROk condition_value =>
                if is_true condition_value then
                  let~ r @ st := visit f expr context st in
                  match r with
                  | ROk v => Done (ROk (if should_return_none then none else v)) st
                  | _ => Done r st
                  end
                else cases_loop cs' st
            | _ => Done cr st
            end
        end in
      cases_loop cases st
  | ForNode var_name start_value_node end_value_node step_value_node body_node
      should_return_none =>
      let~ sr @ st := visit f start_value_node context st in
      match sr with
      | ROk start_value =>
        let~ er @ st := visit f end_value_node context st in
        match er with
        | ROk end_value =>
          let~ stepr @ st :=
            match step_value_node with
            | Some step_node => visit f step_node context st
            | None => Done (ROk (VNumber (PInt 1))) st
            end in
          match stepr with
          | ROk step_value =>
            let~ i @ st := for_value start_value st in
            let~ step @ st := for_value step_value st in
            let~ end_ @ st := for_value end_value st in
            for_loop (visit f body_node context) context var_name end_ step
              should_return_none f i [] st
          | _ => Done stepr st
          end
        | _ => Done er st
        end
      | _ => Done sr st
      end
  | WhileNode condition_node body_node should_return_none =>
      while_loop (visit f condition_node context) (visit f body_node context)
        should_return_none f [] st
  | FuncDefNode var_name arg_names body_node should_auto_return =>
      let func_value := VFunction var_name body_node arg_names should_auto_return (Some context) in
      match var_name with
      | Some func_name =>
          match ctx_table st context with
          | None => Crash "AttributeError: 'NoneType' object has no attribute 'set'"
          | Some t => Done (ROk func_value) (set st t func_name func_value)
          end
      | None => Done (ROk func_value) st
      end
  | CallNode node_to_call arg_nodes =>
      let~ r @ st := visit f node_to_call context st in
      match r with
      | ROk value_to_call =>
          let fix args_loop (ns : list node) (args : list value) (st : state)
              : outcome RTResult :=
            match ns with
            | [] =>
                let~ er @ st := execute f value_to_call args st in
                match er with
                | ROk return_value => Done (ROk (set_context return_value context)) st
                | _ => Done er st
                end
            | arg_node :: ns' =>
                let~ ar @ st := visit f arg_node context st in
                match ar with
                | ROk v => args_loop ns' (args ++ [v]) st
                | _ => Done ar st
                end
            end in
          args_loop arg_nodes [] st
      | _ => Done r st
      end
  | ReturnNode (Some node_to_return) =>
      let~ r @ st := visit f node_to_return context st in
      match r with
      | ROk v => Done (RRet v) st
      | _ => Done r st
      end
  | ReturnNode None => Done (RRet none) st
  | ContinueNode => Done RCont st
  | BreakNode => Done RBrk st
  | ImportNode string_node =>
      let~ r @ st := visit f string_node context st in
      match r with
      | ROk (VString filepath) =>
          match files st !! filepath with
          | None =>
              Done (RErr (RTError (String.append "Can't find file '"
                                  (String.append filepath "'")) (Some context))) st
          | Some code =>
              let filename := last_component filepath in
              let~ ro @ st := run_program f code (Some context) st in
              match ro with
              | RunError e =>
                  Done (RErr (RTErrorWrapped "Failed to IMPORT script" filename e (Some context))) st
              | RunResult run_result =>
                  match run_result with
                  | RErr e => Done (RErr e) st
                  | _ => Done (ROk none) st
                  end
              end
          end
      | _ => Crash "AttributeError: object has no attribute 'value'"
      end
  end
  end

(** [Function.execute], [BuiltInFunction.execute] and [Value.execute]. *)
with execute (fuel : nat) (self : value) (args : list value) (st : state) {struct fuel}
    : outcome RTResult :=
  match fuel with O => NoFuel | S f =>
  match self with
  | VFunction name body_node arg_names should_auto_return context =>
      let name := match name with Some nm => nm | None => "<anonymous>"%string end in
      let~ execution_context @ st := generate_new_context name context st in
      match check_and_populate_params self arg_names args execution_context st with
      | (RErr e, st) => Done (RErr e) st
      | (_, st) =>
          let~ r @ st := visit f body_node execution_context st in
          match r with
          | ROk thevalue => Done (ROk (if should_auto_return then thevalue else none)) st
          | RRet func_return_value => Done (ROk func_return_value) st
          | _ => Done r st
          end
      end
  | VBuiltIn name context =>
      let~ execution_context @ st := generate_new_context name context st in
      match builtin_arg_names name with
      | None => Crash "AttributeError: 'method' object has no attribute 'arg_names'"
      | Some arg_names =>
          match check_and_populate_params self arg_names args execution_context st with
          | (RErr e, st) => Done (RErr e) st
          | (_, st) =>
              let~ r @ st :=
                if String.eqb name "run" then execute_run f execution_context st
                else execute_builtin name execution_context st in
              Done r st
          end
      end
  | _ =>
      match illegal_operation self with
      | OpErr e => Done (RErr e) st
      | OpOk v => Done (ROk v) st
      end
  end
  end

(** [BuiltInFunction.execute_run]. *)
with execute_run (fuel : nat) (execution_context : positive) (st : state) {struct fuel}
    : outcome RTResult :=
  match fuel with O => NoFuel | S f =>
  let fname := match ctx_table st execution_context with
               | Some t => get st t "filename"
               | None => None
               end in
  match fname with
  | Some (VString filename) =>
      let st := write_out st (VString "WARNING: run() is deprecated. Use 'IMPORT' instead") in
      match files st !! filename with
      | None => Done (RErr (RTError "Failed to load script" (Some execution_context))) st
      | Some script =>
          let~ ro @ st := run_program f script None st in
          let error := match ro with
                       | RunError e => Some e
                       | RunResult r => rt_error r
                       end in
          match error with
          | Some e =>
              Done (RErr (RTErrorWrapped "Failed to finish executing script" filename e
                            (Some execution_context))) st
          | None => Done (ROk none) st
          end
      end
  | _ => Done (RErr (RTError "arg2_string_expected" (Some execution_context))) st
  end
  end

(** [run(filename, text, context, entry_pos, return_result=True)]: lex,
    parse, and evaluate in a new context named ["<program>"] whose table
    is the global table when there is no parent context and the parent's
    table otherwise. *)
with run_program (fuel : nat) (text : string) (parent_context : option positive) (st : state)
    {struct fuel} : outcome run_out :=
  match fuel with O => NoFuel | S f =>
  match Lexer.make_tokens text with
  | Lexer.LCrash msg => Crash msg
  | Lexer.LErr e => Done (RunError e) st
  | Lexer.LOk tokens =>
      match Parser.parse (Parser.parse_fuel tokens) tokens with
      | Parser.PCrash msg => Crash msg
      | Parser.PNoFuel => NoFuel
      | Parser.PDone ast _ =>
          match pr_error ast, pr_node ast with
          | Some e, _ => Done (RunError e) st
          | None, None => Crash "unreachable: no AST"
          | None, Some ast_node =>
              let table := match parent_context with
                           | None => Some global_table
                           | Some pc => ctx_table st pc
                           end in
              let '(context, st) := alloc_context st (mk_ctx "<program>" parent_context table) in
              let~ result @ st := visit f ast_node context st in
              Done (RunResult result) st
          end
      end
  end
  end.

(** [run(filename, text)] as the shell calls it: the pair
    [(result.value, result.error)], or [(None, error)] for a lexer or
    parser error. *)
Definition run (fuel : nat) (text : string) (st : state)
    : outcome (option value * option error) :=
  let~ ro @ st := run_program fuel text None st in
  match ro with
  | RunError e => Done (None, Some e) st
  | RunResult r => Done (rt_value r, rt_error r) st
  end.

End Interpreter.

(** ** Inputs and reference functions used by the properties below *)

Module Examples.

(** The tokens of ["1\n(2"]: a statement, a newline, then a parenthesised
    expression that is never closed. *)
Definition toks1 : list token :=
  [mk_token TT_INT (TVNum (PInt 1)); tok TT_NEWLINE; tok TT_LPAREN;
   mk_token TT_INT (TVNum (PInt 2)); tok TT_EOF].

(** A string of [n] zero digits. *)
Fixpoint zeros (n : nat) : string :=
  match n with O => EmptyString | S n' => String "0" (zeros n') end.

(** A decimal literal above the double range: 1 followed by 309 zeros,
    then [.0]. *)
Definition big_dotted_literal : string :=
  String.append "1" (String.append (zeros 309) ".0").

(** An anonymous function with parameters, as the [func_def] docstring
    writes it. *)
Definition anonymous_fun_text : string := "FUN (a, b) -> a + b".

(** A BREAK inside the header of a top-level WHILE. *)
Definition break_in_header_text : string := "WHILE IF 1 THEN BREAK THEN 1".

(** A file system holding one script whose evaluation breaks. *)
Definition breaking_files : gmap string string :=
  {[ "lib.myopl" := break_in_header_text ]}.

(** The state of a top-level program over [breaking_files]: its context
    ["<program>"] is context 2, on the global table. *)
Definition importer_state : Interpreter.state :=
  snd (Interpreter.alloc_context (Interpreter.initial_state breaking_files)
         (Interpreter.mk_ctx "<program>" None (Some Interpreter.global_table))).

(** The state of a top-level program with no files: its context
    ["<program>"] is context 2, on the global table. *)
Definition program_state : Interpreter.state :=
  snd (Interpreter.alloc_context (Interpreter.initial_state ∅)
         (Interpreter.mk_ctx "<program>" None (Some Interpreter.global_table))).

(** A file system holding a script that defines [x]. *)
Definition sharing_files : gmap string string := {[ "lib.myopl" := "VAR x = 5" ]}.

(** The state of a top-level program over [sharing_files] (context 2). *)
Definition sharing_state : Interpreter.state :=
  snd (Interpreter.alloc_context (Interpreter.initial_state sharing_files)
         (Interpreter.mk_ctx "<program>" None (Some Interpreter.global_table))).

(** [IMPORT "lib.myopl"; x]. *)
Definition import_then_read_text : string :=
  String.append "IMPORT "
    (String "034"%char (String.append "lib.myopl" (String "034"%char "; x"))).

(** The state after the top-level program [VAR a = [1]]: [a] is bound in
    the global table (1) to list 3, and context 2 is the program's. *)
Definition aliasing_state : Interpreter.state :=
  match Interpreter.run_program 100 "VAR a = [1]" None (Interpreter.initial_state ∅) with
  | Interpreter.Done _ st => st
  | _ => Interpreter.initial_state ∅
  end.


End Examples.

(** ** Helpers for the properties of the lexer, the parser and the interpreter *)

Module LexerDefs.
Import Lexer.

(** A token that is not the end-of-file marker. *)
Definition not_eof (t : token) : Prop := ttype t <> TT_EOF.

(** Whether ["*#"] occurs in a list of characters. *)
Fixpoint has_star_hash (l : list ascii) : bool :=
  match l with
  | c :: ((c2 :: _) as l') => (Ascii.eqb c "*" && Ascii.eqb c2 "#") || has_star_hash l'
  | _ => false
  end.

(** A character a string literal holds as it is: neither the quote nor
    the backslash. *)
Definition plain_char (c : ascii) : Prop := c <> "034"%char /\ c <> "\"%char.

End LexerDefs.

Module ParserDefs.
Import Parser.

(** The cursor invariant: the index is in range and the current token is
    the token at the index. *)
Definition placed (ps : pstate) : Prop :=
  0 <= token_index ps < Z.of_nat (length (tokens ps)) /\
  current_token ps = nth (Z.to_nat (token_index ps)) (tokens ps) (current_token ps).

(** The error a parse reports, if it finishes. *)
Definition parse_error (o : pout (ParseResult node)) : option error :=
  match o with PDone r _ => pr_error r | _ => None end.

(** A keyword token. *)
Definition kw (s : string) : token := mk_token TT_KEYWORD (TVStr s).

End ParserDefs.

Module InterpreterDefs.
Import Interpreter.

(** A program context (2) over the global table (1), and the same state
    with the List [[1, 2]] (3) allocated in it. *)
Definition facts_state : state :=
  snd (alloc_context (initial_state ∅) (mk_ctx "<program>" None (Some global_table))).
Definition list_state : state :=
  snd (alloc_list facts_state [VNumber (PInt 1); VNumber (PInt 2)]).
(** A program context over a file system holding a script that does not
    lex. *)
Definition bad_import_state : state :=
  snd (alloc_context (initial_state {[ "lib/bad.myopl" := "1 @ 2" ]})
         (mk_ctx "<program>" None (Some global_table))).

(** [a op b] on two integer literals. *)
Definition int_binop (f : nat) (x : Z) (op : tok_type) (y : Z) (c : positive) (st : state)
    : outcome RTResult :=
  visit (S (S f)) (BinOpNode (NumberNode (PInt x)) (tok op) (NumberNode (PInt y))) c st.

(** [Number.true] or [Number.false] as an integer. *)
Definition bool_int (b : bool) : pynum := PInt (if b then 1 else 0).

(** The kind of a value. *)
Definition is_list_value (v : value) : bool := match v with VList _ => true | _ => false end.
Definition is_number_value (v : value) : bool := match v with VNumber _ => true | _ => false end.

Definition is_callable (v : value) : bool :=
  match v with VFunction _ _ _ _ _ | VBuiltIn _ _ => true | _ => false end.

(** The nodes [ns] evaluated in turn from [st], each to a value. *)
Inductive visits_ok (f : nat) (context : positive)
    : list node -> state -> list value -> state -> Prop :=
| visits_ok_nil (st : state) : visits_ok f context [] st [] st
| visits_ok_cons (a : node) (ns : list node) (st st1 st2 : state) (v : value)
    (vs : list value) :
    visit f a context st = Done (ROk v) st1 ->
    visits_ok f context ns st1 vs st2 ->
    visits_ok f context (a :: ns) st (v :: vs) st2.

(** The conditions of the IF cases [cs] evaluated in turn from [st],
    each to a value that is not true. *)
Inductive conditions_false (f : nat) (context : positive)
    : list (node * node * bool) -> state -> state -> Prop :=
| conditions_false_nil (st : state) : conditions_false f context [] st st
| conditions_false_cons (c b : node) (srn : bool) (cs : list (node * node * bool))
    (st st1 st2 : state) (cv : value) :
    visit f c context st = Done (ROk cv) st1 ->
    is_true cv = false ->
    conditions_false f context cs st1 st2 ->
    conditions_false f context ((c, b, srn) :: cs) st st2.

End InterpreterDefs.

(** * Properties *)

Import Examples.

Lemma tok_type_eqb_true (a b : tok_type) : tok_type_eqb a b = true -> a = b.
Proof. destruct a, b; simpl; congruence. Qed.

Lemma is_type_cur (ps : Parser.pstate) (a : tok_type) :
  Parser.is_type ps a = true -> Parser.cur_type ps = a.
Proof. unfold Parser.is_type. apply tok_type_eqb_true. Qed.

(** C2 (code_bug): the binary expression [s * n], for every String [s]
    and Number [n], is an illegal operation, never a repetition of [s]:
    [String] defines [multplied_by], which overrides nothing, so the
    call reaches [Value.multiplied_by]. *)
Theorem string_times_number_is_illegal :
  forall (fuel : nat) (s : string) (n : pynum) (context : positive)
    (st : Interpreter.state),
  Interpreter.visit (S (S fuel))
    (BinOpNode (StringNode s) (tok TT_MULTIPLY) (NumberNode n)) context st
  = Interpreter.Done (Interpreter.RErr (RTError "Illegal operation" None)) st.
Proof. intros. reflexivity. Qed.

(** C3 (code_bug): [func_def] on [FUN] followed by [(] and a parameter
    name (an anonymous function with parameters) ends in an uncaught
    AttributeError: [parse_params_and_arrow] reads [var_name_token.value]
    while [var_name_token] is [None]. *)
Theorem anonymous_fun_with_params_crashes :
  forall (f : nat) (in_a_function in_a_loop : bool) (ps : Parser.pstate),
  Parser.is_kw ps "FUN" = true ->
  Parser.is_type (Parser.advance ps) TT_LPAREN = true ->
  Parser.is_type (Parser.advance (Parser.advance ps)) TT_IDENTIFIER = true ->
  Parser.func_def (S (S (S f))) in_a_function in_a_loop ps
  = Parser.PCrash "AttributeError: 'NoneType' object has no attribute 'value'".
Proof.
  intros f fa fl ps Hfun Hlp Hid.
  apply is_type_cur in Hlp. apply is_type_cur in Hid.
  cbn [Parser.func_def Parser.func_def_params Parser.parse_params_and_arrow].
  rewrite Hfun. unfold Parser.is_type. rewrite Hlp, Hid. reflexivity.
Qed.

Lemma anonymous_fun_with_params_crashes_witness :
  Lexer.make_tokens anonymous_fun_text = Lexer.LOk
    [mk_token TT_KEYWORD (TVStr "FUN"); tok TT_LPAREN;
     mk_token TT_IDENTIFIER (TVStr "a"); tok TT_COMMA;
     mk_token TT_IDENTIFIER (TVStr "b"); tok TT_RPAREN; tok TT_ARROW;
     mk_token TT_IDENTIFIER (TVStr "a"); tok TT_PLUS;
     mk_token TT_IDENTIFIER (TVStr "b"); tok TT_EOF]
  /\ Parser.func_def 100 false false (Parser.init
    [mk_token TT_KEYWORD (TVStr "FUN"); tok TT_LPAREN;
     mk_token TT_IDENTIFIER (TVStr "a"); tok TT_COMMA;
     mk_token TT_IDENTIFIER (TVStr "b"); tok TT_RPAREN; tok TT_ARROW;
     mk_token TT_IDENTIFIER (TVStr "a"); tok TT_PLUS;
     mk_token TT_IDENTIFIER (TVStr "b"); tok TT_EOF])
  = Parser.PCrash "AttributeError: 'NoneType' object has no attribute 'value'".
Proof.
  split.
  - vm_compute. reflexivity.
  - apply (anonymous_fun_with_params_crashes 97); vm_compute; reflexivity.
Defined.

(** C4 (code_bug): a dotted literal beyond the double range lexes to an
    infinite FLOAT token instead of failing with [number_overflow] (the
    test is [(math.isinf(x) or math.log10(x)) >= 308], i.e. [True >= 308]),
    and the exponent literal [1e-400] crashes with an UnboundLocalError
    instead of failing with [exponent_underflow] ([thelog10] is bound
    only when the converted value is non-zero).  A finite dotted literal
    of magnitude [10^308] does fail with [number_overflow]. *)
Theorem number_literal_limits :
  Lexer.make_tokens big_dotted_literal
    = Lexer.LOk [mk_token TT_FLOAT (TVNum PInf); tok TT_EOF]
  /\ Lexer.make_tokens "1e-400" = Lexer.LCrash "UnboundLocalError: thelog10"
  /\ Lexer.make_tokens (String.append "1" (String.append (zeros 308) ".0"))
    = Lexer.LErr (LexSyntaxError 0 "number_overflow").
Proof. vm_compute. repeat split. Qed.

(** C10 (code_bug): the program [WHILE IF 1 THEN BREAK THEN 1] lexes,
    parses (the header of a WHILE is parsed with [in_a_loop] set, so the
    BREAK is accepted) and evaluates without error, yet [run] returns no
    value at all: the break escapes the WHILE through its condition and
    reaches the top.  A plain program such as [1 + 2] does yield a
    one-element List holding 3. *)
Theorem run_break_in_header_has_no_value :
  (exists st, Interpreter.run 1000 break_in_header_text (Interpreter.initial_state ∅)
              = Interpreter.Done (None, None) st)
  /\ match Interpreter.run 1000 "1 + 2" (Interpreter.initial_state ∅) with
     | Interpreter.Done (Some (Interpreter.VList l), None) st =>
         Interpreter.lists st !! l = Some [Interpreter.VNumber (PInt 3)]
     | _ => False
     end.
Proof.
  split.
  - vm_compute. eexists. reflexivity.
  - vm_compute. reflexivity.
Qed.

(** C1, counterexample: in ["1\n(2"] the further statement attempted
    after the newline fails having consumed two tokens, with
    [rparen_expected] at the EOF token; yet the whole parse does not
    report that error but [tokens_out_of_place] at the [(]. *)
Lemma sticky_statement_error_not_reported :
  (exists r ps,
     Parser.statement 100 false false (Parser.advance (Parser.advance (Parser.init toks1)))
       = Parser.PDone r ps
     /\ pr_error r = Some (InvalidSyntaxError 4 "rparen_expected")
     /\ advance_count r = 2%nat)
  /\ (exists r ps,
     Parser.parse (Parser.parse_fuel toks1) toks1 = Parser.PDone r ps
     /\ pr_error r = Some (InvalidSyntaxError 2 "tokens_out_of_place")).
Proof.
  vm_compute. split.
  - eexists. eexists. split; [reflexivity | split; reflexivity].
  - eexists. eexists. split; reflexivity.
Qed.

Lemma skip_newlines_error {A} (n : nat) (r : ParseResult A) (ps : Parser.pstate) (c : nat) :
  pr_error (fst (fst (Parser.skip_newlines n r ps c))) = pr_error r.
Proof.
  revert r ps c. induction n as [|n IH]; intros r ps c; simpl; [reflexivity|].
  destruct (Parser.is_type ps TT_NEWLINE); [rewrite IH|]; reflexivity.
Qed.

Lemma skip_nl_error {A} (r : ParseResult A) (ps : Parser.pstate) :
  pr_error (fst (fst (Parser.skip_nl r ps))) = pr_error r.
Proof. apply skip_newlines_error. Qed.

Lemma additional_statements_keep_error (f : nat) (fa fl : bool) (stmts : list node)
    (result : ParseResult node) (ps : Parser.pstate) (out : list node * ParseResult node)
    (ps' : Parser.pstate) :
  Parser.parse_any_additional_statements (S f) fa fl stmts result ps = Parser.PDone out ps' ->
  pr_error (snd out) = pr_error result.
Proof.
  cbn [Parser.parse_any_additional_statements].
  match goal with |- context [?F (length (Parser.tokens ps))] => set (loop := F) end.
  assert (G : forall n more stmts result ps,
             loop n more stmts result ps = Parser.PDone out ps' ->
             pr_error (snd out) = pr_error result).
  { clear stmts result ps.
    induction n as [|n IH]; intros more stmts result ps H; [discriminate|].
    unfold loop in H; fold loop in H. cbn beta iota in H.
    destruct (Parser.skip_nl result ps) as [[r1 p1] c] eqn:E.
    pose proof (skip_nl_error result ps) as Er. rewrite E in Er. cbn in Er.
    destruct (negb (if (c =? 0)%nat then false else more)).
    - inversion H; subst. exact Er.
    - destruct (Parser.statement f fa fl p1) as [st p2| |] eqn:Es; try discriminate.
      cbn [Parser.pbind] in H.
      unfold try_register in H.
      destruct (pr_error st) eqn:Est.
      + apply IH in H. rewrite H. exact Er.
      + unfold register in H. rewrite Est in H.
        destruct (pr_node st); apply IH in H; rewrite H; exact Er. }
  exact (G (S (S (length (Parser.tokens ps)))) true stmts result ps).
Qed.

Lemma parse_error_origin (f : nat) (toks : list token) (r : ParseResult node)
    (ps : Parser.pstate) (e : error) :
  Parser.parse (S f) toks = Parser.PDone r ps -> pr_error r = Some e ->
  (exists st ps2,
     Parser.statement f false false (snd (fst (Parser.skip_nl (@new_pr node) (Parser.init toks))))
       = Parser.PDone st ps2
     /\ pr_error st = Some e)
  \/ e = InvalidSyntaxError (Parser.token_index ps) "tokens_out_of_place".
Proof.
  unfold Parser.parse. cbn [Parser.statements].
  destruct (Parser.skip_nl new_pr (Parser.init toks)) as [[r0 p0] c] eqn:E.
  pose proof (skip_nl_error (@new_pr node) (Parser.init toks)) as Er.
  rewrite E in Er. cbn in Er. cbn [fst snd].
  destruct (Parser.statement f false false p0) as [st p2| |] eqn:Es; try discriminate.
  cbn [Parser.pbind]. unfold register. cbn [pr_error fst snd].
  destruct (pr_error st) as [e0|] eqn:Est.
  - intros H He. inversion H; subst. cbn in He. inversion He; subst.
    left. exists st, ps. split; [reflexivity | exact Est].
  - rewrite Er. destruct (pr_node st) as [s0|]; [|discriminate]. cbn [Parser.with_node].
    destruct (Parser.parse_any_additional_statements f false false [s0] _ p2)
      as [[stmts result'] p3| |] eqn:Ea; try discriminate.
    destruct f as [|f]; [discriminate|].
    apply additional_statements_keep_error in Ea. cbn in Ea.
    cbn [Parser.pbind pr_error success]. rewrite Ea.
    destruct (negb (Parser.is_type p3 TT_EOF)).
    + intros H He. inversion H; subst. unfold failure in He. cbn in He. rewrite Ea in He.
      inversion He. right. reflexivity.
    + intros H He. inversion H; subst. cbn in He. congruence.
Qed.

(** C1 (corrected): when [parse_any_additional_statements], after at
    least one newline, attempts a further statement and that attempt
    fails, whatever number of tokens the attempt consumed, the attempt is
    abandoned: the cursor is moved back by the attempt's advance count,
    the statement list ends there unchanged, and the attempt's error is
    dropped (the result carries the error it had before).  So an error
    that [Parser.parse] reports is either the error of the program's first
    statement or [tokens_out_of_place] at the token where the parse
    stopped. *)
Theorem failed_additional_statement_is_abandoned :
  (forall (f : nat) (in_a_function in_a_loop : bool) (stmts : list node)
     (result result1 r : ParseResult node) (ps ps1 ps2 : Parser.pstate)
     (k : nat) (e : error),
   Parser.skip_nl result ps = (result1, ps1, S k) ->
   Parser.statement f in_a_function in_a_loop ps1 = Parser.PDone r ps2 ->
   pr_error r = Some e ->
   exists result',
     Parser.parse_any_additional_statements (S f) in_a_function in_a_loop stmts result ps
     = Parser.PDone (stmts, result')
         (snd (fst (Parser.skip_nl (fst (try_register result1 r))
                                   (Parser.reverse ps2 (advance_count r)))))
     /\ pr_error result' = pr_error result)
  /\
  (forall (f : nat) (toks : list token) (r : ParseResult node) (ps : Parser.pstate)
     (e : error),
   Parser.parse (S f) toks = Parser.PDone r ps -> pr_error r = Some e ->
   (exists st ps2,
      Parser.statement f false false
        (snd (fst (Parser.skip_nl (@new_pr node) (Parser.init toks))))
        = Parser.PDone st ps2
      /\ pr_error st = Some e)
   \/ e = InvalidSyntaxError (Parser.token_index ps) "tokens_out_of_place").
Proof.
  split; [|exact parse_error_origin].
  intros f fa fl stmts result result1 r ps ps1 ps2 k e Hnl Hst Herr.
  assert (E1 : pr_error result1 = pr_error result).
  { pose proof (skip_nl_error result ps) as H. rewrite Hnl in H. exact H. }
  assert (Etr : fst (try_register result1 r)
                = mk_pr (pr_error result1) (pr_node result1)
                    (last_registered_advance_count result1) (advance_count result1)
                    (advance_count r)).
  { unfold try_register. rewrite Herr. reflexivity. }
  rewrite Etr.
  destruct (Parser.skip_nl (mk_pr (pr_error result1) (pr_node result1)
              (last_registered_advance_count result1) (advance_count result1)
              (advance_count r)) (Parser.reverse ps2 (advance_count r)))
    as [[result2 ps3] c] eqn:E.
  exists result2. split.
  - cbn [Parser.parse_any_additional_statements].
    rewrite Hnl. cbn [Nat.eqb negb]. rewrite Hst. cbn [Parser.pbind].
    unfold try_register at 1. rewrite Herr. cbn [to_reverse_count].
    rewrite E. cbn [fst snd]. destruct (c =? 0)%nat; reflexivity.
  - pose proof (skip_nl_error (mk_pr (pr_error result1) (pr_node result1)
      (last_registered_advance_count result1) (advance_count result1)
      (advance_count r)) (Parser.reverse ps2 (advance_count r))) as H.
    rewrite E in H. cbn in H. rewrite H. exact E1.
Qed.

Lemma failed_additional_statement_is_abandoned_witness :
  (exists result',
    Parser.parse_any_additional_statements 100 false false [NumberNode (PInt 1)]
      (mk_pr None (Some (NumberNode (PInt 1))) 1 1 0) (Parser.advance (Parser.init toks1))
    = Parser.PDone ([NumberNode (PInt 1)], result')
        (Parser.reverse (Parser.advance (Parser.advance (Parser.advance (Parser.advance
           (Parser.init toks1))))) 2)
    /\ pr_error result' = None)
  /\
  (exists r ps,
    Parser.parse 100 toks1 = Parser.PDone r ps
    /\ pr_error r = Some (InvalidSyntaxError 2 "tokens_out_of_place")
    /\ ((exists st ps2,
          Parser.statement 99 false false
            (snd (fst (Parser.skip_nl (@new_pr node) (Parser.init toks1))))
            = Parser.PDone st ps2
          /\ pr_error st = Some (InvalidSyntaxError 2 "tokens_out_of_place"))
        \/ InvalidSyntaxError 2 "tokens_out_of_place"
           = InvalidSyntaxError (Parser.token_index ps) "tokens_out_of_place")).
Proof.
  destruct failed_additional_statement_is_abandoned as [Hstep Hparse].
  split.
  - destruct (Hstep 99%nat false false [NumberNode (PInt 1)]
      (mk_pr None (Some (NumberNode (PInt 1))) 1 1 0)
      (mk_pr None (Some (NumberNode (PInt 1))) 1 2 0)
      (mk_pr (Some (InvalidSyntaxError 4 "rparen_expected")) None 2 2 0)
      (Parser.advance (Parser.init toks1))
      (Parser.advance (Parser.advance (Parser.init toks1)))
      (Parser.advance (Parser.advance (Parser.advance (Parser.advance (Parser.init toks1)))))
      0%nat (InvalidSyntaxError 4 "rparen_expected")) as [result' [H1 H2]].
    + vm_compute. reflexivity.
    + vm_compute. reflexivity.
    + reflexivity.
    + exists result'. split; [|exact H2]. rewrite H1. vm_compute. reflexivity.
  - assert (Hp : exists r ps, Parser.parse 100 toks1 = Parser.PDone r ps
                   /\ pr_error r = Some (InvalidSyntaxError 2 "tokens_out_of_place")).
    { vm_compute. eexists. eexists. split; reflexivity. }
    destruct Hp as (r & ps & H1 & H2).
    exists r, ps. split; [exact H1|]. split; [exact H2|].
    exact (Hparse 99%nat toks1 r ps _ H1 H2).
Defined.

Module Signals.
Import Interpreter InterpreterDefs.

(** A node whose first child's evaluation ends in a signal (an error,
    a return, a break or a continue) ends with that very signal. *)
Lemma first_child_signal_forwarded (f : nat) (a b : node) (op : token) (x : string)
    (args ns : list node) (cases : list (node * node * bool))
    (else_case : option (node * bool)) (e : node) (step : option node)
    (srn : bool) (context : positive) (st st' : state) (r : RTResult) :
  should_return r = true ->
  visit f a context st = Done r st' ->
  visit (S f) (VarAssignNode x a) context st = Done r st'
  /\ visit (S f) (BinOpNode a op b) context st = Done r st'
  /\ visit (S f) (UnaryOpNode op a) context st = Done r st'
  /\ visit (S f) (CallNode a args) context st = Done r st'
  /\ visit (S f) (IfNode ((a, b, srn) :: cases) else_case) context st = Done r st'
  /\ visit (S f) (ForNode x a e step b srn) context st = Done r st'
  /\ visit (S f) (WhileNode a b srn) context st = Done r st'
  /\ visit (S f) (ListNode (a :: ns)) context st = Done r st'
  /\ visit (S f) (ReturnNode (Some a)) context st = Done r st'.
Proof.
  intros Hr Ha.
  repeat match goal with |- _ /\ _ => split end;
    cbn [visit];
    try (rewrite Ha; cbn [obind]; destruct r; try discriminate Hr; reflexivity).
  destruct f as [|f]; [discriminate Ha|].
  cbn [while_loop]. rewrite Ha. cbn [obind]. destruct r; try discriminate Hr; reflexivity.
Qed.

(** The second operand of a binary operation, an argument of a call and
    the end value of a FOR forward their signals as well. *)
Lemma later_child_signal_forwarded (f : nat) (a b e : node) (op : token) (x : string)
    (args : list node) (step : option node) (srn : bool) (context : positive)
    (st st1 st' : state) (v : value) (r : RTResult) :
  should_return r = true ->
  visit f a context st = Done (ROk v) st1 ->
  visit f b context st1 = Done r st' ->
  visit (S f) (BinOpNode a op b) context st = Done r st'
  /\ visit (S f) (CallNode a (b :: args)) context st = Done r st'
  /\ visit (S f) (ForNode x a b step e srn) context st = Done r st'.
Proof.
  intros Hr Ha Hb.
  repeat match goal with |- _ /\ _ => split end;
    cbn [visit]; rewrite Ha; cbn [obind]; rewrite Hb; cbn [obind];
    destruct r; try discriminate Hr; reflexivity.
Qed.

(** A FOR round whose body ends in a break finishes the loop with the
    values collected so far; a continue goes on with the next counter
    value; an error or a return leaves the loop with that signal. *)
Lemma for_loop_body_signal (eval_body : state -> outcome RTResult) (context t : positive)
    (var_name : string) (end_ step i : pynum) (srn : bool) (k : nat)
    (elements : list value) (st st' : state) (r : RTResult) :
  for_condition i end_ step = true ->
  ctx_table st context = Some t ->
  eval_body (set st t var_name (VNumber i)) = Done r st' ->
  for_loop eval_body context var_name end_ step srn (S k) i elements st
  = match r with
    | ROk v => for_loop eval_body context var_name end_ step srn k (num_add i step)
                 (elements ++ [v]) st'
    | RCont => for_loop eval_body context var_name end_ step srn k (num_add i step)
                 elements st'
    | RBrk => loop_value srn elements st'
    | _ => Done r st'
    end.
Proof.
  intros Hc Ht Hb. cbn [for_loop]. rewrite Hc, Ht. cbn [negb]. rewrite Hb.
  destruct r; reflexivity.
Qed.

(** The same for a WHILE round whose condition holds. *)
Lemma while_loop_body_signal (eval_condition eval_body : state -> outcome RTResult)
    (srn : bool) (k : nat) (elements : list value) (st st1 st' : state)
    (condition : value) (r : RTResult) :
  eval_condition st = Done (ROk condition) st1 ->
  is_true condition = true ->
  eval_body st1 = Done r st' ->
  while_loop eval_condition eval_body srn (S k) elements st
  = match r with
    | ROk v => while_loop eval_condition eval_body srn k (elements ++ [v]) st'
    | RCont => while_loop eval_condition eval_body srn k elements st'
    | RBrk => loop_value srn elements st'
    | _ => Done r st'
    end.
Proof.
  intros Hc Ht Hb. cbn [while_loop]. rewrite Hc. cbn [obind]. rewrite Ht. cbn [negb].
  rewrite Hb. destruct r; reflexivity.
Qed.

(** A call of a user function turns the return signal of its body into
    the call's value and forwards every other signal. *)
Lemma function_call_signal (f : nat) (name : option string) (body : node)
    (arg_names : list string) (auto : bool) (c : option positive) (args : list value)
    (ec : positive) (st st1 st2 st' : state) (r : RTResult) :
  generate_new_context (match name with Some nm => nm | None => "<anonymous>"%string end)
    c st = Done ec st1 ->
  check_and_populate_params (VFunction name body arg_names auto c) arg_names args ec st1
    = (ROk none, st2) ->
  visit f body ec st2 = Done r st' ->
  execute (S f) (VFunction name body arg_names auto c) args st
  = Done (match r with
          | ROk v => ROk (if auto then v else none)
          | RRet v => ROk v
          | _ => r
          end) st'.
Proof.
  intros Hg Hp Hb. cbn [execute]. rewrite Hg. cbn [obind]. rewrite Hp. rewrite Hb.
  cbn [obind]. destruct r; reflexivity.
Qed.

(** IMPORT reports an error of the imported program as it is, and turns
    every other outcome of it, break and continue included, into
    [Number.none]. *)
Lemma import_signal (f : nat) (filepath code : string) (context : positive)
    (st st' : state) (r : RTResult) :
  files st !! filepath = Some code ->
  run_program (S f) code (Some context) st = Done (RunResult r) st' ->
  visit (S (S f)) (ImportNode (StringNode filepath)) context st
  = Done (match r with RErr e => RErr e | _ => ROk none end) st'.
Proof.
  intros Hf Hr. cbn [visit obind]. rewrite Hf. rewrite Hr. cbn [obind].
  destruct r; reflexivity.
Qed.

(** An element of a list literal whose evaluation ends in a signal, the
    elements before it having given values, ends the list with it. *)
Lemma list_element_signal (f : nat) (pre post : list node) (a : node) (context : positive)
    (st st1 st' : state) (vs : list value) (r : RTResult) :
  should_return r = true ->
  visits_ok f context pre st vs st1 ->
  visit f a context st1 = Done r st' ->
  visit (S f) (ListNode (pre ++ a :: post)) context st = Done r st'.
Proof.
  intros Hr Hpre Ha. cbn [visit].
  match goal with |- ?F ?l [] ?s = ?rhs =>
    enough (G : forall acc, F l acc s = rhs) by exact (G []) end.
  revert Ha. induction Hpre as [st|b ns st st0 st2 v vs Hb Hns IH]; intros Ha acc.
  - cbn [app]. cbn beta iota. rewrite Ha. cbn [obind].
    destruct r; try discriminate Hr; reflexivity.
  - cbn [app]. cbn beta iota. rewrite Hb. cbn [obind]. apply IH. exact Ha.
Qed.

(** The same for an argument of a call, after the callee. *)
Lemma call_argument_signal (f : nat) (a b : node) (pre post : list node) (context : positive)
    (st st1 st2 st' : state) (fv : value) (vs : list value) (r : RTResult) :
  should_return r = true ->
  visit f a context st = Done (ROk fv) st1 ->
  visits_ok f context pre st1 vs st2 ->
  visit f b context st2 = Done r st' ->
  visit (S f) (CallNode a (pre ++ b :: post)) context st = Done r st'.
Proof.
  intros Hr Ha Hpre Hb. cbn [visit]. rewrite Ha. cbn [obind].
  match goal with |- ?F ?l [] ?s = ?rhs =>
    enough (G : forall acc, F l acc s = rhs) by exact (G []) end.
  clear Ha. revert Hb. induction Hpre as [s0|c ns st0 st3 st4 v vs Hc Hns IH]; intros Hb acc.
  - cbn [app]. cbn beta iota. rewrite Hb. cbn [obind].
    destruct r; try discriminate Hr; reflexivity.
  - cbn [app]. cbn beta iota. rewrite Hc. cbn [obind]. apply IH. exact Hb.
Qed.

(** A call forwards a signal its callee's execution ends in. *)
Lemma call_execute_signal (f : nat) (a : node) (args : list node) (context : positive)
    (st st1 st2 st' : state) (fv : value) (vs : list value) (r : RTResult) :
  should_return r = true ->
  visit f a context st = Done (ROk fv) st1 ->
  visits_ok f context args st1 vs st2 ->
  execute f fv vs st2 = Done r st' ->
  visit (S f) (CallNode a args) context st = Done r st'.
Proof.
  intros Hr Ha Hargs He. cbn [visit]. rewrite Ha. cbn [obind].
  match goal with |- ?F ?l [] ?s = ?rhs =>
    enough (G : forall acc, execute f fv (acc ++ vs) st2 = Done r st' -> F l acc s = rhs)
      by exact (G [] He) end.
  clear Ha He. induction Hargs as [s0|c ns st0 st3 st4 v vs Hc Hns IH]; intros acc He.
  - cbn beta iota. rewrite app_nil_r in He. rewrite He. cbn [obind].
    destruct r; try discriminate Hr; reflexivity.
  - cbn beta iota. rewrite Hc. cbn [obind]. apply IH.
    rewrite <- app_assoc. exact He.
Qed.

(** An IF forwards a signal of the condition of any case whose earlier
    conditions are not true, *)
Lemma if_condition_signal (f : nat) (pre post : list (node * node * bool)) (c b : node)
    (srn : bool) (else_case : option (node * bool)) (context : positive)
    (st st1 st' : state) (r : RTResult) :
  should_return r = true ->
  conditions_false f context pre st st1 ->
  visit f c context st1 = Done r st' ->
  visit (S f) (IfNode (pre ++ (c, b, srn) :: post) else_case) context st = Done r st'.
Proof.
  intros Hr Hpre Hc. cbn [visit].
  revert Hc. induction Hpre as [st|c0 b0 srn0 cs st0 st2 st3 cv Hc0 Hf Hcs IH]; intros Hc.
  - cbn [app]. cbn beta iota. rewrite Hc. cbn [obind].
    destruct r; try discriminate Hr; reflexivity.
  - cbn [app]. cbn beta iota. rewrite Hc0. cbn [obind]. rewrite Hf. apply IH. exact Hc.
Qed.

(** of the body of the case it selects, *)
Lemma if_body_signal (f : nat) (pre post : list (node * node * bool)) (c b : node)
    (srn : bool) (else_case : option (node * bool)) (context : positive)
    (st st1 st2 st' : state) (cv : value) (r : RTResult) :
  should_return r = true ->
  conditions_false f context pre st st1 ->
  visit f c context st1 = Done (ROk cv) st2 ->
  is_true cv = true ->
  visit f b context st2 = Done r st' ->
  visit (S f) (IfNode (pre ++ (c, b, srn) :: post) else_case) context st = Done r st'.
Proof.
  intros Hr Hpre Hc Ht Hb. cbn [visit].
  revert Hc. induction Hpre as [st|c0 b0 srn0 cs st0 st3 st4 cv0 Hc0 Hf Hcs IH]; intros Hc.
  - cbn [app]. cbn beta iota. rewrite Hc. cbn [obind]. rewrite Ht. rewrite Hb. cbn [obind].
    destruct r; try discriminate Hr; reflexivity.
  - cbn [app]. cbn beta iota. rewrite Hc0. cbn [obind]. rewrite Hf. apply IH. exact Hc.
Qed.

(** and of its ELSE body. *)
Lemma else_body_signal (f : nat) (cases : list (node * node * bool)) (e : node) (srn : bool)
    (context : positive) (st st1 st' : state) (r : RTResult) :
  should_return r = true ->
  conditions_false f context cases st st1 ->
  visit f e context st1 = Done r st' ->
  visit (S f) (IfNode cases (Some (e, srn))) context st = Done r st'.
Proof.
  intros Hr Hcases He. cbn [visit].
  revert He. induction Hcases as [st|c0 b0 srn0 cs st0 st2 st3 cv0 Hc0 Hf Hcs IH]; intros He.
  - cbn beta iota. rewrite He. cbn [obind].
    destruct r; try discriminate Hr; reflexivity.
  - cbn beta iota. rewrite Hc0. cbn [obind]. rewrite Hf. apply IH. exact He.
Qed.

(** A FOR forwards a signal of its step expression. *)
Lemma for_step_signal (f : nat) (x : string) (a b s body : node) (srn : bool)
    (context : positive) (st st1 st2 st' : state) (v1 v2 : value) (r : RTResult) :
  should_return r = true ->
  visit f a context st = Done (ROk v1) st1 ->
  visit f b context st1 = Done (ROk v2) st2 ->
  visit f s context st2 = Done r st' ->
  visit (S f) (ForNode x a b (Some s) body srn) context st = Done r st'.
Proof.
  intros Hr Ha Hb Hs. cbn [visit]. rewrite Ha. cbn [obind]. rewrite Hb. cbn [obind].
  rewrite Hs. cbn [obind]. destruct r; try discriminate Hr; reflexivity.
Qed.

(** A WHILE forwards a signal of its condition, in any round. *)
Lemma while_loop_condition_signal
    (eval_condition eval_body : state -> outcome RTResult) (srn : bool) (k : nat)
    (elements : list value) (st st' : state) (r : RTResult) :
  should_return r = true ->
  eval_condition st = Done r st' ->
  while_loop eval_condition eval_body srn (S k) elements st = Done r st'.
Proof.
  intros Hr Hc. cbn [while_loop]. rewrite Hc. cbn [obind].
  destruct r; try discriminate Hr; reflexivity.
Qed.

(** The [run] builtin, after its warning, runs the script in a new
    program context: an error of the script becomes the error [Failed to
    finish executing script], and every other outcome, a break, a
    continue or a return included, becomes [Number.none]. *)
Lemma run_builtin_signal (f : nat) (ec t : positive) (filename script : string)
    (st st' : state) (r : RTResult) :
  ctx_table st ec = Some t ->
  get st t "filename" = Some (VString filename) ->
  files st !! filename = Some script ->
  run_program f script None
    (write_out st (VString "WARNING: run() is deprecated. Use 'IMPORT' instead"))
    = Done (RunResult r) st' ->
  execute_run (S f) ec st
  = Done (match r with
          | RErr e => RErr (RTErrorWrapped "Failed to finish executing script" filename e
                              (Some ec))
          | _ => ROk none
          end) st'.
Proof.
  intros Ht Hg Hf Hr. cbn [execute_run]. rewrite Ht, Hg.
  change (files (write_out st (VString "WARNING: run() is deprecated. Use 'IMPORT' instead")))
    with (files st).
  rewrite Hf, Hr. cbn [obind]. destruct r; reflexivity.
Qed.

End Signals.

(** C5 (corrected): a node whose child's evaluation ends in a signal (an
    error, a return, a break or a continue) ends with that same signal:
    the only child of an assignment, a unary operation or a RETURN, either
    operand of a binary operation, any element of a list literal, the
    callee, any argument or the execution of a call, the condition of any
    case reached, the selected body or the ELSE body of an IF, the start,
    end or step of a FOR, and the condition of a WHILE in any round, each
    after the children before it gave values.  A FOR or WHILE round
    consumes a break (the loop ends with the values collected so far) or a
    continue (the loop goes on) of its own body; a call of a user function
    turns its body's return signal into the call's value; IMPORT forwards
    an error of the imported program but turns its every other outcome,
    break and continue included, into [Number.none]; the [run] builtin
    wraps an error of its script in the error [Failed to finish executing
    script] and turns every other outcome into [Number.none]; an error
    that reaches [run] is its reported error. *)
Theorem signals_forwarded_and_consumed :
  (forall (f : nat) (a b : node) (op : token) (x : string) (args ns : list node)
     (cases : list (node * node * bool)) (else_case : option (node * bool)) (e : node)
     (step : option node) (srn : bool) (context : positive)
     (st st' : Interpreter.state) (r : Interpreter.RTResult),
   Interpreter.should_return r = true ->
   Interpreter.visit f a context st = Interpreter.Done r st' ->
   Interpreter.visit (S f) (VarAssignNode x a) context st = Interpreter.Done r st'
   /\ Interpreter.visit (S f) (BinOpNode a op b) context st = Interpreter.Done r st'
   /\ Interpreter.visit (S f) (UnaryOpNode op a) context st = Interpreter.Done r st'
   /\ Interpreter.visit (S f) (CallNode a args) context st = Interpreter.Done r st'
   /\ Interpreter.visit (S f) (IfNode ((a, b, srn) :: cases) else_case) context st
      = Interpreter.Done r st'
   /\ Interpreter.visit (S f) (ForNode x a e step b srn) context st = Interpreter.Done r st'
   /\ Interpreter.visit (S f) (WhileNode a b srn) context st = Interpreter.Done r st'
   /\ Interpreter.visit (S f) (ListNode (a :: ns)) context st = Interpreter.Done r st'
   /\ Interpreter.visit (S f) (ReturnNode (Some a)) context st = Interpreter.Done r st')
  /\
  (forall (f : nat) (a b e : node) (op : token) (x : string) (args : list node)
     (step : option node) (srn : bool) (context : positive)
     (st st1 st' : Interpreter.state) (v : Interpreter.value) (r : Interpreter.RTResult),
   Interpreter.should_return r = true ->
   Interpreter.visit f a context st = Interpreter.Done (Interpreter.ROk v) st1 ->
   Interpreter.visit f b context st1 = Interpreter.Done r st' ->
   Interpreter.visit (S f) (BinOpNode a op b) context st = Interpreter.Done r st'
   /\ Interpreter.visit (S f) (CallNode a (b :: args)) context st = Interpreter.Done r st'
   /\ Interpreter.visit (S f) (ForNode x a b step e srn) context st = Interpreter.Done r st')
  /\
  (forall (eval_body : Interpreter.state -> Interpreter.outcome Interpreter.RTResult)
     (context t : positive) (var_name : string) (end_ step i : pynum) (srn : bool)
     (k : nat) (elements : list Interpreter.value) (st st' : Interpreter.state)
     (r : Interpreter.RTResult),
   Interpreter.for_condition i end_ step = true ->
   Interpreter.ctx_table st context = Some t ->
   eval_body (Interpreter.set st t var_name (Interpreter.VNumber i)) = Interpreter.Done r st' ->
   Interpreter.for_loop eval_body context var_name end_ step srn (S k) i elements st
   = match r with
     | Interpreter.ROk v => Interpreter.for_loop eval_body context var_name end_ step srn k
                              (Interpreter.num_add i step) (elements ++ [v]) st'
     | Interpreter.RCont => Interpreter.for_loop eval_body context var_name end_ step srn k
                              (Interpreter.num_add i step) elements st'
     | Interpreter.RBrk => Interpreter.loop_value srn elements st'
     | _ => Interpreter.Done r st'
     end)
  /\
  (forall (eval_condition eval_body : Interpreter.state -> Interpreter.outcome Interpreter.RTResult)
     (srn : bool) (k : nat) (elements : list Interpreter.value)
     (st st1 st' : Interpreter.state) (condition : Interpreter.value) (r : Interpreter.RTResult),
   eval_condition st = Interpreter.Done (Interpreter.ROk condition) st1 ->
   Interpreter.is_true condition = true ->
   eval_body st1 = Interpreter.Done r st' ->
   Interpreter.while_loop eval_condition eval_body srn (S k) elements st
   = match r with
     | Interpreter.ROk v => Interpreter.while_loop eval_condition eval_body srn k (elements ++ [v]) st'
     | Interpreter.RCont => Interpreter.while_loop eval_condition eval_body srn k elements st'
     | Interpreter.RBrk => Interpreter.loop_value srn elements st'
     | _ => Interpreter.Done r st'
     end)
  /\
  (forall (f : nat) (name : option string) (body : node) (arg_names : list string)
     (auto : bool) (c : option positive) (args : list Interpreter.value) (ec : positive)
     (st st1 st2 st' : Interpreter.state) (r : Interpreter.RTResult),
   Interpreter.generate_new_context
     (match name with Some nm => nm | None => "<anonymous>"%string end) c st
     = Interpreter.Done ec st1 ->
   Interpreter.check_and_populate_params (Interpreter.VFunction name body arg_names auto c)
     arg_names args ec st1 = (Interpreter.ROk Interpreter.none, st2) ->
   Interpreter.visit f body ec st2 = Interpreter.Done r st' ->
   Interpreter.execute (S f) (Interpreter.VFunction name body arg_names auto c) args st
   = Interpreter.Done (match r with
                       | Interpreter.ROk v => Interpreter.ROk (if auto then v else Interpreter.none)
                       | Interpreter.RRet v => Interpreter.ROk v
                       | _ => r
                       end) st')
  /\
  (forall (f : nat) (filepath code : string) (context : positive)
     (st st' : Interpreter.state) (r : Interpreter.RTResult),
   Interpreter.files st !! filepath = Some code ->
   Interpreter.run_program (S f) code (Some context) st
     = Interpreter.Done (Interpreter.RunResult r) st' ->
   Interpreter.visit (S (S f)) (ImportNode (StringNode filepath)) context st
   = Interpreter.Done (match r with
                       | Interpreter.RErr e => Interpreter.RErr e
                       | _ => Interpreter.ROk Interpreter.none
                       end) st')
  /\
  (forall (f : nat) (text : string) (st st' : Interpreter.state) (e : error),
   Interpreter.run_program f text None st
     = Interpreter.Done (Interpreter.RunResult (Interpreter.RErr e)) st' ->
   Interpreter.run f text st = Interpreter.Done (None, Some e) st')
  /\
  (forall (f : nat) (pre post : list node) (a : node) (context : positive)
     (st st1 st' : Interpreter.state) (vs : list Interpreter.value) (r : Interpreter.RTResult),
   Interpreter.should_return r = true ->
   InterpreterDefs.visits_ok f context pre st vs st1 ->
   Interpreter.visit f a context st1 = Interpreter.Done r st' ->
   Interpreter.visit (S f) (ListNode (pre ++ a :: post)) context st = Interpreter.Done r st')
  /\
  (forall (f : nat) (a b : node) (pre post : list node) (context : positive)
     (st st1 st2 st' : Interpreter.state) (fv : Interpreter.value)
     (vs : list Interpreter.value) (r : Interpreter.RTResult),
   Interpreter.should_return r = true ->
   Interpreter.visit f a context st = Interpreter.Done (Interpreter.ROk fv) st1 ->
   InterpreterDefs.visits_ok f context pre st1 vs st2 ->
   Interpreter.visit f b context st2 = Interpreter.Done r st' ->
   Interpreter.visit (S f) (CallNode a (pre ++ b :: post)) context st = Interpreter.Done r st')
  /\
  (forall (f : nat) (a : node) (args : list node) (context : positive)
     (st st1 st2 st' : Interpreter.state) (fv : Interpreter.value)
     (vs : list Interpreter.value) (r : Interpreter.RTResult),
   Interpreter.should_return r = true ->
   Interpreter.visit f a context st = Interpreter.Done (Interpreter.ROk fv) st1 ->
   InterpreterDefs.visits_ok f context args st1 vs st2 ->
   Interpreter.execute f fv vs st2 = Interpreter.Done r st' ->
   Interpreter.visit (S f) (CallNode a args) context st = Interpreter.Done r st')
  /\
  (forall (f : nat) (pre post : list (node * node * bool)) (c b : node) (srn : bool)
     (else_case : option (node * bool)) (context : positive)
     (st st1 st' : Interpreter.state) (r : Interpreter.RTResult),
   Interpreter.should_return r = true ->
   InterpreterDefs.conditions_false f context pre st st1 ->
   Interpreter.visit f c context st1 = Interpreter.Done r st' ->
   Interpreter.visit (S f) (IfNode (pre ++ (c, b, srn) :: post) else_case) context st
   = Interpreter.Done r st')
  /\
  (forall (f : nat) (pre post : list (node * node * bool)) (c b : node) (srn : bool)
     (else_case : option (node * bool)) (context : positive)
     (st st1 st2 st' : Interpreter.state) (cv : Interpreter.value) (r : Interpreter.RTResult),
   Interpreter.should_return r = true ->
   InterpreterDefs.conditions_false f context pre st st1 ->
   Interpreter.visit f c context st1 = Interpreter.Done (Interpreter.ROk cv) st2 ->
   Interpreter.is_true cv = true ->
   Interpreter.visit f b context st2 = Interpreter.Done r st' ->
   Interpreter.visit (S f) (IfNode (pre ++ (c, b, srn) :: post) else_case) context st
   = Interpreter.Done r st')
  /\
  (forall (f : nat) (cases : list (node * node * bool)) (e : node) (srn : bool)
     (context : positive) (st st1 st' : Interpreter.state) (r : Interpreter.RTResult),
   Interpreter.should_return r = true ->
   InterpreterDefs.conditions_false f context cases st st1 ->
   Interpreter.visit f e context st1 = Interpreter.Done r st' ->
   Interpreter.visit (S f) (IfNode cases (Some (e, srn))) context st = Interpreter.Done r st')
  /\
  (forall (f : nat) (x : string) (a b s body : node) (srn : bool) (context : positive)
     (st st1 st2 st' : Interpreter.state) (v1 v2 : Interpreter.value)
     (r : Interpreter.RTResult),
   Interpreter.should_return r = true ->
   Interpreter.visit f a context st = Interpreter.Done (Interpreter.ROk v1) st1 ->
   Interpreter.visit f b context st1 = Interpreter.Done (Interpreter.ROk v2) st2 ->
   Interpreter.visit f s context st2 = Interpreter.Done r st' ->
   Interpreter.visit (S f) (ForNode x a b (Some s) body srn) context st = Interpreter.Done r st')
  /\
  (forall (eval_condition eval_body : Interpreter.state -> Interpreter.outcome Interpreter.RTResult)
     (srn : bool) (k : nat) (elements : list Interpreter.value)
     (st st' : Interpreter.state) (r : Interpreter.RTResult),
   Interpreter.should_return r = true ->
   eval_condition st = Interpreter.Done r st' ->
   Interpreter.while_loop eval_condition eval_body srn (S k) elements st
   = Interpreter.Done r st')
  /\
  (forall (f : nat) (ec t : positive) (filename script : string)
     (st st' : Interpreter.state) (r : Interpreter.RTResult),
   Interpreter.ctx_table st ec = Some t ->
   Interpreter.get st t "filename" = Some (Interpreter.VString filename) ->
   Interpreter.files st !! filename = Some script ->
   Interpreter.run_program f script None
     (Interpreter.write_out st
        (Interpreter.VString "WARNING: run() is deprecated. Use 'IMPORT' instead"))
     = Interpreter.Done (Interpreter.RunResult r) st' ->
   Interpreter.execute_run (S f) ec st
   = Interpreter.Done (match r with
                       | Interpreter.RErr e =>
                           Interpreter.RErr (RTErrorWrapped "Failed to finish executing script"
                                               filename e (Some ec))
                       | _ => Interpreter.ROk Interpreter.none
                       end) st').
Proof.
  split; [exact Signals.first_child_signal_forwarded|].
  split; [exact Signals.later_child_signal_forwarded|].
  split; [exact Signals.for_loop_body_signal|].
  split; [exact Signals.while_loop_body_signal|].
  split; [exact Signals.function_call_signal|].
  split; [exact Signals.import_signal|].
  split; [intros f text st st' e H; unfold Interpreter.run; rewrite H; reflexivity|].
  split; [exact Signals.list_element_signal|].
  split; [exact Signals.call_argument_signal|].
  split; [exact Signals.call_execute_signal|].
  split; [exact Signals.if_condition_signal|].
  split; [exact Signals.if_body_signal|].
  split; [exact Signals.else_body_signal|].
  split; [exact Signals.for_step_signal|].
  split; [exact Signals.while_loop_condition_signal|].
  exact Signals.run_builtin_signal.
Qed.

Lemma signals_forwarded_and_consumed_witness :
  Interpreter.visit 101 (ImportNode (StringNode "lib.myopl")) 2 importer_state
  = Interpreter.Done (Interpreter.ROk Interpreter.none)
      (match Interpreter.run_program 100 break_in_header_text (Some 2%positive) importer_state with
       | Interpreter.Done _ st' => st'
       | _ => importer_state
       end).
Proof.
  destruct signals_forwarded_and_consumed as [_ [_ [_ [_ [_ [Himport _]]]]]].
  apply (Himport 99%nat "lib.myopl" break_in_header_text 2%positive importer_state _ Interpreter.RBrk).
  - vm_compute. reflexivity.
  - vm_compute. reflexivity.
Defined.

(** C5, counterexample: the imported program [WHILE IF 1 THEN BREAK
    THEN 1] ends in a break signal, which the IMPORT node consumes
    instead of forwarding: the import evaluates to [Number.none]. *)
Lemma import_consumes_break :
  (exists st', Interpreter.run_program 100 break_in_header_text (Some 2%positive) importer_state
               = Interpreter.Done (Interpreter.RunResult Interpreter.RBrk) st')
  /\ (exists st', Interpreter.visit 102 (ImportNode (StringNode "lib.myopl")) 2 importer_state
               = Interpreter.Done (Interpreter.ROk Interpreter.none) st').
Proof. vm_compute. split; eexists; reflexivity. Qed.

Module Scoping.
Import Interpreter.

Lemma set_context_keeps (v : value) (c c' : positive) :
  value_context v = Some c' -> set_context v c = v.
Proof. destruct v as [| | |? ? ? ? [?|] |? [?|]]; simpl; congruence. Qed.

Lemma funcdef_context (f : nat) (name : option string) (args : list string) (body : node)
    (auto : bool) (context : positive) (st st' : state) (v : value) :
  visit (S f) (FuncDefNode name args body auto) context st = Done (ROk v) st' ->
  value_context v = Some context.
Proof.
  cbn [visit]. destruct name as [nm|].
  - destruct (ctx_table st context); intros H; inversion H; reflexivity.
  - intros H; inversion H; reflexivity.
Qed.

Lemma varaccess_keeps (f : nat) (x : string) (context t c' : positive) (st : state)
    (v : value) :
  ctx_table st context = Some t -> get st t x = Some v -> value_context v = Some c' ->
  visit (S f) (VarAccessNode x) context st = Done (ROk v) st.
Proof.
  intros Ht Hg Hc. cbn [visit]. rewrite Ht, Hg. rewrite (set_context_keeps v context c' Hc).
  reflexivity.
Qed.

Lemma varaccess_stamps_builtin (f : nat) (x name : string) (context t : positive) (st : state) :
  ctx_table st context = Some t -> get st t x = Some (VBuiltIn name None) ->
  visit (S f) (VarAccessNode x) context st = Done (ROk (VBuiltIn name (Some context))) st.
Proof. intros Ht Hg. cbn [visit]. rewrite Ht, Hg. reflexivity. Qed.

Lemma generate_new_context_scope (name : string) (pc : positive) (st st' : state)
    (ec : positive) :
  pc <> next st ->
  generate_new_context name (Some pc) st = Done ec st' ->
  exists t, contexts st' !! ec = Some (mk_ctx name (Some pc) (Some t))
    /\ tables st' !! t = Some (mk_symtab ∅ (ctx_table st pc)).
Proof.
  intros Hne H. unfold generate_new_context, alloc_context, alloc_table in H.
  cbn -[insert lookup] in H. inversion H; subst; clear H.
  exists (Pos.succ (next st)). cbn -[insert lookup]. split.
  - rewrite lookup_insert_eq. reflexivity.
  - rewrite lookup_insert_eq. unfold ctx_table. cbn -[insert lookup].
    rewrite lookup_insert_ne; [reflexivity|].
    intros E. apply Hne. symmetry. exact E.
Qed.

End Scoping.

(** C6 (corrected): a Function or BuiltInFunction value whose context is
    set keeps it through every later [set_context], a variable lookup
    included; a function definition sets the context of the Function to
    the defining context; and [generate_new_context] makes the execution
    context a child of the value's context with a fresh table whose
    parent is that context's table, in which a call of a user Function
    evaluates the body.  A BuiltInFunction's context is set by its first
    lookup, to the context of the lookup site. *)
Theorem closure_context_fixed :
  (forall (v : Interpreter.value) (c c' : positive),
   Interpreter.value_context v = Some c' -> Interpreter.set_context v c = v)
  /\
  (forall (f : nat) (name : option string) (args : list string) (body : node)
     (auto : bool) (context : positive) (st st' : Interpreter.state) (v : Interpreter.value),
   Interpreter.visit (S f) (FuncDefNode name args body auto) context st
     = Interpreter.Done (Interpreter.ROk v) st' ->
   Interpreter.value_context v = Some context)
  /\
  (forall (f : nat) (x : string) (context t c' : positive) (st : Interpreter.state)
     (v : Interpreter.value),
   Interpreter.ctx_table st context = Some t -> Interpreter.get st t x = Some v ->
   Interpreter.value_context v = Some c' ->
   Interpreter.visit (S f) (VarAccessNode x) context st
     = Interpreter.Done (Interpreter.ROk v) st)
  /\
  (forall (name : string) (pc : positive) (st st' : Interpreter.state) (ec : positive),
   pc <> Interpreter.next st ->
   Interpreter.generate_new_context name (Some pc) st = Interpreter.Done ec st' ->
   exists t, Interpreter.contexts st' !! ec = Some (Interpreter.mk_ctx name (Some pc) (Some t))
     /\ Interpreter.tables st' !! t
        = Some (Interpreter.mk_symtab ∅ (Interpreter.ctx_table st pc)))
  /\
  (forall (f : nat) (name : option string) (body : node) (arg_names : list string)
     (auto : bool) (c : option positive) (args : list Interpreter.value) (ec : positive)
     (st st1 st2 st' : Interpreter.state) (r : Interpreter.RTResult),
   Interpreter.generate_new_context
     (match name with Some nm => nm | None => "<anonymous>"%string end) c st
     = Interpreter.Done ec st1 ->
   Interpreter.check_and_populate_params (Interpreter.VFunction name body arg_names auto c)
     arg_names args ec st1 = (Interpreter.ROk Interpreter.none, st2) ->
   Interpreter.visit f body ec st2 = Interpreter.Done r st' ->
   Interpreter.execute (S f) (Interpreter.VFunction name body arg_names auto c) args st
   = Interpreter.Done (match r with
                       | Interpreter.ROk v => Interpreter.ROk (if auto then v else Interpreter.none)
                       | Interpreter.RRet v => Interpreter.ROk v
                       | _ => r
                       end) st')
  /\
  (forall (f : nat) (x name : string) (context t : positive) (st : Interpreter.state),
   Interpreter.ctx_table st context = Some t ->
   Interpreter.get st t x = Some (Interpreter.VBuiltIn name None) ->
   Interpreter.visit (S f) (VarAccessNode x) context st
     = Interpreter.Done (Interpreter.ROk (Interpreter.VBuiltIn name (Some context))) st).
Proof.
  split; [exact Scoping.set_context_keeps|].
  split; [exact Scoping.funcdef_context|].
  split; [exact Scoping.varaccess_keeps|].
  split; [exact Scoping.generate_new_context_scope|].
  split; [exact Signals.function_call_signal|].
  exact Scoping.varaccess_stamps_builtin.
Qed.

Lemma closure_context_fixed_witness :
  exists t,
    Interpreter.contexts
      (match Interpreter.generate_new_context "f" (Some 2%positive) program_state with
       | Interpreter.Done _ st' => st'
       | _ => program_state
       end) !! 3%positive = Some (Interpreter.mk_ctx "f" (Some 2%positive) (Some t))
    /\ Interpreter.tables
      (match Interpreter.generate_new_context "f" (Some 2%positive) program_state with
       | Interpreter.Done _ st' => st'
       | _ => program_state
       end) !! t
       = Some (Interpreter.mk_symtab ∅ (Interpreter.ctx_table program_state 2)).
Proof.
  destruct closure_context_fixed as [_ [_ [_ [Hgen _]]]].
  apply Hgen.
  - vm_compute. discriminate.
  - vm_compute. reflexivity.
Defined.

(** C6, counterexample: inside the execution context 3 of a function
    [f] defined at the top level (context 2, global table 1), looking
    [LEN] up stamps the builtin with context 3, so calling it creates a
    scope whose table is a child of [f]'s table 4, the caller's, not of
    the global table where [LEN] is defined. *)
Lemma builtin_scope_is_lookup_site :
  match Interpreter.generate_new_context "f" (Some 2%positive) program_state with
  | Interpreter.Done ec st1 =>
      ec = 3%positive /\ Interpreter.ctx_table st1 ec = Some 4%positive
      /\ Interpreter.visit 10 (VarAccessNode "LEN") ec st1
         = Interpreter.Done (Interpreter.ROk (Interpreter.VBuiltIn "len" (Some ec))) st1
      /\ match Interpreter.generate_new_context "len" (Some ec) st1 with
         | Interpreter.Done ec2 st2 =>
             exists t, Interpreter.ctx_table st2 ec2 = Some t
               /\ option_map Interpreter.parent (Interpreter.tables st2 !! t)
                  = Some (Some 4%positive)
         | _ => False
         end
  | _ => False
  end.
Proof.
  vm_compute. split; [reflexivity|]. split; [reflexivity|]. split; [reflexivity|].
  eexists. split; reflexivity.
Qed.

Module ImportScope.
Import Interpreter.

Lemma run_program_parsed (f : nat) (text : string) (parent_context : option positive)
    (st : state) (tokens : list token) (ast : ParseResult node) (ps : Parser.pstate)
    (ast_node : node) :
  Lexer.make_tokens text = Lexer.LOk tokens ->
  Parser.parse (Parser.parse_fuel tokens) tokens = Parser.PDone ast ps ->
  pr_error ast = None -> pr_node ast = Some ast_node ->
  run_program (S f) text parent_context st
  = let '(context, st1) :=
      alloc_context st (mk_ctx "<program>" parent_context
                          (match parent_context with
                           | None => Some global_table
                           | Some pc => ctx_table st pc
                           end)) in
    let~ result @ st2 := visit f ast_node context st1 in
    Done (RunResult result) st2.
Proof.
  intros Hl Hp He Hn. cbn [run_program]. rewrite Hl, Hp. rewrite He, Hn. reflexivity.
Qed.

Lemma import_parsed (f : nat) (filepath code : string) (context : positive) (st : state)
    (tokens : list token) (ast : ParseResult node) (ps : Parser.pstate) (ast_node : node) :
  files st !! filepath = Some code ->
  Lexer.make_tokens code = Lexer.LOk tokens ->
  Parser.parse (Parser.parse_fuel tokens) tokens = Parser.PDone ast ps ->
  pr_error ast = None -> pr_node ast = Some ast_node ->
  visit (S (S f)) (ImportNode (StringNode filepath)) context st
  = let '(c, st1) := alloc_context st (mk_ctx "<program>" (Some context) (ctx_table st context)) in
    let~ result @ st2 := visit f ast_node c st1 in
    match result with
    | RErr e => Done (RErr e) st2
    | _ => Done (ROk none) st2
    end.
Proof.
  intros Hf Hl Hp He Hn. cbn [visit obind]. rewrite Hf.
  rewrite (run_program_parsed f code (Some context) st tokens ast ps ast_node Hl Hp He Hn).
  cbn [alloc_context]. destruct (visit f ast_node _ _) as [r st2| | |]; cbn [obind];
    [destruct r| | |]; reflexivity.
Qed.

End ImportScope.

(** C7 (confirmed): [run] with a parent context evaluates the program in
    a new context ["<program>"] whose table is the parent's own table,
    and without one on the global table; an IMPORT of a file that lexes
    and parses runs its program so, with the importing context as
    parent, hence on the importing context's table. *)
Theorem import_shares_symbol_table :
  (forall (f : nat) (text : string) (parent_context : option positive)
     (st : Interpreter.state) (tokens : list token) (ast : ParseResult node)
     (ps : Parser.pstate) (ast_node : node),
   Lexer.make_tokens text = Lexer.LOk tokens ->
   Parser.parse (Parser.parse_fuel tokens) tokens = Parser.PDone ast ps ->
   pr_error ast = None -> pr_node ast = Some ast_node ->
   Interpreter.run_program (S f) text parent_context st
   = let '(context, st1) :=
       Interpreter.alloc_context st (Interpreter.mk_ctx "<program>" parent_context
                           (match parent_context with
                            | None => Some Interpreter.global_table
                            | Some pc => Interpreter.ctx_table st pc
                            end)) in
     Interpreter.obind (Interpreter.visit f ast_node context st1)
       (fun result st2 => Interpreter.Done (Interpreter.RunResult result) st2))
  /\
  (forall (f : nat) (filepath code : string) (context : positive) (st : Interpreter.state)
     (tokens : list token) (ast : ParseResult node) (ps : Parser.pstate) (ast_node : node),
   Interpreter.files st !! filepath = Some code ->
   Lexer.make_tokens code = Lexer.LOk tokens ->
   Parser.parse (Parser.parse_fuel tokens) tokens = Parser.PDone ast ps ->
   pr_error ast = None -> pr_node ast = Some ast_node ->
   Interpreter.visit (S (S f)) (ImportNode (StringNode filepath)) context st
   = let '(c, st1) :=
       Interpreter.alloc_context st
         (Interpreter.mk_ctx "<program>" (Some context) (Interpreter.ctx_table st context)) in
     Interpreter.obind (Interpreter.visit f ast_node c st1)
       (fun result st2 =>
          match result with
          | Interpreter.RErr e => Interpreter.Done (Interpreter.RErr e) st2
          | _ => Interpreter.Done (Interpreter.ROk Interpreter.none) st2
          end)).
Proof.
  split; [exact ImportScope.run_program_parsed | exact ImportScope.import_parsed].
Qed.

Lemma import_shares_symbol_table_witness :
  Interpreter.visit 12 (ImportNode (StringNode "lib.myopl")) 2 sharing_state
  = Interpreter.obind
      (Interpreter.visit 10 (ListNode [VarAssignNode "x" (NumberNode (PInt 5))]) 3
         (snd (Interpreter.alloc_context sharing_state
            (Interpreter.mk_ctx "<program>" (Some 2%positive) (Some Interpreter.global_table)))))
      (fun result st2 =>
         match result with
         | Interpreter.RErr e => Interpreter.Done (Interpreter.RErr e) st2
         | _ => Interpreter.Done (Interpreter.ROk Interpreter.none) st2
         end)
  /\ match Interpreter.run 100 import_then_read_text (Interpreter.initial_state sharing_files) with
     | Interpreter.Done (Some (Interpreter.VList l), None) st =>
         Interpreter.lists st !! l = Some [Interpreter.VNumber (PInt 0); Interpreter.VNumber (PInt 5)]
     | _ => False
     end.
Proof.
  split.
  - destruct import_shares_symbol_table as [_ Himport].
    refine (Himport 10%nat "lib.myopl" "VAR x = 5" 2%positive sharing_state
      [mk_token TT_KEYWORD (TVStr "VAR"); mk_token TT_IDENTIFIER (TVStr "x"); tok TT_ASSIGN;
       mk_token TT_INT (TVNum (PInt 5)); tok TT_EOF]
      (mk_pr None (Some (ListNode [VarAssignNode "x" (NumberNode (PInt 5))])) 4 4 0)
      (Parser.advance (Parser.advance (Parser.advance (Parser.advance (Parser.init
        [mk_token TT_KEYWORD (TVStr "VAR"); mk_token TT_IDENTIFIER (TVStr "x"); tok TT_ASSIGN;
         mk_token TT_INT (TVNum (PInt 5)); tok TT_EOF])))))
      (ListNode [VarAssignNode "x" (NumberNode (PInt 5))]) _ _ _ _ _);
      vm_compute; reflexivity.
  - vm_compute. reflexivity.
Defined.

Module Aliasing.
Import Interpreter.

Lemma list_added_to (l : positive) (x : value) (st : state) (elements : list value) :
  lists st !! l = Some elements ->
  call_method added_to (VList l) x st = Done (OpOk (VList l)) (set_list st l (elements ++ [x])).
Proof. intros H. cbn [call_method]. rewrite H. reflexivity. Qed.

Lemma list_subtracted (l : positive) (z : Z) (k : nat) (st : state) (elements : list value) :
  lists st !! l = Some elements -> py_index (length elements) z = Some k ->
  call_method subtracted_by (VList l) (VNumber (PInt z)) st
  = Done (OpOk (VList l)) (set_list st l (remove_nth k elements)).
Proof. intros H Hk. unfold call_method, list_subtracted_by. rewrite H, Hk. reflexivity. Qed.

Lemma plus_on_list (f : nat) (a b : node) (context : positive) (st st1 st2 : state)
    (l : positive) (x : value) (elements : list value) :
  visit f a context st = Done (ROk (VList l)) st1 ->
  visit f b context st1 = Done (ROk x) st2 ->
  lists st2 !! l = Some elements ->
  visit (S f) (BinOpNode a (tok TT_PLUS) b) context st
  = Done (ROk (VList l)) (set_list st2 l (elements ++ [x])).
Proof.
  intros Ha Hb Hl. cbn [visit]. rewrite Ha. cbn [obind]. rewrite Hb. cbn [obind method_of tok ttype].
  rewrite (list_added_to l x st2 elements Hl). reflexivity.
Qed.

Lemma set_list_seen (st : state) (l : positive) (elements : list value) :
  lists (set_list st l elements) !! l = Some elements.
Proof. unfold set_list. cbn -[insert lookup]. apply lookup_insert_eq. Qed.

Lemma varaccess_list (f : nat) (x : string) (context t l : positive) (st : state) :
  ctx_table st context = Some t -> get st t x = Some (VList l) ->
  visit (S f) (VarAccessNode x) context st = Done (ROk (VList l)) st.
Proof. intros Ht Hg. cbn [visit]. rewrite Ht, Hg. reflexivity. Qed.

End Aliasing.

(** C8 (confirmed): [a + x] on a List [a] (reference [l] to its backing
    list) appends [x] to that very backing list and evaluates to the same
    reference [l]; [a - i] removes the element at a valid index from it
    the same way; a variable lookup of a List yields the same reference;
    so the change is seen through every value holding [l]. *)
Theorem list_plus_aliases :
  (forall (f : nat) (a b : node) (context : positive) (st st1 st2 : Interpreter.state)
     (l : positive) (x : Interpreter.value) (elements : list Interpreter.value),
   Interpreter.visit f a context st = Interpreter.Done (Interpreter.ROk (Interpreter.VList l)) st1 ->
   Interpreter.visit f b context st1 = Interpreter.Done (Interpreter.ROk x) st2 ->
   Interpreter.lists st2 !! l = Some elements ->
   Interpreter.visit (S f) (BinOpNode a (tok TT_PLUS) b) context st
   = Interpreter.Done (Interpreter.ROk (Interpreter.VList l))
       (Interpreter.set_list st2 l (elements ++ [x])))
  /\
  (forall (l : positive) (x : Interpreter.value) (st : Interpreter.state)
     (elements : list Interpreter.value),
   Interpreter.lists st !! l = Some elements ->
   Interpreter.call_method Interpreter.added_to (Interpreter.VList l) x st
   = Interpreter.Done (Interpreter.OpOk (Interpreter.VList l))
       (Interpreter.set_list st l (elements ++ [x])))
  /\
  (forall (l : positive) (z : Z) (k : nat) (st : Interpreter.state)
     (elements : list Interpreter.value),
   Interpreter.lists st !! l = Some elements ->
   Interpreter.py_index (length elements) z = Some k ->
   Interpreter.call_method Interpreter.subtracted_by (Interpreter.VList l)
     (Interpreter.VNumber (PInt z)) st
   = Interpreter.Done (Interpreter.OpOk (Interpreter.VList l))
       (Interpreter.set_list st l (Interpreter.remove_nth k elements)))
  /\
  (forall (st : Interpreter.state) (l : positive) (elements : list Interpreter.value),
   Interpreter.lists (Interpreter.set_list st l elements) !! l = Some elements)
  /\
  (forall (f : nat) (x : string) (context t l : positive) (st : Interpreter.state),
   Interpreter.ctx_table st context = Some t ->
   Interpreter.get st t x = Some (Interpreter.VList l) ->
   Interpreter.visit (S f) (VarAccessNode x) context st
   = Interpreter.Done (Interpreter.ROk (Interpreter.VList l)) st).
Proof.
  split; [exact Aliasing.plus_on_list|].
  split; [exact Aliasing.list_added_to|].
  split; [exact Aliasing.list_subtracted|].
  split; [exact Aliasing.set_list_seen|].
  exact Aliasing.varaccess_list.
Qed.

Lemma list_plus_aliases_witness :
  Interpreter.visit 11 (BinOpNode (VarAccessNode "a") (tok TT_PLUS) (NumberNode (PInt 5)))
    2 aliasing_state
  = Interpreter.Done (Interpreter.ROk (Interpreter.VList 3))
      (Interpreter.set_list aliasing_state 3
         [Interpreter.VNumber (PInt 1); Interpreter.VNumber (PInt 5)])
  /\ match Interpreter.run 100 "VAR a = [1]; VAR b = a + 5; a" (Interpreter.initial_state ∅) with
     | Interpreter.Done (Some (Interpreter.VList l), None) st =>
         Interpreter.lists st !! l
         = Some [Interpreter.VList 3; Interpreter.VList 3; Interpreter.VList 3]
         /\ Interpreter.lists st !! 3%positive
            = Some [Interpreter.VNumber (PInt 1); Interpreter.VNumber (PInt 5)]
     | _ => False
     end.
Proof.
  split.
  - destruct list_plus_aliases as [Hplus _].
    apply (Hplus 10%nat (VarAccessNode "a") (NumberNode (PInt 5)) 2%positive
             aliasing_state aliasing_state aliasing_state 3%positive
             (Interpreter.VNumber (PInt 5)) [Interpreter.VNumber (PInt 1)]);
      vm_compute; reflexivity.
  - vm_compute. split; reflexivity.
Defined.

Module ForLoop.
Import Interpreter.











Section Counter.
Variables (g : nat) (context t : positive) (var_name : string) (end_ step : Z).


End Counter.
End ForLoop.



(** * Further properties of the lexer, the parser and the interpreter *)

Module LexerFacts.
Import Lexer LexerDefs.

Ltac crush_ifs H :=
  repeat match type of H with
  | context [if ?b then _ else _] => destruct b eqn:?
  | context [match ?m with _ => _ end] => destruct m eqn:?
  end.

Lemma convert_number_not_eof (num_str : list ascii) (d p : nat) (cs cs' : cursor) (t : token) :
  convert_number num_str d p cs = LOk (t, cs') -> not_eof t.
Proof.
  unfold convert_number; intro H; crush_ifs H; inversion H; subst; unfold not_eof; simpl; discriminate.
Qed.

Lemma make_exponent_number_not_eof (cs cs' : cursor) (num_str : list ascii) (p : nat) (t : token) :
  make_exponent_number cs num_str p = LOk (t, cs') -> not_eof t.
Proof.
  unfold make_exponent_number; destruct (exponent_sign cs) as [sg cs1].
  destruct (digit_run (fst cs1) (snd cs1)) as [es cs2].
  intro H; crush_ifs H; inversion H; subst; unfold not_eof; simpl; discriminate.
Qed.

Lemma number_loop_not_eof (l : list ascii) (i : nat) (num_str : list ascii) (d p : nat)
    (cs' : cursor) (t : token) :
  number_loop l i num_str d p = LOk (t, cs') -> not_eof t.
Proof.
  revert i num_str d; induction l as [|c l IH]; intros i num_str d H; simpl in H.
  - eapply convert_number_not_eof; eauto.
  - destruct (is_NUMBER_CHAR c); [|eapply convert_number_not_eof; eauto].
    destruct (Ascii.eqb c "."); [destruct (Nat.eqb d 1); [eapply convert_number_not_eof; eauto | eauto]|].
    destruct (Ascii.eqb c "e" || Ascii.eqb c "E")%bool; [eapply make_exponent_number_not_eof; eauto | eauto].
Qed.

Lemma string_loop_not_eof (l : list ascii) (i : nat) (acc : list ascii) (esc : bool) (p : nat)
    (cs' : cursor) (t : token) :
  string_loop l i acc esc p = LOk (t, cs') -> not_eof t.
Proof.
  remember (length l) as n eqn:Hn. assert (Hle : (length l <= n)%nat) by lia. clear Hn.
  revert l i acc esc Hle; induction n as [|n IH]; intros l i acc esc Hle H.
  { destruct l; [discriminate | simpl in Hle; lia]. }
  destruct l as [|c l]; simpl in H; [discriminate|]; simpl in Hle.
  destruct (negb esc && Ascii.eqb c "034"%char)%bool.
  { inversion H; subst; unfold not_eof; simpl; discriminate. }
  destruct (esc && Ascii.eqb c "x")%bool.
  { destruct l as [|h1 [|h2 l']]; [discriminate| |].
    - destruct (negb (is_HEX_CHAR h1)); discriminate.
    - destruct (negb (is_HEX_CHAR h1)); [discriminate|].
      destruct (negb (is_HEX_CHAR h2)); [discriminate|].
      eapply IH; [|exact H]; simpl in Hle; lia. }
  destruct esc; [eapply IH; [|exact H]; lia|].
  destruct (Ascii.eqb c "\"); eapply IH; try exact H; lia.
Qed.

Lemma make_tokens_loop_eof (fuel : nat) (cs : cursor) (tokens toks : list token) :
  Forall not_eof tokens ->
  make_tokens_loop fuel cs tokens = LOk toks ->
  exists pre, toks = pre ++ [tok TT_EOF] /\ Forall not_eof pre.
Proof.
  revert cs tokens; induction fuel as [|fuel IH]; intros [l i] tokens Hall H; simpl in H;
    [discriminate|].
  destruct l as [|c rest]; simpl in H.
  { inversion H; subst; eauto. }
  assert (Happ : forall t, not_eof t -> Forall not_eof (tokens ++ [t]))
    by (intros; apply Forall_app; split; auto).
  destruct (Ascii.eqb c " " || Ascii.eqb c "009")%bool; [eauto|].
  destruct (Ascii.eqb c "#").
  { destruct (skip_comment (c :: rest, i)); [eauto|discriminate|discriminate]. }
  destruct (Ascii.eqb c ";" || Ascii.eqb c "010")%bool.
  { refine (IH _ _ _ H); apply Happ; unfold not_eof; simpl; discriminate. }
  destruct (is_DIGIT c).
  { destruct (make_number (c :: rest, i)) as [[t cs']| |] eqn:E; try discriminate.
    refine (IH _ _ _ H); apply Happ; eapply number_loop_not_eof; exact E. }
  destruct (is_LETTER c).
  { unfold make_identifier in H. destruct (ident_run (fst (c :: rest, i)) (snd (c :: rest, i))).
    refine (IH _ _ _ H); apply Happ. unfold not_eof; simpl.
    intro X; match type of X with context [if ?b then _ else _] => destruct b; discriminate X end. }
  destruct (Ascii.eqb c "034"%char).
  { destruct (make_string (c :: rest, i)) as [[t cs']| |] eqn:E; try discriminate.
    refine (IH _ _ _ H); apply Happ; eapply string_loop_not_eof; exact E. }
  assert (Htwo : forall sc one two, one <> TT_EOF -> two <> TT_EOF ->
            not_eof (fst (two_char sc one two (c :: rest, i)))).
  { intros sc one two H1 H2. unfold two_char; simpl.
    destruct rest as [|c2 r]; simpl; auto. destruct (Ascii.eqb c2 sc); simpl; auto. }
  destruct (Ascii.eqb c "-").
  { specialize (Htwo ">"%char TT_MINUS TT_ARROW ltac:(discriminate) ltac:(discriminate)).
    destruct (two_char _ _ _ _) as [t cs']; refine (IH _ _ _ H); apply Happ; exact Htwo. }
  destruct (Ascii.eqb c "!").
  { unfold make_not_equals in H; simpl in H. destruct rest as [|c2 r]; [discriminate|].
    destruct (Ascii.eqb c2 "="); [|discriminate].
    refine (IH _ _ _ H); apply Happ; unfold not_eof; simpl; discriminate. }
  destruct (Ascii.eqb c "=").
  { specialize (Htwo "="%char TT_ASSIGN TT_EQUAL_TO ltac:(discriminate) ltac:(discriminate)).
    destruct (two_char _ _ _ _) as [t cs']; refine (IH _ _ _ H); apply Happ; exact Htwo. }
  destruct (Ascii.eqb c "<").
  { specialize (Htwo "="%char TT_LESS_THAN TT_LESS_THAN_EQUAL_TO ltac:(discriminate) ltac:(discriminate)).
    destruct (two_char _ _ _ _) as [t cs']; refine (IH _ _ _ H); apply Happ; exact Htwo. }
  destruct (Ascii.eqb c ">").
  { specialize (Htwo "="%char TT_GREATER_THAN TT_GREATER_THAN_EQUAL_TO ltac:(discriminate) ltac:(discriminate)).
    destruct (two_char _ _ _ _) as [t cs']; refine (IH _ _ _ H); apply Happ; exact Htwo. }
  destruct (single_char_token c) as [ty|] eqn:E; [|discriminate].
  refine (IH _ _ _ H); apply Happ. unfold not_eof; simpl.
  unfold single_char_token in E.
  repeat match type of E with context [if ?b then _ else _] => destruct b end;
    inversion E; discriminate.
Qed.

(** Every token list [make_tokens] produces ends in a single EOF token: no
    token before the last one is an EOF token. *)
Theorem make_tokens_ends_with_eof (text : string) (toks : list token) :
  make_tokens text = LOk toks ->
  exists pre, toks = pre ++ [tok TT_EOF] /\ Forall (fun t => ttype t <> TT_EOF) pre.
Proof. apply make_tokens_loop_eof; constructor. Qed.

Lemma comment_loop_line (cs rest : list ascii) (i : nat) :
  ~ In "010"%char cs ->
  comment_loop false (cs ++ "010"%char :: rest) i = LOk (rest, S (i + length cs)).
Proof.
  revert i; induction cs as [|c cs IH]; intros i Hin; simpl.
  - rewrite Nat.add_0_r; reflexivity.
  - rewrite andb_false_r.
    destruct (Ascii.eqb c "010") eqn:E.
    + apply Ascii.eqb_eq in E; subst; exfalso; apply Hin; left; reflexivity.
    + simpl. rewrite IH by (intro; apply Hin; right; assumption). f_equal; f_equal; lia.
Qed.

Lemma comment_loop_true_cons (c : ascii) (cs : list ascii) (i : nat) :
  comment_loop true (c :: cs) i =
  if Ascii.eqb c "*" then
    match cs with
    | c2 :: cs2 => if Ascii.eqb c2 "#" then LOk (cs2, S (S i)) else comment_loop true cs (S i)
    | [] => comment_loop true cs (S i)
    end
  else comment_loop true cs (S i).
Proof. simpl. rewrite andb_true_r. destruct (Ascii.eqb c "*"); reflexivity. Qed.

Lemma comment_loop_open (cs : list ascii) (i : nat) :
  has_star_hash cs = false ->
  comment_loop true cs i = LErr (LexSyntaxError (i + length cs) "unterminated_ML_comment").
Proof.
  revert i; induction cs as [|c cs IH]; intros i H.
  - simpl; rewrite Nat.add_0_r; reflexivity.
  - rewrite comment_loop_true_cons.
    destruct cs as [|c2 cs'].
    + destruct (Ascii.eqb c "*"); simpl; f_equal; f_equal; lia.
    + simpl in H. apply orb_false_iff in H as [H1 H2].
      destruct (Ascii.eqb c "*") eqn:Ec; simpl in H1.
      * rewrite H1. rewrite IH by exact H2. simpl. f_equal; f_equal; lia.
      * rewrite IH by exact H2. simpl. f_equal; f_equal; lia.
Qed.

Lemma comment_loop_close (pre rest : list ascii) (i : nat) :
  has_star_hash pre = false ->
  comment_loop true (pre ++ "*"%char :: "#"%char :: rest) i = LOk (rest, i + length pre + 2)%nat.
Proof.
  revert i; induction pre as [|c pre IH]; intros i H.
  - simpl; f_equal; f_equal; lia.
  - simpl app. rewrite comment_loop_true_cons.
    destruct pre as [|c2 pre'].
    + simpl. destruct (Ascii.eqb c "*") eqn:Ec; simpl.
      * pose proof (IH (S i) eq_refl) as IH'; simpl app in IH'; try rewrite IH'. f_equal; f_equal; lia.
      * pose proof (IH (S i) eq_refl) as IH'; simpl app in IH'; try rewrite IH'. f_equal; f_equal; lia.
    + simpl in H. apply orb_false_iff in H as [H1 H2].
      simpl app. destruct (Ascii.eqb c "*") eqn:Ec; simpl in H1.
      * rewrite H1. pose proof (IH (S i) H2) as IH'; simpl app in IH'; try rewrite IH'. simpl. f_equal; f_equal; lia.
      * pose proof (IH (S i) H2) as IH'; simpl app in IH'; try rewrite IH'. simpl. f_equal; f_equal; lia.
Qed.

(** A [#] comment is skipped up to and including its newline; a [#*] ... [*#]
    comment is skipped up to its closing [*#], and lexing goes on right after
    it; a [#*] comment with no closing [*#] is the error
    [unterminated_ML_comment] at the end of the text. *)
Theorem comments_skipped (f : nat) (cs pre body rest : list ascii) (i : nat) (tokens : list token) :
  (~ In "010"%char cs -> hd "010"%char cs <> "*"%char ->
   make_tokens_loop (S f) ("#"%char :: cs ++ "010"%char :: rest, i) tokens
   = make_tokens_loop f (rest, i + length cs + 2)%nat tokens) /\
  (has_star_hash ("*"%char :: pre) = false ->
   make_tokens_loop (S f) ("#"%char :: "*"%char :: pre ++ "*"%char :: "#"%char :: rest, i) tokens
   = make_tokens_loop f (rest, i + length pre + 4)%nat tokens) /\
  (has_star_hash ("*"%char :: body) = false ->
   make_tokens_loop (S f) ("#"%char :: "*"%char :: body, i) tokens
   = LErr (LexSyntaxError (i + length body + 2) "unterminated_ML_comment")).
Proof.
  split; [|split].
  - intros Hin Hhd. cbn -[comment_loop]. unfold skip_comment; simpl.
    assert (Hm : match cs ++ "010"%char :: rest with c :: _ => Ascii.eqb c "*" | [] => false end = false).
    { destruct cs as [|c cs']; simpl in *; [reflexivity|].
      apply Ascii.eqb_neq; exact Hhd. }
    rewrite Hm, comment_loop_line by exact Hin. f_equal; f_equal; lia.
  - intros H. cbn -[comment_loop]. unfold skip_comment; cbn -[comment_loop].
    change ("*"%char :: pre ++ "*"%char :: "#"%char :: rest)
      with (("*"%char :: pre) ++ "*"%char :: "#"%char :: rest).
    rewrite (comment_loop_close ("*"%char :: pre) rest _ H). simpl. f_equal; f_equal; lia.
  - intros H. cbn -[comment_loop]. unfold skip_comment; cbn -[comment_loop].
    rewrite (comment_loop_open ("*"%char :: body) _ H). simpl. f_equal; f_equal; lia.
Qed.

Lemma string_loop_plain (s rest : list ascii) (i : nat) (acc : list ascii) (p : nat) :
  Forall plain_char s ->
  string_loop (s ++ "034"%char :: rest) i acc false p
  = LOk (mk_token TT_STRING (TVStr (string_of_list_ascii (acc ++ s))), (rest, S (i + length s))).
Proof.
  revert i acc; induction s as [|c s IH]; intros i acc Hs; simpl.
  - rewrite app_nil_r, Nat.add_0_r; reflexivity.
  - inversion Hs as [|? ? [Hq Hb] Hs']; subst.
    apply Ascii.eqb_neq in Hq, Hb. rewrite Hq, Hb. simpl.
    rewrite IH by exact Hs'. rewrite <- app_assoc. simpl. f_equal; f_equal; f_equal; lia.
Qed.

Lemma string_loop_unterminated (s : list ascii) (i : nat) (acc : list ascii) (p : nat) :
  Forall plain_char s ->
  string_loop s i acc false p = LErr (LexSyntaxError p "unterminated_string").
Proof.
  revert i acc; induction s as [|c s IH]; intros i acc Hs; simpl; [reflexivity|].
  inversion Hs as [|? ? [Hq Hb] Hs']; subst.
  apply Ascii.eqb_neq in Hq, Hb. rewrite Hq, Hb. simpl. apply IH, Hs'.
Qed.

(** A double-quoted literal without quotes or backslashes inside is one STRING
    token holding its characters; without a closing quote it is the error
    [unterminated_string] at the opening quote. A backslash escape [\c] (c not
    [x]) adds [ESCAPE_CHARACTERS c]; [\xHH] adds the character with hex code
    HH; [\x] followed by a non-hex character is the error [illegal_hex_char]. *)
Theorem string_literals (s rest : list ascii) (c h1 h2 : ascii) (cs : list ascii)
    (i : nat) (acc : list ascii) (p : nat) :
  (Forall plain_char s ->
   make_string ("034"%char :: s ++ "034"%char :: rest, i)
   = LOk (mk_token TT_STRING (TVStr (string_of_list_ascii s)), (rest, i + length s + 2)%nat)) /\
  (Forall plain_char s ->
   make_string ("034"%char :: s, i) = LErr (LexSyntaxError i "unterminated_string")) /\
  (c <> "x"%char ->
   string_loop ("\"%char :: c :: cs) i acc false p
   = string_loop cs (S (S i)) (acc ++ [ESCAPE_CHARACTERS c]) false p) /\
  (is_HEX_CHAR h1 = true -> is_HEX_CHAR h2 = true ->
   string_loop ("\"%char :: "x"%char :: h1 :: h2 :: cs) i acc false p
   = string_loop cs (i + 4)%nat
       (acc ++ [ascii_of_nat (hex_digit_value h1 * 16 + hex_digit_value h2)]) false p) /\
  (is_HEX_CHAR h1 = false ->
   string_loop ("\"%char :: "x"%char :: h1 :: cs) i acc false p
   = LErr (LexSyntaxError p "illegal_hex_char")).
Proof.
  split; [|split; [|split; [|split]]].
  - intros Hs. unfold make_string; simpl tl; simpl snd.
    rewrite string_loop_plain by exact Hs. f_equal; f_equal; f_equal; lia.
  - intros Hs. unfold make_string; simpl. apply string_loop_unterminated, Hs.
  - intros Hc. simpl. apply Ascii.eqb_neq in Hc. rewrite Hc. reflexivity.
  - intros H1 H2. simpl. rewrite H1, H2. simpl. f_equal; lia.
  - intros H1. simpl. rewrite H1. reflexivity.
Qed.

Lemma ident_run_word (w rest : list ascii) (i : nat) :
  Forall (fun c => (is_LETTER c || is_DIGIT c || Ascii.eqb c "_")%bool = true) w ->
  match rest with
  | c :: _ => (is_LETTER c || is_DIGIT c || Ascii.eqb c "_")%bool = false
  | [] => True
  end ->
  ident_run (w ++ rest) i = (w, (rest, i + length w)%nat).
Proof.
  revert i; induction w as [|c w IH]; intros i Hw Hr; simpl.
  - rewrite Nat.add_0_r. destruct rest as [|c rest]; simpl; [reflexivity|]. rewrite Hr. reflexivity.
  - inversion Hw as [|? ? Hc Hw']; subst. rewrite Hc, IH by assumption.
    rewrite Nat.add_succ_r; reflexivity.
Qed.

(** A run of letters, digits and underscores that starts with a letter becomes
    one token: a KEYWORD when the word is one of [KEYWORDS], an IDENTIFIER
    otherwise, and lexing goes on after the run. *)
Theorem identifier_tokens (f : nat) (w rest : list ascii) (i : nat) (tokens : list token) :
  is_LETTER (hd "0"%char w) = true ->
  Forall (fun c => (is_LETTER c || is_DIGIT c || Ascii.eqb c "_")%bool = true) w ->
  match rest with
  | c :: _ => (is_LETTER c || is_DIGIT c || Ascii.eqb c "_")%bool = false
  | [] => True
  end ->
  make_tokens_loop (S f) (w ++ rest, i) tokens
  = make_tokens_loop f (rest, i + length w)%nat
      (tokens ++ [mk_token (if existsb (String.eqb (string_of_list_ascii w)) KEYWORDS
                            then TT_KEYWORD else TT_IDENTIFIER)
                           (TVStr (string_of_list_ascii w))]).
Proof.
  intros Hhd Hw Hr. destruct w as [|c w']; [discriminate|]. simpl in Hhd.
  assert (Hdig : is_DIGIT c = false).
  { destruct (is_DIGIT c) eqn:D; [exfalso|reflexivity].
    unfold is_DIGIT, is_LETTER, in_range in *.
    set (n := nat_of_ascii c) in *. clearbody n.
    apply andb_true_iff in D as [D1 D2]. apply Nat.leb_le in D1, D2.
    apply orb_true_iff in Hhd as [H|H]; apply andb_true_iff in H as [H1 H2];
      apply Nat.leb_le in H1, H2; vm_compute in D1, D2, H1, H2; lia. }
  cbn [make_tokens_loop app fst snd].
  repeat match goal with
  | |- context [Ascii.eqb c ?x] =>
      let E := fresh "E" in
      destruct (Ascii.eqb c x) eqn:E;
      [apply Ascii.eqb_eq in E; subst c; discriminate Hhd|]
  end.
  simpl orb. rewrite Hdig, Hhd.
  unfold make_identifier. simpl fst; simpl snd.
  change (c :: w' ++ rest) with ((c :: w') ++ rest).
  rewrite ident_run_word by assumption. reflexivity.
Qed.

Lemma digit_not_other (c : ascii) :
  is_DIGIT c = true ->
  Ascii.eqb c "." = false /\ Ascii.eqb c "e" = false /\ Ascii.eqb c "E" = false /\
  is_NUMBER_CHAR c = true.
Proof.
  intros H. unfold is_NUMBER_CHAR. rewrite H.
  repeat split;
    match goal with
    | |- Ascii.eqb c ?x = false =>
        destruct (Ascii.eqb c x) eqn:E; [apply Ascii.eqb_eq in E; subst c; discriminate H | reflexivity]
    end.
Qed.

Lemma number_loop_digits (ds rest : list ascii) (i : nat) (acc : list ascii) (p : nat) :
  Forall (fun c => is_DIGIT c = true) ds ->
  match rest with c :: _ => is_NUMBER_CHAR c = false | [] => True end ->
  number_loop (ds ++ rest) i acc 0 p = convert_number (acc ++ ds) 0 p (rest, i + length ds)%nat.
Proof.
  revert i acc; induction ds as [|c ds IH]; intros i acc Hds Hr.
  - rewrite app_nil_r, Nat.add_0_r. destruct rest as [|c rest]; simpl; [reflexivity|].
    rewrite Hr. reflexivity.
  - inversion Hds as [|? ? Hc Hds']; subst.
    destruct (digit_not_other c Hc) as (Hdot & He & HE & Hn).
    simpl. rewrite Hn, Hdot, He, HE. simpl.
    rewrite IH by assumption. rewrite <- app_assoc. simpl. rewrite Nat.add_succ_r. reflexivity.
Qed.

Lemma digits_value_nonneg (acc : Z) (l : list ascii) : 0 <= acc -> 0 <= digits_value acc l.
Proof.
  revert acc; induction l as [|c l IH]; intros acc H; simpl; [exact H|].
  destruct (is_DIGIT c); apply IH; [lia|exact H].
Qed.

Lemma Qle_bool_int (a b : Z) : Qle_bool (a # 1) (b # 1) = (a <=? b).
Proof. unfold Qle_bool; simpl. rewrite !Z.mul_1_r. reflexivity. Qed.

Lemma digit_bound (c : ascii) : is_DIGIT c = true -> (nat_of_ascii c - 48 <= 9)%nat.
Proof.
  unfold is_DIGIT, in_range. intros H.
  apply andb_prop in H as [_ H]. apply Nat.leb_le in H.
  change (nat_of_ascii "9") with 57%nat in H. lia.
Qed.

Lemma digits_value_bound (acc : Z) (ds : list ascii) :
  Forall (fun c => is_DIGIT c = true) ds -> 0 <= acc ->
  digits_value acc ds < (acc + 1) * 10 ^ Z.of_nat (length ds).
Proof.
  intros Hds; revert acc; induction Hds as [|c ds Hc Hds IH]; intros acc Hacc; simpl.
  - lia.
  - rewrite Hc. pose proof (digit_bound c Hc) as Hb.
    set (d := Z.of_nat (nat_of_ascii c - 48)).
    assert (Hd : 0 <= d <= 9) by (unfold d; lia).
    specialize (IH (acc * 10 + d) ltac:(lia)).
    rewrite Nat2Z.inj_succ, Z.pow_succ_r by lia.
    assert (0 <= 10 ^ Z.of_nat (length ds)) by (apply Z.pow_nonneg; lia).
    nia.
Qed.

(** A run of more than [INT_MAX_STR_DIGITS] digits not followed by a number
    character is the error [number_conversion_error]; a run of at most 307
    digits is an INT token of its decimal value. *)
Theorem integer_literals (ds rest : list ascii) (i : nat) :
  Forall (fun c => is_DIGIT c = true) ds ->
  match rest with c :: _ => is_NUMBER_CHAR c = false | [] => True end ->
  ((INT_MAX_STR_DIGITS < length ds)%nat ->
   make_number (ds ++ rest, i) = LErr (LexSyntaxError i "number_conversion_error")) /\
  ((length ds <= 307)%nat ->
   make_number (ds ++ rest, i)
   = LOk (mk_token TT_INT (TVNum (PInt (digits_value 0 ds))), (rest, i + length ds)%nat)).
Proof.
  intros Hds Hr. unfold make_number; simpl fst; simpl snd.
  rewrite number_loop_digits by assumption. simpl app.
  unfold convert_number. simpl Nat.eqb. cbv iota beta.
  split; intros Hlen.
  - apply Nat.ltb_lt in Hlen. rewrite Hlen. reflexivity.
  - replace (INT_MAX_STR_DIGITS <? length ds)%nat with false
      by (symmetry; apply Nat.ltb_ge; unfold INT_MAX_STR_DIGITS; lia).
    pose proof (digits_value_nonneg 0 ds (Z.le_refl 0)) as Hnn.
    pose proof (digits_value_bound 0 ds Hds (Z.le_refl 0)) as Hlt.
    assert (Hp : 10 ^ Z.of_nat (length ds) <= 10 ^ 307)
      by (apply Z.pow_le_mono_r; lia).
    set (z := digits_value 0 ds) in *.
    assert (Hb : 10 ^ 307 < 10 ^ 308 <= 2 ^ 1024 - 2 ^ 970) by (vm_compute; split; congruence).
    unfold OVERFLOW_BOUND, log10_ge_308. rewrite !Qle_bool_int.
    destruct (z =? 0); [reflexivity|].
    replace (2 ^ 1024 - 2 ^ 970 <=? z) with false by (symmetry; apply Z.leb_gt; lia).
    replace (10 ^ 308 <=? z) with false by (symmetry; apply Z.leb_gt; lia).
    reflexivity.
Qed.

(** A [!] not followed by [=] is the error ExpectedCharError ['=' (after '!')]
    at the [!]; each of the characters [. _ ' @ $ & | ? : { } ~ `] and
    backslash, met where a token starts, is an IllegalCharError at its
    position. *)
Theorem lexer_char_errors (f : nat) (c c2 : ascii) (rest : list ascii) (i : nat)
    (tokens : list token) :
  (c2 <> "="%char ->
   make_tokens_loop (S f) ("!"%char :: c2 :: rest, i) tokens
   = LErr (ExpectedCharError i "'=' (after '!')")) /\
  make_tokens_loop (S f) (["!"%char], i) tokens = LErr (ExpectedCharError i "'=' (after '!')") /\
  (In c ["."; "_"; "'"; "@"; "$"; "&"; "|"; "?"; ":"; "{"; "}"; "~"; "`"; "\"]%char ->
   make_tokens_loop (S f) (c :: rest, i) tokens = LErr (IllegalCharError i c)).
Proof.
  split; [|split].
  - intros H. cbn. unfold make_not_equals; simpl.
    apply Ascii.eqb_neq in H. rewrite H. reflexivity.
  - reflexivity.
  - intros H. repeat (destruct H as [<-|H]; [reflexivity|]). destruct H.
Qed.

Lemma make_tokens_ends_with_eof_witness :
  exists toks, make_tokens "VAR x = 1" = LOk toks /\
    exists pre, toks = pre ++ [tok TT_EOF] /\ Forall (fun t => ttype t <> TT_EOF) pre.
Proof.
  eexists. split; [vm_compute; reflexivity|].
  apply (make_tokens_ends_with_eof "VAR x = 1"). vm_compute. reflexivity.
Defined.

Lemma comments_skipped_witness :
  make_tokens_loop 6 (["#"; " "; "h"; "i"; "010"; "1"]%char, 0%nat) []
  = make_tokens_loop 5 (["1"]%char, 5%nat) [] /\
  make_tokens_loop 6 (["#"; "*"; "a"; "*"; "#"; "1"]%char, 0%nat) []
  = make_tokens_loop 5 (["1"]%char, 5%nat) [] /\
  make_tokens_loop 6 (["#"; "*"; "a"; "b"]%char, 0%nat) []
  = LErr (LexSyntaxError 4 "unterminated_ML_comment").
Proof.
  destruct (comments_skipped 5 [" "; "h"; "i"]%char ["a"]%char ["a"; "b"]%char ["1"]%char 0 [])
    as (A & B & C).
  split; [|split].
  - apply A; [intros H; repeat (destruct H as [H|H]; [discriminate H|]); exact H|discriminate].
  - apply B. reflexivity.
  - apply C. reflexivity.
Defined.

Lemma string_literals_witness :
  make_string (["034"; "h"; "i"; "034"; ";"]%char, 1%nat)
  = LOk (mk_token TT_STRING (TVStr "hi"), ([";"]%char, 5%nat)) /\
  make_string (["034"; "h"; "i"]%char, 1%nat) = LErr (LexSyntaxError 1 "unterminated_string") /\
  string_loop (["\"; "n"; "034"]%char) 1 [] false 0
  = string_loop (["034"]%char) 3 [ESCAPE_CHARACTERS "n"] false 0 /\
  string_loop (["\"; "x"; "4"; "1"; "034"]%char) 1 [] false 0
  = string_loop (["034"]%char) 5 [ascii_of_nat (hex_digit_value "4" * 16 + hex_digit_value "1")] false 0 /\
  string_loop (["\"; "x"; "g"; "1"; "034"]%char) 1 [] false 0
  = LErr (LexSyntaxError 0 "illegal_hex_char").
Proof.
  destruct (string_literals ["h"; "i"]%char [";"]%char "n" "4" "1" ["034"]%char 1 [] 0)
    as (A & B & C & D & _).
  destruct (string_literals ["h"; "i"]%char [";"]%char "n" "g" "1" ["1"; "034"]%char 1 [] 0)
    as (_ & _ & _ & _ & E).
  assert (Hs : Forall plain_char ["h"; "i"]%char)
    by (repeat constructor; discriminate).
  split; [|split; [|split; [|split]]].
  - apply A. exact Hs.
  - apply B. exact Hs.
  - apply C. discriminate.
  - apply D; reflexivity.
  - apply E. reflexivity.
Defined.

Lemma identifier_tokens_witness :
  make_tokens_loop 4 (["a"; "b"; " "; "1"]%char, 0%nat) []
  = make_tokens_loop 3 ([" "; "1"]%char, 2%nat) [mk_token TT_IDENTIFIER (TVStr "ab")].
Proof.
  apply (identifier_tokens 3 ["a"; "b"]%char [" "; "1"]%char 0 []).
  - reflexivity.
  - repeat constructor.
  - reflexivity.
Defined.

Lemma integer_literals_witness :
  make_number (["4"; "2"; ";"]%char, 0%nat)
  = LOk (mk_token TT_INT (TVNum (PInt 42)), ([";"]%char, 2%nat)).
Proof.
  assert (Hds : Forall (fun c => is_DIGIT c = true) ["4"; "2"]%char) by repeat constructor.
  destruct (integer_literals ["4"; "2"]%char [";"]%char 0 Hds eq_refl) as [_ H].
  apply H. simpl. lia.
Defined.

Lemma lexer_char_errors_witness :
  make_tokens_loop 3 (["!"; "x"]%char, 0%nat) [] = LErr (ExpectedCharError 0 "'=' (after '!')") /\
  make_tokens_loop 3 (["@"; "x"]%char, 0%nat) [] = LErr (IllegalCharError 0 "@").
Proof.
  destruct (lexer_char_errors 2 "@" "x" ["x"]%char 0 []) as (A & _ & C).
  destruct (lexer_char_errors 2 "@" "x" []%char 0 []) as (A' & _ & _).
  split.
  - apply A'. discriminate.
  - apply C. right; right; right; left. reflexivity.
Defined.

End LexerFacts.

Module ParserFacts.
Import Parser ParserDefs.

Lemma advance_tokens (n : nat) (ps : pstate) : tokens (Nat.iter n advance ps) = tokens ps.
Proof. induction n; simpl; auto. Qed.

Lemma advance_index (n : nat) (ps : pstate) :
  token_index (Nat.iter n advance ps) = token_index ps + Z.of_nat n.
Proof. induction n; simpl; [lia|]. rewrite IHn. lia. Qed.

(** From a cursor that sits on a token of the list, [reverse n] after [n]
    calls of [advance] gives the cursor back, even when the advances ran past
    the end of the token list. *)
Theorem reverse_undoes_advance (n : nat) (ps : pstate) :
  placed ps -> reverse (Nat.iter n advance ps) n = ps.
Proof.
  intros [Hr Hc]. destruct ps as [toks i cur]; simpl in *.
  unfold reverse. rewrite advance_tokens, advance_index. simpl.
  replace (i + Z.of_nat n - Z.of_nat n) with i by lia.
  unfold update_current_tok.
  replace ((0 <=? i) && (i <? Z.of_nat (length toks)))%bool with true
    by (symmetry; apply andb_true_iff; split; [apply Z.leb_le | apply Z.ltb_lt]; lia).
  f_equal. rewrite Hc at 2.
  (* nth does not depend on the default inside the range *)
  apply nth_indep. apply Nat2Z.inj_lt. rewrite Z2Nat.id by lia. lia.
Qed.

(** Once the cursor is at the last token, further [advance] calls leave the
    current token unchanged. *)
Theorem advance_stops_at_last_token (n : nat) (ps : pstate) :
  Z.of_nat (length (tokens ps)) <= token_index ps + 1 ->
  current_token (Nat.iter n advance ps) = current_token ps.
Proof.
  intros H. induction n; simpl; [reflexivity|].
  unfold update_current_tok. rewrite advance_tokens, advance_index.
  replace ((0 <=? token_index ps + Z.of_nat n + 1) &&
           (token_index ps + Z.of_nat n + 1 <? Z.of_nat (length (tokens ps))))%bool with false.
  - exact IHn.
  - symmetry. apply andb_false_iff. right. apply Z.ltb_ge. lia.
Qed.

(** A program starting with BREAK, CONTINUE or RETURN outside any loop or
    function is rejected with [bad_break], [bad_continue] or [bad_return] at
    position 1, whatever tokens follow. *)
Theorem misplaced_statement_keywords (f : nat) (rest : list token) :
  parse_error (parse (S (S (S f))) (kw "BREAK" :: rest)) = Some (InvalidSyntaxError 1 "bad_break") /\
  parse_error (parse (S (S (S f))) (kw "CONTINUE" :: rest)) = Some (InvalidSyntaxError 1 "bad_continue") /\
  parse_error (parse (S (S (S f))) (kw "RETURN" :: rest)) = Some (InvalidSyntaxError 1 "bad_return").
Proof.
  destruct rest as [|t rest]; repeat split; reflexivity.
Qed.

Lemma init_cons (a : token) (l : list token) : init (a :: l) = mk_ps (a :: l) 0 a.
Proof. reflexivity. Qed.

Lemma advance_to_1 (a b : token) (l : list token) (cur : token) :
  advance (mk_ps (a :: b :: l) 0 cur) = mk_ps (a :: b :: l) 1 b.
Proof.
  unfold advance, update_current_tok; simpl.
  rewrite (proj2 (Z.ltb_lt _ _)) by lia.
  reflexivity.
Qed.

Lemma advance_to_2 (a b c : token) (l : list token) (cur : token) :
  advance (mk_ps (a :: b :: c :: l) 1 cur) = mk_ps (a :: b :: c :: l) 2 c.
Proof.
  unfold advance, update_current_tok; simpl.
  rewrite (proj2 (Z.ltb_lt _ _)) by lia.
  reflexivity.
Qed.

(** [VAR] must be followed by an identifier ([identifier_expected] at position
    1 otherwise), and the identifier by [=] ([equal_expected] at position 2
    otherwise). *)
Theorem var_assignment_errors (f : nat) (t t2 : token) (x : string) (rest : list token) :
  (ttype t <> TT_IDENTIFIER ->
   parse_error (parse (S (S (S (S (S f))))) (kw "VAR" :: t :: rest))
   = Some (InvalidSyntaxError 1 "identifier_expected")) /\
  (ttype t2 <> TT_ASSIGN ->
   parse_error (parse (S (S (S (S (S f)))))
                 (kw "VAR" :: mk_token TT_IDENTIFIER (TVStr x) :: t2 :: rest))
   = Some (InvalidSyntaxError 2 "equal_expected")).
Proof.
  split; intros H.
  - destruct t as [ty v]; destruct ty; try (exfalso; apply H; reflexivity);
      unfold parse; cbn -[advance init]; rewrite !init_cons; cbn -[advance]; rewrite !advance_to_1; reflexivity.
  - destruct t2 as [ty v]; destruct ty; try (exfalso; apply H; reflexivity);
      unfold parse; cbn -[advance init]; rewrite !init_cons; cbn -[advance]; rewrite !advance_to_1;
      cbn -[advance]; rewrite !advance_to_2; reflexivity.
Qed.

Lemma reverse_undoes_advance_witness :
  reverse (Nat.iter 3 advance (init [tok TT_INT; tok TT_EOF])) 3 = init [tok TT_INT; tok TT_EOF].
Proof.
  apply reverse_undoes_advance. split; [cbn; lia|reflexivity].
Defined.

Lemma advance_stops_at_last_token_witness :
  current_token (Nat.iter 5 advance (init [tok TT_EOF])) = tok TT_EOF.
Proof.
  apply (advance_stops_at_last_token 5 (init [tok TT_EOF])). cbn. lia.
Defined.

Lemma var_assignment_errors_witness :
  parse_error (parse 10 [kw "VAR"; tok TT_INT; tok TT_EOF])
  = Some (InvalidSyntaxError 1 "identifier_expected") /\
  parse_error (parse 10 [kw "VAR"; mk_token TT_IDENTIFIER (TVStr "x"); tok TT_PLUS; tok TT_EOF])
  = Some (InvalidSyntaxError 2 "equal_expected").
Proof.
  destruct (var_assignment_errors 5 (tok TT_INT) (tok TT_PLUS) "x" [tok TT_EOF]) as [A B].
  split; [apply A|apply B]; discriminate.
Defined.

End ParserFacts.

Module InterpreterFacts.
Import Interpreter InterpreterDefs.

Lemma table_get_set_other (n : nat) (tabs : gmap positive SymbolTable) (t t' : positive)
    (tab : SymbolTable) (x y : string) (v : value) :
  tabs !! t = Some tab -> y <> x ->
  table_get n (<[t := mk_symtab (<[x := v]> (symbols tab)) (parent tab)]> tabs) t' y
  = table_get n tabs t' y.
Proof.
  intros Ht Hy. revert t'; induction n as [|n IH]; intros t'; [reflexivity|].
  simpl. destruct (decide (t' = t)) as [->|Hne].
  - rewrite lookup_insert_eq, Ht. simpl. rewrite lookup_insert_ne by congruence.
    destruct (symbols tab !! y); [reflexivity|]. destruct (parent tab); [apply IH|reflexivity].
  - rewrite lookup_insert_ne by congruence.
    destruct (tabs !! t') as [tab'|]; [|reflexivity].
    destruct (symbols tab' !! y); [reflexivity|]. destruct (parent tab'); [apply IH|reflexivity].
Qed.

(** After [set] of a name in an existing symbol table, [get] of that name in
    the table gives the value set, and [get] of any other name is what it was
    before. *)
Theorem symbol_table_set_get (st : state) (t : positive) (tab : SymbolTable) (x y : string)
    (v : value) :
  tables st !! t = Some tab ->
  get (set st t x v) t x = Some v /\
  (y <> x -> get (set st t x v) t y = get st t y).
Proof.
  intros Ht. unfold get, set. rewrite Ht. simpl. split.
  - destruct (Pos.to_nat t) eqn:E; [lia|]. simpl.
    rewrite lookup_insert_eq. simpl. rewrite lookup_insert_eq. reflexivity.
  - intros Hy. apply table_get_set_other; assumption.
Qed.

(** [VAR x = e] binds the value of [e] in the context's table and returns it;
    reading [x] afterwards yields that value; reading an unbound name [y] is
    the error ['y' is not defined] in the context. *)
Theorem variable_assign_and_access (f g : nat) (x y : string) (e : node) (c t : positive)
    (tab : SymbolTable) (v : value) (st st0 : state) :
  visit (S f) e c st = Done (ROk v) st0 ->
  ctx_table st0 c = Some t -> tables st0 !! t = Some tab ->
  visit (S (S f)) (VarAssignNode x e) c st = Done (ROk v) (set st0 t x v) /\
  visit (S g) (VarAccessNode x) c (set st0 t x v) = Done (ROk (set_context v c)) (set st0 t x v) /\
  (get st0 t y = None -> y <> x ->
   visit (S g) (VarAccessNode y) c (set st0 t x v)
   = Done (RErr (RTError (String.append "'" (String.append y "' is not defined")) (Some c)))
          (set st0 t x v)).
Proof.
  intros He Hc Ht.
  assert (Hc' : ctx_table (set st0 t x v) c = Some t).
  { unfold ctx_table, set in *. rewrite Ht. simpl. exact Hc. }
  destruct (symbol_table_set_get st0 t tab x y v Ht) as [Hx Hy].
  split; [|split].
  - remember (S f) as f'. simpl. rewrite He. simpl. rewrite Hc. reflexivity.
  - simpl. rewrite Hc', Hx. reflexivity.
  - intros Hn Hne. simpl. rewrite Hc', (Hy Hne), Hn. reflexivity.
Qed.

(** On two integers, [+], [-], [*] give integers; [%] by a non-zero integer
    gives the floor modulus; [^] with a non-negative exponent gives the
    integer power; [0 ^ y] with [y < 0] raises ZeroDivisionError. *)
Theorem integer_arithmetic (f : nat) (x y : Z) (c : positive) (st : state) :
  int_binop f x TT_PLUS y c st = Done (ROk (VNumber (PInt (x + y)))) st /\
  int_binop f x TT_MINUS y c st = Done (ROk (VNumber (PInt (x - y)))) st /\
  int_binop f x TT_MULTIPLY y c st = Done (ROk (VNumber (PInt (x * y)))) st /\
  (y <> 0 -> int_binop f x TT_MODULUS y c st = Done (ROk (VNumber (PInt (x mod y)))) st) /\
  (0 <= y -> int_binop f x TT_POWER y c st = Done (ROk (VNumber (PInt (x ^ y)))) st) /\
  (y < 0 ->
   int_binop f 0 TT_POWER y c st
   = Crash "ZeroDivisionError: 0.0 cannot be raised to a negative power").
Proof.
  unfold int_binop.
  repeat split; intros; cbn;
    unfold num_modulused_by, num_powered_by, is_zero; cbn;
    repeat match goal with
    | H : ?a <> 0 |- context [?a =? 0] => rewrite (proj2 (Z.eqb_neq a 0) H)
    | H : 0 <= ?a |- context [0 <=? ?a] => rewrite (proj2 (Z.leb_le 0 a) H)
    | H : ?a < 0 |- context [0 <=? ?a] => rewrite (proj2 (Z.leb_gt 0 a) H)
    end; reflexivity.
Qed.

Lemma Qle_bool_Z (a b : Z) : Qle_bool (inject_Z a) (inject_Z b) = (a <=? b).
Proof. unfold Qle_bool; simpl. rewrite !Z.mul_1_r. reflexivity. Qed.

Lemma Qeq_bool_Z (a b : Z) : Qeq_bool (inject_Z a) (inject_Z b) = (a =? b).
Proof. unfold Qeq_bool; simpl. rewrite !Z.mul_1_r. reflexivity. Qed.

(** On two integers the six comparisons give 1 or 0; [x AND y] is 0 when x is
    0 and y otherwise; [x OR y] is y when x is 0 and x otherwise; [NOT x] is 1
    exactly when x is 0. *)
Theorem integer_comparisons_and_logic (f : nat) (x y : Z) (c : positive) (st : state) :
  int_binop f x TT_EQUAL_TO y c st = Done (ROk (VNumber (bool_int (x =? y)))) st /\
  int_binop f x TT_NOT_EQUAL_TO y c st = Done (ROk (VNumber (bool_int (negb (x =? y))))) st /\
  int_binop f x TT_LESS_THAN y c st = Done (ROk (VNumber (bool_int (x <? y)))) st /\
  int_binop f x TT_GREATER_THAN y c st = Done (ROk (VNumber (bool_int (y <? x)))) st /\
  int_binop f x TT_LESS_THAN_EQUAL_TO y c st = Done (ROk (VNumber (bool_int (x <=? y)))) st /\
  int_binop f x TT_GREATER_THAN_EQUAL_TO y c st = Done (ROk (VNumber (bool_int (y <=? x)))) st /\
  visit (S (S f)) (BinOpNode (NumberNode (PInt x)) (mk_token TT_KEYWORD (TVStr "AND"))
                     (NumberNode (PInt y))) c st
  = Done (ROk (VNumber (PInt (if x =? 0 then 0 else y)))) st /\
  visit (S (S f)) (BinOpNode (NumberNode (PInt x)) (mk_token TT_KEYWORD (TVStr "OR"))
                     (NumberNode (PInt y))) c st
  = Done (ROk (VNumber (PInt (if x =? 0 then y else x)))) st /\
  visit (S (S f)) (UnaryOpNode (mk_token TT_KEYWORD (TVStr "NOT")) (NumberNode (PInt x))) c st
  = Done (ROk (VNumber (bool_int (x =? 0)))) st.
Proof.
  unfold int_binop, bool_int.
  repeat split; cbn; unfold num_anded_by, num_ored_by, num_notted, int_of, is_zero; cbn;
    rewrite ?Qle_bool_Z, ?Qeq_bool_Z;
    first [ reflexivity
          | rewrite Z.ltb_antisym; reflexivity
          | destruct (x =? 0) eqn:E; [apply Z.eqb_eq in E; subst|]; reflexivity ].
Qed.

(** Dividing or taking the modulus by a number equal to zero, after both
    operands evaluated, gives the run-time errors [division_by_zero] and
    [modulus_by_zero], with the state the operands left. *)
Theorem zero_divisor_errors (f : nat) (a b : node) (c : positive) (st st1 st2 : state)
    (x y : pynum) :
  visit f a c st = Done (ROk (VNumber x)) st1 ->
  visit f b c st1 = Done (ROk (VNumber y)) st2 ->
  is_zero y = true ->
  visit (S f) (BinOpNode a (tok TT_DIVIDE) b) c st
  = Done (RErr (RTError "division_by_zero" None)) st2 /\
  visit (S f) (BinOpNode a (tok TT_MODULUS) b) c st
  = Done (RErr (RTError "modulus_by_zero" None)) st2.
Proof.
  intros Ha Hb Hy. split; cbn [visit]; rewrite Ha; cbn [obind]; rewrite Hb; cbn;
    unfold num_divided_by, num_modulused_by; rewrite Hy; reflexivity.
Qed.

(** AND and OR do not short-circuit: after a numeric left operand, the right
    operand is always evaluated, and an error or signal it gives is the result
    of the whole expression. *)
Theorem logic_operators_evaluate_both_sides (f : nat) (a b : node) (c : positive)
    (st st1 st2 : state) (x : pynum) (r : RTResult) :
  visit f a c st = Done (ROk (VNumber x)) st1 ->
  visit f b c st1 = Done r st2 ->
  should_return r = true ->
  visit (S f) (BinOpNode a (mk_token TT_KEYWORD (TVStr "AND")) b) c st = Done r st2 /\
  visit (S f) (BinOpNode a (mk_token TT_KEYWORD (TVStr "OR")) b) c st = Done r st2.
Proof.
  intros Ha Hb Hr. destruct r; try discriminate;
    split; cbn [visit]; rewrite Ha; cbn [obind]; rewrite Hb; reflexivity.
Qed.


(** [a * b] on two lists extends a's backing list with b's elements and
    returns a itself; b's elements are unchanged unless b is the same list; [a
    * v] with a non-list v is an illegal operation. *)
Theorem list_concatenation (a b : positive) (ea eb : list value) (v : value) (st : state) :
  lists st !! a = Some ea -> lists st !! b = Some eb ->
  call_method multiplied_by (VList a) (VList b) st
  = Done (OpOk (VList a)) (set_list st a (ea ++ eb)) /\
  lists (set_list st a (ea ++ eb)) !! b = Some (if decide (a = b) then ea ++ eb else eb) /\
  ((forall l, v <> VList l) ->
   call_method multiplied_by (VList a) v st = Done (OpErr (RTError "Illegal operation" None)) st).
Proof.
  intros Ha Hb. split; [|split].
  - simpl. rewrite Ha, Hb. reflexivity.
  - unfold set_list; simpl. destruct (decide (a = b)) as [->|Hne].
    + apply lookup_insert_eq.
    + rewrite lookup_insert_ne by exact Hne. exact Hb.
  - intros Hv. destruct v; try reflexivity. exfalso; eapply Hv; reflexivity.
Qed.

Lemma obind_done {A} (m : outcome A) : (let~ r @ st := m in Done r st) = m.
Proof. destruct m; reflexivity. Qed.

Lemma generate_new_context_frame (name : string) (pc : positive) (st : state) :
  exists st1, generate_new_context name (Some pc) st = Done (next st) st1 /\
    lists st1 = lists st /\ out st1 = out st /\
    ctx_table st1 (next st) = Some (Pos.succ (next st)) /\
    exists p, tables st1 !! Pos.succ (next st) = Some (mk_symtab ∅ p).
Proof.
  eexists. split; [reflexivity|]. cbn -[insert lookup empty].
  split; [reflexivity|]. split; [reflexivity|]. split.
  - unfold ctx_table. cbn -[insert lookup empty]. rewrite lookup_insert_eq. reflexivity.
  - eexists. apply lookup_insert_eq.
Qed.

Lemma set_frame (st : state) (t c : positive) (tab : SymbolTable) (x : string) (v : value) :
  tables st !! t = Some tab ->
  lists (set st t x v) = lists st /\ ctx_table (set st t x v) c = ctx_table st c /\
  tables (set st t x v) !! t = Some (mk_symtab (<[x := v]> (symbols tab)) (parent tab)).
Proof.
  intros Ht. unfold set, ctx_table. rewrite Ht. cbn -[insert lookup].
  split; [reflexivity|]. split; [reflexivity|]. apply lookup_insert_eq.
Qed.

Lemma set_out (st : state) (t : positive) (x : string) (v : value) :
  out (set st t x v) = out st.
Proof. unfold set. destruct (tables st !! t); reflexivity. Qed.

Lemma get_here (st : state) (t : positive) (tab : SymbolTable) (x : string) (v : value) :
  tables st !! t = Some tab -> symbols tab !! x = Some v -> get st t x = Some v.
Proof.
  intros Ht Hx. unfold get. destruct (Pos2Nat.is_succ t) as [n E]. rewrite E.
  simpl. rewrite Ht, Hx. reflexivity.
Qed.

Lemma builtin_frame1 (f : nat) (name p : string) (pc : positive) (a : value) (st : state) :
  builtin_arg_names name = Some [p] -> String.eqb name "run" = false ->
  exists st2 t, execute (S f) (VBuiltIn name (Some pc)) [a] st = execute_builtin name (next st) st2 /\
    lists st2 = lists st /\ out st2 = out st /\ ctx_table st2 (next st) = Some t /\
    get st2 t p = Some (set_context a (next st)).
Proof.
  intros Hn Hr. destruct (generate_new_context_frame name pc st) as (st1 & Hg & Hl & Ho & Hc & q & Ht).
  cbn [execute]. rewrite Hg. cbn [obind]. rewrite Hn. unfold check_and_populate_params.
  cbn [check_params length Nat.ltb Nat.leb]. cbn [populate_params]. rewrite Hc, Hr, obind_done.
  destruct (set_frame st1 _ (next st) _ p (set_context a (next st)) Ht) as (Hl' & Hc' & Ht').
  do 2 eexists. split; [reflexivity|]. split; [congruence|]. split; [rewrite set_out; exact Ho|].
  split; [rewrite Hc', Hc; reflexivity|].
  eapply get_here; [exact Ht'|]. apply lookup_insert_eq.
Qed.

Lemma builtin_frame2 (f : nat) (name p1 p2 : string) (pc : positive) (a1 a2 : value) (st : state) :
  builtin_arg_names name = Some [p1; p2] -> String.eqb name "run" = false -> p1 <> p2 ->
  exists st2 t, execute (S f) (VBuiltIn name (Some pc)) [a1; a2] st = execute_builtin name (next st) st2 /\
    lists st2 = lists st /\ ctx_table st2 (next st) = Some t /\
    get st2 t p1 = Some (set_context a1 (next st)) /\
    get st2 t p2 = Some (set_context a2 (next st)).
Proof.
  intros Hn Hr Hp. destruct (generate_new_context_frame name pc st) as (st1 & Hg & Hl & Ho & Hc & q & Ht).
  cbn [execute]. rewrite Hg. cbn [obind]. rewrite Hn. unfold check_and_populate_params.
  cbn [check_params length Nat.ltb Nat.leb]. cbn [populate_params]. rewrite Hc.
  destruct (set_frame st1 _ (next st) _ p1 (set_context a1 (next st)) Ht) as (Hl' & Hc' & Ht').
  rewrite Hc'. rewrite Hc.
  destruct (set_frame _ _ (next st) _ p2 (set_context a2 (next st)) Ht') as (Hl'' & Hc'' & Ht'').
  rewrite Hr, obind_done.
  do 2 eexists. split; [reflexivity|]. split; [congruence|].
  split; [rewrite Hc'', Hc', Hc; reflexivity|]. split.
  - eapply get_here; [exact Ht''|]. cbn -[insert lookup].
    rewrite lookup_insert_ne by congruence. apply lookup_insert_eq.
  - eapply get_here; [exact Ht''|]. apply lookup_insert_eq.
Qed.


Lemma set_context_kind (v : value) (c : positive) :
  is_list_value (set_context v c) = is_list_value v /\
  is_number_value (set_context v c) = is_number_value v.
Proof. destruct v as [| | |? ? ? ? []|? []]; split; reflexivity. Qed.

(** The list built-ins check argument kinds: a non-list first argument gives
    [arg_list_expected] ([len]) or [arg1_list_expected] ([append], [pop],
    [extend]); a non-number index to [pop] gives [arg2_number_expected]; a
    non-list second argument to [extend] gives [arg2_list_expected]. *)
Theorem builtin_argument_errors (f : nat) (pc l : positive) (v w : value) (st : state) :
  is_list_value v = false ->
  (exists st', execute (S f) (VBuiltIn "len" (Some pc)) [v] st
               = Done (RErr (RTError "arg_list_expected" (Some (next st)))) st') /\
  (exists st', execute (S f) (VBuiltIn "append" (Some pc)) [v; w] st
               = Done (RErr (RTError "arg1_list_expected" (Some (next st)))) st') /\
  (exists st', execute (S f) (VBuiltIn "pop" (Some pc)) [v; w] st
               = Done (RErr (RTError "arg1_list_expected" (Some (next st)))) st') /\
  (exists st', execute (S f) (VBuiltIn "extend" (Some pc)) [v; w] st
               = Done (RErr (RTError "arg1_list_expected" (Some (next st)))) st') /\
  (is_number_value v = false ->
   exists st', execute (S f) (VBuiltIn "pop" (Some pc)) [VList l; v] st
               = Done (RErr (RTError "arg2_number_expected" (Some (next st)))) st') /\
  (exists st', execute (S f) (VBuiltIn "extend" (Some pc)) [VList l; v] st
               = Done (RErr (RTError "arg2_list_expected" (Some (next st)))) st').
Proof.
  intros Hv.
  destruct (set_context_kind v (next st)) as [Kl Kn]. rewrite Hv in Kl.
  split; [|split; [|split; [|split; [|split]]]].
  - destruct (builtin_frame1 f "len" "list" pc v st eq_refl eq_refl)
      as (st2 & t & -> & Hl2 & Ho2 & Hc & Hg).
    cbn -[get lookup set_context]. rewrite Hc, Hg.
    destruct (set_context v (next st)); try discriminate Kl; eexists; reflexivity.
  - destruct (builtin_frame2 f "append" "list" "value" pc v w st eq_refl eq_refl ltac:(discriminate))
      as (st2 & t & -> & Hl2 & Hc & Hg1 & Hg2).
    cbn -[get lookup set_context]. rewrite Hc, Hg1, Hg2.
    destruct (set_context v (next st)); try discriminate Kl; eexists; reflexivity.
  - destruct (builtin_frame2 f "pop" "list" "index" pc v w st eq_refl eq_refl ltac:(discriminate))
      as (st2 & t & -> & Hl2 & Hc & Hg1 & Hg2).
    cbn -[get lookup set_context]. rewrite Hc, Hg1, Hg2.
    destruct (set_context v (next st)); try discriminate Kl;
      destruct (set_context w (next st)); eexists; reflexivity.
  - destruct (builtin_frame2 f "extend" "listA" "listB" pc v w st eq_refl eq_refl ltac:(discriminate))
      as (st2 & t & -> & Hl2 & Hc & Hg1 & Hg2).
    cbn -[get lookup set_context]. rewrite Hc, Hg1, Hg2.
    destruct (set_context v (next st)); try discriminate Kl;
      destruct (set_context w (next st)); eexists; reflexivity.
  - intros N. rewrite N in Kn.
    destruct (builtin_frame2 f "pop" "list" "index" pc (VList l) v st eq_refl eq_refl ltac:(discriminate))
      as (st2 & t & -> & Hl2 & Hc & Hg1 & Hg2).
    cbn -[get lookup set_context]. rewrite Hc, Hg1, Hg2.
    destruct (set_context v (next st)); try discriminate Kn; eexists; reflexivity.
  - destruct (builtin_frame2 f "extend" "listA" "listB" pc (VList l) v st eq_refl eq_refl ltac:(discriminate))
      as (st2 & t & -> & Hl2 & Hc & Hg1 & Hg2).
    cbn -[get lookup set_context]. rewrite Hc, Hg1, Hg2.
    destruct (set_context v (next st)); try discriminate Kl; eexists; reflexivity.
Qed.

(** Calling a user function or a built-in with more arguments than parameters
    is the error [too_many_args], with fewer it is [too_few_args], both in the
    function's context; calling a number, string or list is an illegal
    operation. *)
Theorem call_errors (f : nat) (nm : option string) (body : node) (params : list string)
    (auto : bool) (bname : string) (bparams : list string) (pc : positive)
    (args : list value) (v : value) (st : state) :
  ((length params < length args)%nat ->
   exists st', execute (S f) (VFunction nm body params auto (Some pc)) args st
               = Done (RErr (RTError "too_many_args" (Some pc))) st') /\
  ((length args < length params)%nat ->
   exists st', execute (S f) (VFunction nm body params auto (Some pc)) args st
               = Done (RErr (RTError "too_few_args" (Some pc))) st') /\
  (builtin_arg_names bname = Some bparams -> (length bparams < length args)%nat ->
   exists st', execute (S f) (VBuiltIn bname (Some pc)) args st
               = Done (RErr (RTError "too_many_args" (Some pc))) st') /\
  (builtin_arg_names bname = Some bparams -> (length args < length bparams)%nat ->
   exists st', execute (S f) (VBuiltIn bname (Some pc)) args st
               = Done (RErr (RTError "too_few_args" (Some pc))) st') /\
  (is_callable v = false ->
   execute (S f) v args st = Done (RErr (RTError "Illegal operation" None)) st).
Proof.
  split; [|split; [|split; [|split]]].
  - intros H. cbn [execute]. destruct (generate_new_context_frame (match nm with Some n => n | None => "<anonymous>"%string end) pc st) as (st1 & -> & _).
    cbn [obind]. unfold check_and_populate_params, check_params.
    rewrite (proj2 (Nat.ltb_lt _ _) H). eexists. reflexivity.
  - intros H. cbn [execute]. destruct (generate_new_context_frame (match nm with Some n => n | None => "<anonymous>"%string end) pc st) as (st1 & -> & _).
    cbn [obind]. unfold check_and_populate_params, check_params.
    rewrite (proj2 (Nat.ltb_ge (length params) (length args))) by lia.
    rewrite (proj2 (Nat.ltb_lt _ _) H). eexists. reflexivity.
  - intros Hb H. cbn [execute]. destruct (generate_new_context_frame bname pc st) as (st1 & -> & _).
    cbn [obind]. rewrite Hb. unfold check_and_populate_params, check_params.
    rewrite (proj2 (Nat.ltb_lt _ _) H). eexists. reflexivity.
  - intros Hb H. cbn [execute]. destruct (generate_new_context_frame bname pc st) as (st1 & -> & _).
    cbn [obind]. rewrite Hb. unfold check_and_populate_params, check_params.
    rewrite (proj2 (Nat.ltb_ge (length bparams) (length args))) by lia.
    rewrite (proj2 (Nat.ltb_lt _ _) H). eexists. reflexivity.
  - intros H. destruct v; try discriminate H; reflexivity.
Qed.

(** A WHILE loop whose condition is false at the start (a list counts as
    false) never runs its body: the statement form gives [Number.none], the
    expression form a new empty list. *)
Theorem while_false_condition (f : nat) (cond body : node) (c : positive) (v : value)
    (st st1 : state) :
  visit (S f) cond c st = Done (ROk v) st1 -> is_true v = false ->
  visit (S (S f)) (WhileNode cond body true) c st = Done (ROk none) st1 /\
  visit (S (S f)) (WhileNode cond body false) c st = Done (ROk (VList (next st1))) (snd (alloc_list st1 [])).
Proof.
  intros Hc Hv. remember (S f) as g. split; cbn [visit]; subst g; cbn [while_loop];
    rewrite Hc; cbn [obind]; rewrite Hv; reflexivity.
Qed.

(** An IF case whose condition is false (a list or function counts as false)
    is skipped and evaluation goes on with the remaining cases; a case whose
    condition is true gives its branch's value, or [Number.none] for a
    statement branch. *)
Theorem if_case_selection (f : nat) (cond expr : node) (srn : bool) (rest : list (node * node * bool))
    (els : option (node * bool)) (c : positive) (v w : value) (st st1 st2 : state) :
  visit f cond c st = Done (ROk v) st1 ->
  (is_true v = false ->
   visit (S f) (IfNode ((cond, expr, srn) :: rest) els) c st = visit (S f) (IfNode rest els) c st1) /\
  (is_true v = true -> visit f expr c st1 = Done (ROk w) st2 ->
   visit (S f) (IfNode ((cond, expr, srn) :: rest) els) c st
   = Done (ROk (if srn then none else w)) st2).
Proof.
  intros Hc. split.
  - intros Hv. cbn [visit]. rewrite Hc. cbn [obind]. rewrite Hv. reflexivity.
  - intros Hv He. cbn [visit]. rewrite Hc. cbn [obind]. rewrite Hv, He. reflexivity.
Qed.



(** [run] reports a lexer error or a parser error as [(None, error)] without
    touching the state; a text with no tokens at all, such as one holding only
    a comment, is the parser error [statement_syntax_error] at position 0. *)
Theorem run_front_end_errors (f : nat) (text : string) (st : state) (e : error)
    (toks : list token) (ast : ParseResult node) (ps : Parser.pstate) :
  (Lexer.make_tokens text = Lexer.LErr e -> run (S f) text st = Done (None, Some e) st) /\
  (Lexer.make_tokens text = Lexer.LOk toks ->
   Parser.parse (Parser.parse_fuel toks) toks = Parser.PDone ast ps -> pr_error ast = Some e ->
   run (S f) text st = Done (None, Some e) st) /\
  (Lexer.make_tokens text = Lexer.LOk [tok TT_EOF] ->
   run (S f) text st = Done (None, Some (InvalidSyntaxError 0 "statement_syntax_error")) st).
Proof.
  split; [|split].
  - intros H. unfold run. cbn [run_program]. rewrite H. reflexivity.
  - intros H Hp He. unfold run. cbn [run_program]. rewrite H, Hp, He. reflexivity.
  - intros H. unfold run. cbn [run_program]. rewrite H. reflexivity.
Qed.

(** IMPORT of a path not in the file system is the error [Can't find file
    'path'] in the importing context; IMPORT of a file whose text does not lex
    wraps the lexer error as [Failed to IMPORT script] with the file's last
    path component. *)
Theorem import_errors (f : nat) (sn : node) (c : positive) (path code : string) (e : error)
    (st st1 : state) :
  visit (S f) sn c st = Done (ROk (VString path)) st1 ->
  (files st1 !! path = None ->
   visit (S (S f)) (ImportNode sn) c st
   = Done (RErr (RTError (String.append "Can't find file '" (String.append path "'")) (Some c))) st1) /\
  (files st1 !! path = Some code -> Lexer.make_tokens code = Lexer.LErr e ->
   visit (S (S f)) (ImportNode sn) c st
   = Done (RErr (RTErrorWrapped "Failed to IMPORT script" (last_component path) e (Some c))) st1).
Proof.
  intros Hs. remember (S f) as g. split.
  - intros Hf. cbn [visit]. rewrite Hs. cbn [obind]. rewrite Hf. reflexivity.
  - intros Hf Hl. cbn [visit]. rewrite Hs. cbn [obind]. rewrite Hf. subst g.
    cbn [run_program]. rewrite Hl. reflexivity.
Qed.

(** Strings support only [+], which concatenates; every other operator on a
    string, including comparisons, is an illegal operation; a number operator
    with a non-number right operand is an illegal operation; unary minus and
    NOT on a string are illegal operations. *)
Theorem string_and_mixed_operations (m : method) (s s' : string) (a : pynum) (v : value)
    (st : state) :
  call_method added_to (VString s) (VString s') st = Done (OpOk (VString (String.append s s'))) st /\
  (m <> added_to ->
   call_method m (VString s) v st = Done (OpErr (RTError "Illegal operation" None)) st) /\
  (is_number_value v = false ->
   call_method m (VNumber a) v st = Done (OpErr (RTError "Illegal operation" None)) st) /\
  unary_op (tok TT_MINUS) (VString s) st = Done (OpErr (RTError "Illegal operation" None)) st /\
  unary_op (mk_token TT_KEYWORD (TVStr "NOT")) (VString s) st
  = Done (OpErr (RTError "Illegal operation" None)) st.
Proof.
  split; [reflexivity|]. split; [|split; [|split; reflexivity]].
  - intros Hm. destruct m; try (exfalso; apply Hm; reflexivity); destruct v; reflexivity.
  - intros Hv. destruct v; try discriminate Hv; reflexivity.
Qed.

(** [print] returns [Number.none] and appends its argument to the output;
    [is_number], [is_string], [is_list] and [is_function] return TRUE exactly
    when the argument has that kind, built-ins counting as functions. *)
Theorem builtin_print_and_type_tests (f : nat) (pc : positive) (v : value) (st : state) :
  (exists st', execute (S f) (VBuiltIn "print" (Some pc)) [v] st = Done (ROk none) st' /\
     lists st' = lists st /\ out st' = out st ++ [set_context v (next st)]) /\
  (exists st', execute (S f) (VBuiltIn "is_number" (Some pc)) [v] st
     = Done (ROk (bool_value (is_number_value v))) st') /\
  (exists st', execute (S f) (VBuiltIn "is_string" (Some pc)) [v] st
     = Done (ROk (bool_value (match v with VString _ => true | _ => false end))) st') /\
  (exists st', execute (S f) (VBuiltIn "is_list" (Some pc)) [v] st
     = Done (ROk (bool_value (is_list_value v))) st') /\
  (exists st', execute (S f) (VBuiltIn "is_function" (Some pc)) [v] st
     = Done (ROk (bool_value (is_callable v))) st').
Proof.
  split; [|split; [|split; [|split]]].
  - destruct (builtin_frame1 f "print" "value" pc v st eq_refl eq_refl)
      as (st2 & t & -> & Hl2 & Ho2 & Hc & Hg).
    cbn -[get set_context]. rewrite Hc, Hg.
    eexists. split; [reflexivity|]. split; [exact Hl2|].
    unfold write_out. cbn. rewrite Ho2. reflexivity.
  - destruct (builtin_frame1 f "is_number" "value" pc v st eq_refl eq_refl)
      as (st2 & t & -> & Hl2 & Ho2 & Hc & Hg).
    cbn -[get set_context]. rewrite Hc, Hg. eexists.
    destruct v as [| | |? ? ? ? []|? []]; reflexivity.
  - destruct (builtin_frame1 f "is_string" "value" pc v st eq_refl eq_refl)
      as (st2 & t & -> & Hl2 & Ho2 & Hc & Hg).
    cbn -[get set_context]. rewrite Hc, Hg. eexists.
    destruct v as [| | |? ? ? ? []|? []]; reflexivity.
  - destruct (builtin_frame1 f "is_list" "value" pc v st eq_refl eq_refl)
      as (st2 & t & -> & Hl2 & Ho2 & Hc & Hg).
    cbn -[get set_context]. rewrite Hc, Hg. eexists.
    destruct v as [| | |? ? ? ? []|? []]; reflexivity.
  - destruct (builtin_frame1 f "is_function" "value" pc v st eq_refl eq_refl)
      as (st2 & t & -> & Hl2 & Ho2 & Hc & Hg).
    cbn -[get set_context]. rewrite Hc, Hg. eexists.
    destruct v as [| | |? ? ? ? []|? []]; reflexivity.
Qed.

Lemma populate_params_binds (ps : list string) (args : list value) (ec t : positive)
    (st : state) (tab : SymbolTable) :
  ctx_table st ec = Some t -> tables st !! t = Some tab -> NoDup ps ->
  exists tab', tables (populate_params ps args ec st) !! t = Some tab' /\
    ctx_table (populate_params ps args ec st) ec = Some t /\
    lists (populate_params ps args ec st) = lists st /\
    out (populate_params ps args ec st) = out st /\
    (forall x, x ∉ ps -> symbols tab' !! x = symbols tab !! x) /\
    (forall i p a, nth_error ps i = Some p -> nth_error args i = Some a ->
       symbols tab' !! p = Some (set_context a ec)).
Proof.
  revert args st tab. induction ps as [|p ps IH]; intros args st tab Hc Ht Hnd.
  - exists tab. cbn. repeat split; auto. intros [] ? ? H; discriminate H.
  - destruct args as [|a args].
    + exists tab. cbn. repeat split; auto. intros i p' a' _ H. destruct i; discriminate H.
    + cbn [populate_params]. rewrite Hc.
      destruct (set_frame st t ec tab p (set_context a ec) Ht) as (Hl1 & Hc1 & Ht1).
      apply NoDup_cons in Hnd as [Hp Hnd].
      destruct (IH args _ _ (eq_trans Hc1 Hc) Ht1 Hnd) as (tab' & Ht' & Hc' & Hl' & Ho' & Hkeep & Hbind).
      exists tab'. split; [exact Ht'|]. split; [exact Hc'|]. split; [congruence|].
      split; [rewrite Ho', set_out; reflexivity|]. split.
      * intros x Hx. rewrite Hkeep by set_solver. cbn. apply lookup_insert_ne. set_solver.
      * intros [|i] p' a' H1 H2.
        -- injection H1 as <-. injection H2 as <-. rewrite Hkeep by exact Hp. cbn. apply lookup_insert_eq.
        -- exact (Hbind i p' a' H1 H2).
Qed.

(** Calling a user function with as many arguments as distinct parameters
    binds each parameter to its argument in a fresh table; the call gives the
    body's value (or [Number.none] if the function does not auto-return), the
    value of a RETURN, or the body's error. *)
Theorem function_call (f : nat) (nm : option string) (body : node) (params : list string)
    (auto : bool) (pc : positive) (args : list value) (st : state) :
  NoDup params -> length params = length args ->
  exists st2 t,
    lists st2 = lists st /\ ctx_table st2 (next st) = Some t /\
    (forall i p a, nth_error params i = Some p -> nth_error args i = Some a ->
       get st2 t p = Some (set_context a (next st))) /\
    (forall v st3, visit f body (next st) st2 = Done (ROk v) st3 ->
       execute (S f) (VFunction nm body params auto (Some pc)) args st
       = Done (ROk (if auto then v else none)) st3) /\
    (forall v st3, visit f body (next st) st2 = Done (RRet v) st3 ->
       execute (S f) (VFunction nm body params auto (Some pc)) args st = Done (ROk v) st3) /\
    (forall e st3, visit f body (next st) st2 = Done (RErr e) st3 ->
       execute (S f) (VFunction nm body params auto (Some pc)) args st = Done (RErr e) st3).
Proof.
  intros Hnd Hlen.
  destruct (generate_new_context_frame (match nm with Some n => n | None => "<anonymous>"%string end) pc st)
    as (st1 & Hg & Hl & Ho & Hc & q & Ht).
  destruct (populate_params_binds params args (next st) _ st1 _ Hc Ht Hnd)
    as (tab' & Ht' & Hc' & Hl' & _ & _ & Hbind).
  assert (Hx : execute (S f) (VFunction nm body params auto (Some pc)) args st
               = let~ r @ st := visit f body (next st) (populate_params params args (next st) st1) in
                 match r with
                 | ROk thevalue => Done (ROk (if auto then thevalue else none)) st
                 | RRet func_return_value => Done (ROk func_return_value) st
                 | _ => Done r st
                 end).
  { cbn [execute]. rewrite Hg. cbn [obind]. unfold check_and_populate_params, check_params.
    rewrite Hlen, Nat.ltb_irrefl. reflexivity. }
  exists (populate_params params args (next st) st1), (Pos.succ (next st)).
  split; [congruence|]. split; [exact Hc'|]. split; [|split; [|split]].
  - intros i p a H1 H2. eapply get_here; [exact Ht'|]. exact (Hbind i p a H1 H2).
  - intros v st3 H. rewrite Hx, H. reflexivity.
  - intros v st3 H. rewrite Hx, H. reflexivity.
  - intros e st3 H. rewrite Hx, H. reflexivity.
Qed.

Lemma symbol_table_set_get_witness :
  get (set facts_state 1 "x" (VNumber (PInt 7))) 1 "x" = Some (VNumber (PInt 7)) /\
  get (set facts_state 1 "x" (VNumber (PInt 7))) 1 "TRUE" = get facts_state 1 "TRUE".
Proof.
  destruct (symbol_table_set_get facts_state 1 (mk_symtab global_symbols None) "x" "TRUE"
              (VNumber (PInt 7)) eq_refl) as [A B].
  split; [exact A|apply B; discriminate].
Defined.

Lemma variable_assign_and_access_witness :
  visit 3 (VarAssignNode "x" (NumberNode (PInt 7))) 2 facts_state
  = Done (ROk (VNumber (PInt 7))) (set facts_state 1 "x" (VNumber (PInt 7))) /\
  visit 1 (VarAccessNode "x") 2 (set facts_state 1 "x" (VNumber (PInt 7)))
  = Done (ROk (VNumber (PInt 7))) (set facts_state 1 "x" (VNumber (PInt 7))) /\
  visit 1 (VarAccessNode "y") 2 (set facts_state 1 "x" (VNumber (PInt 7)))
  = Done (RErr (RTError (String.append "'" (String.append "y" "' is not defined")) (Some 2%positive)))
      (set facts_state 1 "x" (VNumber (PInt 7))).
Proof.
  destruct (variable_assign_and_access 1 0 "x" "y" (NumberNode (PInt 7)) 2 1
              (mk_symtab global_symbols None) (VNumber (PInt 7)) facts_state facts_state
              eq_refl eq_refl eq_refl) as (A & B & C).
  split; [exact A|split; [exact B|]].
  apply C; [reflexivity|discriminate].
Defined.

Lemma integer_arithmetic_witness :
  int_binop 0 (-7) TT_MODULUS 2 2 facts_state = Done (ROk (VNumber (PInt 1))) facts_state /\
  int_binop 0 2 TT_POWER 10 2 facts_state = Done (ROk (VNumber (PInt 1024))) facts_state /\
  int_binop 0 0 TT_POWER (-1) 2 facts_state
  = Crash "ZeroDivisionError: 0.0 cannot be raised to a negative power".
Proof.
  destruct (integer_arithmetic 0 (-7) 2 2 facts_state) as (_ & _ & _ & M & _).
  destruct (integer_arithmetic 0 2 10 2 facts_state) as (_ & _ & _ & _ & P & _).
  destruct (integer_arithmetic 0 2 (-1) 2 facts_state) as (_ & _ & _ & _ & _ & Z0).
  split; [|split].
  - apply M. lia.
  - apply P. lia.
  - apply Z0. lia.
Defined.

Lemma zero_divisor_errors_witness :
  visit 2 (BinOpNode (NumberNode (PInt 7)) (tok TT_DIVIDE) (NumberNode (PInt 0))) 2 facts_state
  = Done (RErr (RTError "division_by_zero" None)) facts_state /\
  visit 2 (BinOpNode (NumberNode (PInt 7)) (tok TT_MODULUS) (NumberNode (PInt 0))) 2 facts_state
  = Done (RErr (RTError "modulus_by_zero" None)) facts_state.
Proof.
  apply (zero_divisor_errors 1 (NumberNode (PInt 7)) (NumberNode (PInt 0)) 2
           facts_state facts_state facts_state (PInt 7) (PInt 0)); reflexivity.
Defined.

Lemma logic_operators_evaluate_both_sides_witness :
  visit 2 (BinOpNode (NumberNode (PInt 0)) (mk_token TT_KEYWORD (TVStr "AND")) (VarAccessNode "zz"))
    2 facts_state
  = Done (RErr (RTError (not_defined "zz") (Some 2%positive))) facts_state /\
  visit 2 (BinOpNode (NumberNode (PInt 1)) (mk_token TT_KEYWORD (TVStr "OR")) (VarAccessNode "zz"))
    2 facts_state
  = Done (RErr (RTError (not_defined "zz") (Some 2%positive))) facts_state.
Proof.
  split.
  - apply (logic_operators_evaluate_both_sides 1 (NumberNode (PInt 0)) (VarAccessNode "zz") 2
             facts_state facts_state facts_state (PInt 0)); reflexivity.
  - apply (logic_operators_evaluate_both_sides 1 (NumberNode (PInt 1)) (VarAccessNode "zz") 2
             facts_state facts_state facts_state (PInt 1)); reflexivity.
Defined.


Lemma list_concatenation_witness :
  call_method multiplied_by (VList 3) (VList 3) list_state
  = Done (OpOk (VList 3))
      (set_list list_state 3 [VNumber (PInt 1); VNumber (PInt 2); VNumber (PInt 1); VNumber (PInt 2)]) /\
  call_method multiplied_by (VList 3) (VNumber (PInt 1)) list_state
  = Done (OpErr (RTError "Illegal operation" None)) list_state.
Proof.
  destruct (list_concatenation 3 3 [VNumber (PInt 1); VNumber (PInt 2)]
              [VNumber (PInt 1); VNumber (PInt 2)] (VNumber (PInt 1)) list_state eq_refl eq_refl)
    as (A & _ & C).
  split; [exact A|]. apply C. intros l H. discriminate H.
Defined.


Lemma builtin_argument_errors_witness :
  (exists st', execute 1 (VBuiltIn "len" (Some 2%positive)) [VString "ab"] list_state
               = Done (RErr (RTError "arg_list_expected" (Some (next list_state)))) st') /\
  (exists st', execute 1 (VBuiltIn "pop" (Some 2%positive)) [VList 3; VString "ab"] list_state
               = Done (RErr (RTError "arg2_number_expected" (Some (next list_state)))) st') /\
  (exists st', execute 1 (VBuiltIn "extend" (Some 2%positive)) [VList 3; VString "ab"] list_state
               = Done (RErr (RTError "arg2_list_expected" (Some (next list_state)))) st').
Proof.
  destruct (builtin_argument_errors 0 2 3 (VString "ab") (VNumber (PInt 0)) list_state eq_refl)
    as (L & _ & _ & _ & P & E).
  split; [exact L|split; [apply P; reflexivity|exact E]].
Defined.

Lemma call_errors_witness :
  (exists st', execute 1 (VFunction (Some "f") (VarAccessNode "a") ["a"] true (Some 2%positive))
                 [VNumber (PInt 1); VNumber (PInt 2)] facts_state
               = Done (RErr (RTError "too_many_args" (Some 2%positive))) st') /\
  (exists st', execute 1 (VFunction (Some "f") (VarAccessNode "a") ["a"] true (Some 2%positive)) [] facts_state
               = Done (RErr (RTError "too_few_args" (Some 2%positive))) st') /\
  (exists st', execute 1 (VBuiltIn "append" (Some 2%positive)) [VList 3] facts_state
               = Done (RErr (RTError "too_few_args" (Some 2%positive))) st') /\
  execute 1 (VString "f") [] facts_state = Done (RErr (RTError "Illegal operation" None)) facts_state.
Proof.
  destruct (call_errors 0 (Some "f") (VarAccessNode "a") ["a"] true "append" ["list"; "value"] 2
              [VNumber (PInt 1); VNumber (PInt 2)] (VString "f") facts_state) as (A & _ & _ & _ & E).
  destruct (call_errors 0 (Some "f") (VarAccessNode "a") ["a"] true "append" ["list"; "value"] 2
              [] (VString "f") facts_state) as (_ & B & _ & _ & _).
  destruct (call_errors 0 (Some "f") (VarAccessNode "a") ["a"] true "append" ["list"; "value"] 2
              [VList 3] (VString "f") facts_state) as (_ & _ & _ & D & _).
  split; [apply A; cbn; lia|split; [apply B; cbn; lia|split]].
  - apply D; [reflexivity|cbn; lia].
  - apply E. reflexivity.
Defined.

Lemma while_false_condition_witness :
  visit 3 (WhileNode (ListNode [NumberNode (PInt 1)]) (VarAccessNode "zz") true) 2 facts_state
  = Done (ROk none) (snd (alloc_list facts_state [VNumber (PInt 1)])).
Proof.
  apply (while_false_condition 1 (ListNode [NumberNode (PInt 1)]) (VarAccessNode "zz") 2
           (VList (next facts_state)) facts_state (snd (alloc_list facts_state [VNumber (PInt 1)])));
    reflexivity.
Defined.

Lemma if_case_selection_witness :
  visit 2 (IfNode [(ListNode [], NumberNode (PInt 1), false)] (Some (NumberNode (PInt 2), false)))
    2 facts_state
  = visit 2 (IfNode [] (Some (NumberNode (PInt 2), false))) 2 (snd (alloc_list facts_state [])) /\
  visit 2 (IfNode [(StringNode "s", NumberNode (PInt 1), false)] None) 2 facts_state
  = Done (ROk (VNumber (PInt 1))) facts_state.
Proof.
  destruct (if_case_selection 1 (ListNode []) (NumberNode (PInt 1)) false [] (Some (NumberNode (PInt 2), false))
              2 (VList (next facts_state)) (VNumber (PInt 1)) facts_state
              (snd (alloc_list facts_state [])) (snd (alloc_list facts_state [])) eq_refl) as [A _].
  destruct (if_case_selection 1 (StringNode "s") (NumberNode (PInt 1)) false [] None
              2 (VString "s") (VNumber (PInt 1)) facts_state facts_state facts_state eq_refl) as [_ B].
  split; [apply A; reflexivity|apply B; reflexivity].
Defined.


Lemma run_front_end_errors_witness :
  run 1 "1 @ 2" facts_state = Done (None, Some (IllegalCharError 2 "@")) facts_state /\
  run 1 "VAR 1" facts_state = Done (None, Some (InvalidSyntaxError 1 "identifier_expected")) facts_state /\
  run 1 "  # nothing here" facts_state
  = Done (None, Some (InvalidSyntaxError 0 "statement_syntax_error")) facts_state.
Proof.
  destruct (run_front_end_errors 0 "1 @ 2" facts_state (IllegalCharError 2 "@") [] (mk_pr None None 0 0 0)
              (Parser.init [])) as (A & _ & _).
  split; [apply A; vm_compute; reflexivity|split].
  - eapply (proj1 (proj2 (run_front_end_errors 0 "VAR 1" facts_state
                            (InvalidSyntaxError 1 "identifier_expected") _ _ _)));
      vm_compute; reflexivity.
  - apply (proj2 (proj2 (run_front_end_errors 0 "  # nothing here" facts_state
                           (InvalidSyntaxError 0 "unused") [] (mk_pr None None 0 0 0) (Parser.init [])))).
    vm_compute. reflexivity.
Defined.

Lemma import_errors_witness :
  visit 2 (ImportNode (StringNode "lib/none.myopl")) 2 bad_import_state
  = Done (RErr (RTError "Can't find file 'lib/none.myopl'" (Some 2%positive))) bad_import_state /\
  visit 2 (ImportNode (StringNode "lib/bad.myopl")) 2 bad_import_state
  = Done (RErr (RTErrorWrapped "Failed to IMPORT script" "bad.myopl" (IllegalCharError 2 "@") (Some 2%positive)))
      bad_import_state.
Proof.
  destruct (import_errors 0 (StringNode "lib/none.myopl") 2 "lib/none.myopl" "unused" (IllegalCharError 2 "@")
              bad_import_state bad_import_state eq_refl) as [A _].
  destruct (import_errors 0 (StringNode "lib/bad.myopl") 2 "lib/bad.myopl" "1 @ 2"
              (IllegalCharError 2 "@") bad_import_state bad_import_state eq_refl) as [_ B].
  split; [apply A; reflexivity|].
  apply B; [reflexivity|vm_compute; reflexivity].
Defined.

Lemma string_and_mixed_operations_witness :
  call_method get_comparison_eq (VString "a") (VString "a") facts_state
  = Done (OpErr (RTError "Illegal operation" None)) facts_state /\
  call_method added_to (VNumber (PInt 1)) (VString "a") facts_state
  = Done (OpErr (RTError "Illegal operation" None)) facts_state.
Proof.
  destruct (string_and_mixed_operations get_comparison_eq "a" "a" (PInt 1) (VString "a") facts_state)
    as (_ & B & _).
  destruct (string_and_mixed_operations added_to "a" "a" (PInt 1) (VString "a") facts_state)
    as (_ & _ & C & _).
  split; [apply B; discriminate|apply C; reflexivity].
Defined.

Lemma function_call_witness :
  exists st2 t,
    lists st2 = lists facts_state /\ ctx_table st2 (next facts_state) = Some t /\
    (forall i p a, nth_error ["a"; "b"] i = Some p ->
       nth_error [VNumber (PInt 1); VNumber (PInt 2)] i = Some a ->
       get st2 t p = Some (set_context a (next facts_state))) /\
    (forall v st3, visit 0 (VarAccessNode "b") (next facts_state) st2 = Done (ROk v) st3 ->
       execute 1 (VFunction (Some "f") (VarAccessNode "b") ["a"; "b"] true (Some 2%positive))
         [VNumber (PInt 1); VNumber (PInt 2)] facts_state = Done (ROk v) st3) /\
    (forall v st3, visit 0 (VarAccessNode "b") (next facts_state) st2 = Done (RRet v) st3 ->
       execute 1 (VFunction (Some "f") (VarAccessNode "b") ["a"; "b"] true (Some 2%positive))
         [VNumber (PInt 1); VNumber (PInt 2)] facts_state = Done (ROk v) st3) /\
    (forall e st3, visit 0 (VarAccessNode "b") (next facts_state) st2 = Done (RErr e) st3 ->
       execute 1 (VFunction (Some "f") (VarAccessNode "b") ["a"; "b"] true (Some 2%positive))
         [VNumber (PInt 1); VNumber (PInt 2)] facts_state = Done (RErr e) st3).
Proof.
  apply (function_call 0 (Some "f") (VarAccessNode "b") ["a"; "b"] true 2
           [VNumber (PInt 1); VNumber (PInt 2)] facts_state).
  - constructor; [set_solver|constructor; [set_solver|constructor]].
  - reflexivity.
Defined.

End InterpreterFacts.
